(** * bench_runner: comparison pipeline and result indexing

    A shallow embedding of the parts of [bench_runner/plot.py] and
    [bench_runner/scripts/generate_results.py] that decide how two sets of
    timing samples are compared, how comparison values are memoised, how the
    per-directory index is folded into nested dictionaries, how outdated
    comparison files are pruned and how the summary view is selected.

    Conventions
    - a numpy [float64] array is a [list F] over a scalar interface [Scalar F];
      [Binary64] instantiates the interface with IEEE 754 binary64 as given by
      [SpecFloat] (53 bits of precision, [emax = 1024]); sums are taken in the
      order numpy takes them;
    - a Python function that can raise returns [py_exn + A];
    - calls into collaborators whose being called matters are recorded in a
      call log threaded through a small monad ([Traced]);
    - a Python [dict] whose iteration order matters is an association list in
      insertion order; the JSON cache, where only lookups matter, is a
      [gmap string V]. *)

From Stdlib Require Import ZArith List Bool Ascii String Sorted Permutation.
From Stdlib Require Import Floats.SpecFloat.
From stdpp Require Import base option list gmap strings.

Import ListNotations.
Local Open Scope string_scope.
Local Open Scope list_scope.
Local Open Scope nat_scope.

(** ** Python runtime: exceptions and traced computations *)

Module Py.

Inductive py_exn : Type :=
| AssertionError
| IndexError
| AttributeError
| ValueError
| ZeroDivisionError
| StatisticsError
| KeyError
| FileNotFoundError.

(** A computation that logs the calls it makes (events of type [E]) and
    either raises or returns. The log of a raising computation keeps the
    calls made before the exception. *)
Definition Traced (E A : Type) : Type := (list E * (py_exn + A))%type.

Definition ret {E A} (a : A) : Traced E A := ([], inr a).

Definition raise {E A} (e : py_exn) : Traced E A := ([], inl e).

Definition bind {E A B} (m : Traced E A) (k : A -> Traced E B) : Traced E B :=
  match m with
  | (log, inl e) => (log, inl e)
  | (log, inr a) => let '(log', r) := k a in (log ++ log', r)
  end.

Definition tell {E} (e : E) : Traced E unit := ([e], inr tt).

Definition lift {E A} (r : py_exn + A) : Traced E A := ([], r).

Definition trace {E A} (m : Traced E A) : list E := fst m.
Definition outcome {E A} (m : Traced E A) : py_exn + A := snd m.

(** [s[n:]] *)
Fixpoint slice_from (n : nat) (s : string) : string :=
  match n, s with
  | O, _ => s
  | S n', String _ s' => slice_from n' s'
  | S _, EmptyString => EmptyString
  end.

(** The same for a function that only raises or returns. *)
Definition exn_bind {A B} (m : py_exn + A) (k : A -> py_exn + B) : py_exn + B :=
  match m with
  | inl e => inl e
  | inr a => k a
  end.

#[global] Instance exn_ret : MRet (sum py_exn) := fun A => @inr py_exn A.
#[global] Instance exn_mbind : MBind (sum py_exn) := fun A B k m => @exn_bind A B m k.
#[global] Instance Traced_ret {E} : MRet (Traced E) := fun A => @ret E A.
#[global] Instance Traced_bind {E} : MBind (Traced E) := fun A B k m => @bind E A B m k.

End Py.

Import Py.

(** ** Python runtime: a [dict] in insertion order, and stable sorting *)

Module Collections.
Section OrderedDict.
Context {K V : Type} `{EqDecision K}.

Definition od_get (k : K) (m : list (K * V)) : option V :=
  snd <$> find (fun kv => bool_decide (fst kv = k)) m.

(** [m[k] = v]: in place when the key is there, at the end otherwise. *)
Fixpoint od_set (k : K) (v : V) (m : list (K * V)) : list (K * V) :=
  match m with
  | [] => [(k, v)]
  | (k', v') :: m' => if bool_decide (k' = k) then (k, v) :: m' else (k', v') :: od_set k v m'
  end.

End OrderedDict.

Section Sorted.
Context {A : Type}.

(** A stable insertion sort, which is what [sorted] and, on short arrays,
    [ndarray.sort] come to: the elements are taken from left to right, and
    each goes before the first one it is smaller than, hence after the
    elements it is equal to. *)
Fixpoint insert_sorted (lt : A -> A -> bool) (x : A) (l : list A) : list A :=
  match l with
  | [] => [x]
  | y :: l' => if lt x y then x :: y :: l' else y :: insert_sorted lt x l'
  end.

Definition sorted (lt : A -> A -> bool) (l : list A) : list A :=
  fold_left (fun acc x => insert_sorted lt x acc) l [].

(** [sorted(l, reverse=True)]: descending, and still stable. *)
Definition sorted_reverse (lt : A -> A -> bool) (l : list A) : list A :=
  sorted (fun x y => lt y x) l.

(** [first_greatest gt l h]: [h] is the first of the greatest elements of
    [l], every element before it being smaller and none after it greater
    ([gt a b] reads "[a] is greater than [b]"). *)
Definition first_greatest (gt : A -> A -> bool) (l : list A) (h : A) : Prop :=
  exists before after,
    l = before ++ h :: after
    /\ (forall c, c ∈ before -> gt h c = true)
    /\ (forall c, c ∈ after -> gt c h = false).

End Sorted.
End Collections.

(** ** Scalars: the operations on [float64] the sources use *)

Class Scalar (F : Type) : Type := {
  f_of_Z : Z -> F;          (* an integer literal or a count, as a float *)
  f_add : F -> F -> F;
  f_sub : F -> F -> F;
  f_mul : F -> F -> F;
  f_div : F -> F -> F;
  f_abs : F -> F;
  f_sqrt : F -> F;
  f_ltb : F -> F -> bool;   (* [<], false when either side is NaN *)
  f_eqb : F -> F -> bool    (* [==], false when either side is NaN *)
}.

(** IEEE 754 binary64. *)
Module Binary64.

Definition prec : Z := 53.
Definition emax : Z := 1024.

Definition float64 : Type := spec_float.

Definition of_Z (z : Z) : float64 := binary_normalize prec emax z 0 false.

#[global] Instance scalar : Scalar float64 := {|
  f_of_Z := of_Z;
  f_add := SFadd prec emax;
  f_sub := SFsub prec emax;
  f_mul := SFmul prec emax;
  f_div := SFdiv prec emax;
  f_abs := SFabs;
  f_sqrt := SFsqrt prec emax;
  f_ltb := SFltb;
  f_eqb := SFeqb
|}.

End Binary64.

(** ** numpy: the array operations the sources use, on one-dimensional arrays *)

Module Np.
Section Arrays.
Context {F : Type} `{Scalar F}.

Definition array : Type := list F.

(** [np.add.reduce] over a contiguous [float64] array is numpy's pairwise
    summation. Fewer than 8 elements are added from left to right. Up to 128
    elements are added into 8 accumulators, element [i] into accumulator
    [i mod 8], for as long as a whole block of 8 is left; the accumulators
    are then added in pairs, and the elements left over are added to the
    result one by one. A longer array is cut in two, the first part holding
    half of the elements rounded down to a multiple of 8, and the sums of the
    two parts are added. *)
Fixpoint add_blocks (r : array) (a : array) : array * array :=
  match a with
  | a0 :: a1 :: a2 :: a3 :: a4 :: a5 :: a6 :: a7 :: rest =>
      add_blocks (zip_with f_add r [a0; a1; a2; a3; a4; a5; a6; a7]) rest
  | _ => (r, a)
  end.

Definition unrolled_sum (a : array) : F :=
  let '(r, rest) := add_blocks (take 8 a) (drop 8 a) in
  match r with
  | [r0; r1; r2; r3; r4; r5; r6; r7] =>
      fold_left f_add rest
        (f_add (f_add (f_add r0 r1) (f_add r2 r3)) (f_add (f_add r4 r5) (f_add r6 r7)))
  | _ => fold_left f_add a (f_of_Z 0)
  end.

(** [depth] bounds the number of cuts; the length of the array is enough. *)
Fixpoint pairwise_sum (depth : nat) (a : array) : F :=
  let n := length a in
  if n <? 8 then fold_left f_add a (f_of_Z 0)
  else if n <=? 128 then unrolled_sum a
  else
    match depth with
    | O => unrolled_sum a
    | S depth' =>
        let n2 := n / 2 in
        let n2 := n2 - n2 mod 8 in
        f_add (pairwise_sum depth' (take n2 a)) (pairwise_sum depth' (drop n2 a))
    end.

(** [np.sum]: the reduction starts from the identity of addition, [0.0], and
    adds the pairwise sum of the array to it. (Where numpy starts the sum of
    fewer than 8 elements from [-0.0], the result is the same float, because
    it is added to [0.0] in the end.) *)
Definition sum (values : array) : F :=
  f_add (f_of_Z 0) (pairwise_sum (length values) values).

(** [np.mean]: the sum divided by the count ([0/0 = NaN] on an empty array). *)
Definition mean (values : array) : F :=
  f_div (sum values) (f_of_Z (Z.of_nat (length values))).

(** [np.std] with the default [ddof = 0]. *)
Definition std (values : array) : F :=
  let arrmean := mean values in
  let x := map (fun v => f_sub v arrmean) values in
  let x := map (fun d => f_mul d d) x in
  f_sqrt (f_div (sum x) (f_of_Z (Z.of_nat (length values)))).

(** [values - s], [abs(values)], [values < s], [s / values] with a scalar [s]. *)
Definition sub_scalar (values : array) (s : F) : array := map (fun v => f_sub v s) values.
Definition absolute (values : array) : array := map f_abs values.
Definition less_scalar (values : array) (s : F) : list bool := map (fun v => f_ltb v s) values.
Definition scalar_div (s : F) (values : array) : array := map (fun v => f_div s v) values.

(** [values[mask]] with a boolean mask of the same length. *)
Fixpoint getitem_mask (values : array) (mask : list bool) : array :=
  match values, mask with
  | v :: values', b :: mask' =>
      if b then v :: getitem_mask values' mask' else getitem_mask values' mask'
  | _, _ => []
  end.

(** [np.outer(a, b)]: row [i] is [a[i] * b[j]] for every [j]. *)
Definition outer (a b : array) : list array := map (fun x => map (fun y => f_mul x y) b) a.

(** [ndarray.flatten] of a two-dimensional array, row-major. *)
Definition flatten (rows : list array) : array := concat rows.

(** The order numpy sorts floats by: [a < b], with NaN after everything else. *)
Definition isnan (x : F) : bool := negb (f_eqb x x).
Definition sort_lt (a b : F) : bool := f_ltb a b || (isnan b && negb (isnan a)).

(** [ndarray.sort]: ascending. Elements that compare equal, such as [0.0]
    and [-0.0], keep the order they had. *)
Definition sort (values : array) : array := Collections.sorted sort_lt values.

(** Ascending, in terms of [<] alone: no element is less than an element
    before it, and a NaN is followed by NaNs only. *)
Definition ascending (l : array) : Prop :=
  forall i j a b,
    l !! i = Some a -> l !! j = Some b -> i < j ->
    f_ltb b a = false /\ (isnan a = true -> isnan b = true).

(** What [<] satisfies on the floats of an IEEE 754 format: it holds between
    numbers only, never in both directions, and it is transitive. *)
Definition ieee_order : Prop :=
  (forall x y, f_ltb x y = true -> isnan x = false /\ isnan y = false)
  /\ (forall x y, f_ltb x y = true -> f_ltb y x = false)
  /\ (forall x y z, f_ltb x y = true -> f_ltb y z = true -> f_ltb x z = true).

End Arrays.
End Np.

(** ** plot.py *)

Module Plot.
Section Comparator.
Context {F : Type} `{Scalar F}.

(** [remove_outliers(values, m=2)]:
    [values[abs(values - np.mean(values)) < np.multiply(m, np.std(values))]] *)
Definition remove_outliers (values : list F) (m : F) : list F :=
  Np.getitem_mask values
    (Np.less_scalar (Np.absolute (Np.sub_scalar values (Np.mean values)))
                    (f_mul m (Np.std values))).

Definition default_m : F := f_of_Z 2.

(** [pyperf._utils.is_significant]: a collaborator outside this repository.
    It returns [(significant, t_score)] or raises. *)
Variable is_significant : list F -> list F -> py_exn + (bool * F).

(** The calls [calculate_diffs] makes, in order. *)
Inductive call : Type :=
| CallIsSignificant (ref_values head_values : list F)
| CallRemoveOutliers (values : list F).

Definition call_is_significant (ref_values head_values : list F)
  : Traced call (bool * F) :=
  _ ← tell (CallIsSignificant ref_values head_values);
  lift (is_significant ref_values head_values).

Definition call_remove_outliers (values : list F) : Traced call (list F) :=
  _ ← tell (CallRemoveOutliers values);
  mret (remove_outliers values default_m).

(** [calculate_diffs(ref_values, head_values, outlier_rejection=True)]
    returning [(values or None, mean)]. *)
Definition calculate_diffs (ref_values head_values : list F) (outlier_rejection : bool)
  : Traced call (option (list F) * F) :=
  '(sig, t_score) ← call_is_significant ref_values head_values;
  if negb sig then
    mret (None, f_of_Z 0)
  else
    ref_values ← (if outlier_rejection then call_remove_outliers ref_values
                  else mret ref_values);
    head_values ← (if outlier_rejection then call_remove_outliers head_values
                   else mret head_values);
    let values := Np.flatten (Np.outer ref_values (Np.scalar_div (f_of_Z 1) head_values)) in
    let values := Np.sort values in
    mret (Some values, Np.mean values).

End Comparator.

(** A result record, as far as [longitudinal_plot] looks at it:
    [str(result.filename)]. *)
Record Result : Type := { filename : string }.

Section Longitudinal.
(** [V] is the type of the cached values; [W] is whatever the collaborator
    [result.BenchmarkComparison(ref, r, base).hpt_percentile_float(99)] reads
    and changes when it runs, so that it may answer differently each time. *)
Context {V W : Type}.
Variable hpt_percentile_float_99 : Result -> Result -> string -> W -> W * V.

(** The variables [get_comparison_value] closes over: the dictionary [data]
    loaded from [longitudinal.json], and the collaborator's world, with the
    list of the invocations made so far. *)
Record env : Type := {
  data : gmap string V;
  world : W;
  invocations : list (Result * Result * string)
}.

Definition cache_key (ref r : Result) (base : string) : string :=
  String.concat "," [slice_from 8 (filename ref); slice_from 8 (filename r); base].

(** [get_comparison_value(ref, r, base)] *)
Definition get_comparison_value (ref r : Result) (base : string) (st : env) : env * V :=
  let key := cache_key ref r base in
  match data st !! key with
  | Some value => (st, value)
  | None =>
      let '(w, value) := hpt_percentile_float_99 ref r base (world st) in
      ({| data := <[key := value]> (data st);
          world := w;
          invocations := invocations st ++ [(ref, r, base)] |}, value)
  end.

End Longitudinal.
End Plot.

(** ** scripts/generate_results.py *)

Module GenerateResults.

(** *** [_tuple_to_nested_dicts] *)

(** The values found in an index entry: [None], a string, a [Path]. *)
Inductive pyval : Type :=
| PyNone
| PyStr (s : string)
| PyPath (p : string).

#[global] Instance pyval_eq_dec : EqDecision pyval.
Proof. solve_decision. Defined.

(** What the fold builds: dictionaries (in insertion order) down to lists. *)
#[warnings="-register-all"] Inductive node : Type :=
| PyList (items : list pyval)
| PyDict (items : list (pyval * node)).

Definition dict_get (k : pyval) (m : list (pyval * node)) : option node :=
  snd <$> find (fun kv => bool_decide (fst kv = k)) m.

(** [m[k] = v]: in place when the key is there, at the end otherwise. *)
Fixpoint dict_set (k : pyval) (v : node) (m : list (pyval * node)) : list (pyval * node) :=
  match m with
  | [] => [(k, v)]
  | (k', v') :: m' => if bool_decide (k' = k) then (k, v) :: m' else (k', v') :: dict_set k v m'
  end.

(** [m.setdefault(k, dflt)]: the dictionary afterwards and the value returned. *)
Definition dict_setdefault (k : pyval) (dflt : node) (m : list (pyval * node))
  : list (pyval * node) * node :=
  match dict_get k m with
  | Some v => (m, v)
  | None => (m ++ [(k, dflt)], dflt)
  end.

(** The inner function [recurse(entry, d)]. It mutates [d] in place; here it
    returns [d] as it is afterwards. The child that [setdefault] returns is
    an alias of the one stored under the key, so what the recursive call does
    to it is written back. *)
Fixpoint recurse (entry : list pyval) (d : node) : py_exn + node :=
  match d with
  | PyList _ => inl AttributeError            (* a list has no [setdefault] *)
  | PyDict m =>
      match entry with
      | [k; text] =>
          let '(m, leaf) := dict_setdefault k (PyList []) m in
          match leaf with
          | PyList items =>
              if bool_decide (text ∈ items) then inr (PyDict m)
              else inr (PyDict (dict_set k (PyList (items ++ [text])) m))
          | PyDict sub =>
              if bool_decide (text ∈ map fst sub) then inr (PyDict m)
              else inl AttributeError         (* a dict has no [append] *)
          end
      | [] => inl IndexError                  (* [entry[0]] on an empty tuple *)
      | k :: rest =>
          let '(m, child) := dict_setdefault k (PyDict []) m in
          child ← recurse rest child;
          inr (PyDict (dict_set k child m))
      end
  end.

Fixpoint for_each (entries : list (list pyval)) (d : node) : py_exn + node :=
  match entries with
  | [] => inr d
  | entry :: entries' => d ← recurse entry d; for_each entries' d
  end.

(** [_tuple_to_nested_dicts(entries, d=None)] *)
Definition _tuple_to_nested_dicts (entries : list (list pyval)) (d : option node)
  : py_exn + node :=
  if bool_decide (size (list_to_set (length <$> entries) : gset nat) = 1) then
    let d := match d with None => PyDict [] | Some d => d end in
    for_each entries d
  else inl AssertionError.

(** Shapes of what the fold builds. [has_depth n d]: every list in [d] lies
    exactly [n] dictionaries deep. [leaves_distinct d]: no list in [d] holds
    a value twice. *)
Fixpoint has_depth (n : nat) (d : node) : Prop :=
  match d with
  | PyList _ => n = 0
  | PyDict m =>
      match n with
      | O => False
      | S n' => Forall (fun kv => has_depth n' (snd kv)) m
      end
  end.

(** [folded entry d]: the keys of [entry] lead, in [d], to a list (or a
    dictionary) that holds its text. *)
Fixpoint folded (entry : list pyval) (d : node) : Prop :=
  match d with
  | PyList _ => False
  | PyDict m =>
      match entry with
      | [k; text] =>
          match dict_get k m with
          | Some (PyList items) => text ∈ items
          | Some (PyDict sub) => text ∈ map fst sub
          | None => False
          end
      | [] => False
      | k :: rest =>
          match dict_get k m with
          | Some child => folded rest child
          | None => False
          end
      end
  end.

#[warnings="-register-all"] Inductive leaves_distinct : node -> Prop :=
| distinct_list (items : list pyval) :
    NoDup items -> leaves_distinct (PyList items)
| distinct_dict (m : list (pyval * node)) :
    Forall (fun kv => leaves_distinct (snd kv)) m -> leaves_distinct (PyDict m).

(** *** Paths and the directory tree *)

(** A path is its parent directory and its name; the tree maps a directory
    to the names in it, in the order [iterdir] yields them. *)
Definition path : Type := (string * string)%type.
Definition parent (p : path) : string := fst p.
Definition name (p : path) : string := snd p.

Abbreviation file_system := (gmap string (list string)).

(** [str.rfind(c)], [None] for [-1]. *)
Fixpoint rfind (c : ascii) (s : string) : option nat :=
  match s with
  | EmptyString => None
  | String a s' =>
      match rfind c s' with
      | Some i => Some (S i)
      | None => if Ascii.eqb a c then Some 0 else None
      end
  end.

(** [PurePath.stem] (Python 3.12): the name up to its last dot, when that dot
    is neither the first nor the last character. *)
Definition stem (p : path) : string :=
  match rfind "."%char (name p) with
  | Some i =>
      if (0 <? i) && (i <? String.length (name p) - 1) then substring 0 i (name p)
      else name p
  | None => name p
  end.

(** [PurePath.with_suffix(suffix)] for a suffix such as [".md"]. *)
Definition with_suffix (p : path) (suffix : string) : py_exn + path :=
  if bool_decide (name p = "") then inl ValueError
  else inr (parent p, stem p +:+ suffix).

Definition exists_ (fs : file_system) (p : path) : bool :=
  match fs !! parent p with
  | Some names => bool_decide (name p ∈ names)
  | None => false
  end.

Definition unlink (fs : file_system) (p : path) : py_exn + file_system :=
  match fs !! parent p with
  | Some names =>
      if bool_decide (name p ∈ names)
      then inr (<[parent p := filter (fun n => n ≠ name p) names]> fs)
      else inl FileNotFoundError
  | None => inl FileNotFoundError
  end.

(** [open(filename, "w")] and [plt.savefig(filename)], as far as the tree
    is concerned: the file is there afterwards. *)
Definition create (fs : file_system) (p : path) : py_exn + file_system :=
  match fs !! parent p with
  | Some names =>
      if bool_decide (name p ∈ names) then inr fs
      else inr (<[parent p := names ++ [name p]]> fs)
  | None => inl FileNotFoundError
  end.

Definition iterdir (fs : file_system) (dir : string) : py_exn + list path :=
  match fs !! dir with
  | Some names => inr (map (fun n => (dir, n)) names)
  | None => inl FileNotFoundError
  end.

(** *** The pattern of comparison file stems under [re.match]: a group
    [root] of any characters, the text [-vs-], a group [base] of any
    characters *)

Definition newline : ascii := "010"%char.

(** [.*] at the start of [s]: everything up to the first newline. *)
Fixpoint dot_star (s : string) : string :=
  match s with
  | EmptyString => EmptyString
  | String c s' => if Ascii.eqb c newline then EmptyString else String c (dot_star s')
  end.

(** The groups [(root, base)] of the match at the start of [s], if any.
    [root] is greedy: a match that takes one more character into [root] is
    preferred to one that starts ["-vs-"] here; [.] does not match a
    newline; [base] is greedy and need not reach the end of [s]. *)
Fixpoint re_match_vs (s : string) : option (string * string) :=
  match s with
  | EmptyString => None
  | String c s' =>
      match (if Ascii.eqb c newline then None else re_match_vs s') with
      | Some (root, base) => Some (String c root, base)
      | None =>
          if String.prefix "-vs-" s then Some (EmptyString, dot_star (slice_from 4 s))
          else None
      end
  end.

(** *** Results and their comparisons, as far as this module looks at them *)

Record Comparison : Type := {
  c_filename : option path;        (* [compare.filename] *)
  contents : option string;        (* [compare.contents] *)
  plot_diff_raises : option py_exn (* what [plot.plot_diff(compare.ref, compare.head, ...)]
                                      raises before it saves the figure, if anything *)
}.

Record Result : Type := {
  filename : path;
  bases : list (string * Comparison);     (* a dict, in insertion order *)
  result_info : option string * option string;
  version : string;
  run_date : string
}.

(** *** [save_generated_results] *)

Inductive writer : Type :=
| write_markdown_results
| write_plot_results
| write_pystats_diff.

Definition RESULT_TYPES (kind : option string) : py_exn + list (string * writer) :=
  match kind with
  | None => inr []
  | Some k =>
      if String.eqb k "raw results"
      then inr [(".md", write_markdown_results); (".png", write_plot_results)]
      else if String.eqb k "pystats raw" then inr [(".md", write_pystats_diff)]
      else inl KeyError
  end.

(** What a writer does to the tree. [write_markdown_results] and
    [write_pystats_diff] remove an existing file and write a new one unless
    the comparison has no contents. [write_plot_results] runs
    [plot.plot_diff], which reads and compares the two results before it
    saves the figure and may raise on the way, as [get_data] and
    [calculate_diffs] and the drawing may; the figure is saved when it does
    not. *)
Definition run_writer (func : writer) (filename : path) (compare : Comparison)
    (fs : file_system) : py_exn + file_system :=
  match func with
  | write_markdown_results | write_pystats_diff =>
      fs ← (if exists_ fs filename then unlink fs filename else inr fs);
      match contents compare with
      | None => inr fs
      | Some _ => create fs filename
      end
  | write_plot_results =>
      match plot_diff_raises compare with
      | Some e => inl e
      | None => create fs filename
      end
  end.

Fixpoint write_suffixes (types : list (string * writer)) (base_filename : path)
    (compare : Comparison) (force : bool) (fs : file_system) : py_exn + file_system :=
  match types with
  | [] => inr fs
  | (suffix, func) :: types' =>
      filename ← with_suffix base_filename suffix;
      fs ← (if negb (exists_ fs filename) || force
            then run_writer func filename compare fs
            else inr fs);
      write_suffixes types' base_filename compare force fs
  end.

Fixpoint write_comparisons (result : Result) (compares : list Comparison)
    (force : bool) (fs : file_system) : py_exn + file_system :=
  match compares with
  | [] => inr fs
  | compare :: compares' =>
      fs ← match c_filename compare with
           | Some base_filename =>
               types ← RESULT_TYPES (fst (result_info result));
               write_suffixes types base_filename compare force fs
           | None => inr fs
           end;
      write_comparisons result compares' force fs
  end.

(** The condition under which the loop over the result's directory removes
    [filename]. *)
Definition outdated (result : Result) (fs : file_system) (filename : path) : bool :=
  match re_match_vs (stem filename) with
  | Some (root, base) =>
      (bool_decide (root = stem (GenerateResults.filename result))
         && negb (bool_decide (base ∈ map fst (bases result))))
      || negb (exists_ fs (parent filename, root +:+ ".json"))
  | None => false
  end.

Fixpoint remove_outdated_loop (result : Result) (filenames : list path)
    (fs : file_system) : py_exn + file_system :=
  match filenames with
  | [] => inr fs
  | filename :: filenames' =>
      fs ← (if outdated result fs filename then unlink fs filename else inr fs);
      remove_outdated_loop result filenames' fs
  end.

(** "Remove any outdated comparison files if the bases have changed." *)
Definition remove_outdated (result : Result) (fs : file_system) : py_exn + file_system :=
  filenames ← iterdir fs (parent (filename result));
  remove_outdated_loop result filenames fs.

(** [save_generated_results(results, force=False)] *)
Fixpoint save_generated_results (results : list Result) (force : bool)
    (fs : file_system) : py_exn + file_system :=
  match results with
  | [] => inr fs
  | result :: results' =>
      fs ← write_comparisons result (map snd (bases result)) force fs;
      fs ← remove_outdated result fs;
      save_generated_results results' force fs
  end.

(** *** [summarize_results] *)

Section Summarize.
(** [(datetime.date.today() - datetime.timedelta(days=days)).isoformat()]:
    the clock and the calendar are outside this repository. *)
Variable days_ago_isoformat : Z -> string.

Fixpoint summarize_loop (i : Z) (results : list Result) (bases : list string)
    (n_recent : Z) (earliest : string) (new_results : list Result) : list Result :=
  match results with
  | [] => new_results
  | result :: results' =>
      summarize_loop (i + 1) results' bases n_recent earliest
        (if (i <? n_recent)%Z || String.leb earliest (run_date result)
            || bool_decide (version result ∈ bases)
         then new_results ++ [result] else new_results)
  end.

(** [summarize_results(results, bases, n_recent=3, days=3)] *)
Definition summarize_results (results : list Result) (bases : list string)
    (n_recent days : Z) : list Result :=
  let earliest := days_ago_isoformat days in
  summarize_loop 0 results bases n_recent earliest [].

End Summarize.

End GenerateResults.

(** ** The specification's wording, and concrete samples *)

Module Spec.
Section Wording.
Context {F : Type} `{Scalar F}.

(** Outlier rejection as the specification words it: a sample is dropped
    when it lies more than [m] standard deviations from the mean of its own
    set, and every other sample is kept. *)
Definition more_than_m_std_from_mean (values : list F) (m v : F) : bool :=
  f_ltb (f_mul m (Np.std values)) (f_abs (f_sub v (Np.mean values))).

Definition spec_remove_outliers (values : list F) (m : F) : list F :=
  List.filter (fun v => negb (more_than_m_std_from_mean values m v)) values.

End Wording.

(** The summary as the specification words it: a result is kept when it is
    among the [n_recent] most recent (fewer than [n_recent] results of the
    list have a later run date), or its run date is within [days] days of
    today, or its version is one of the bases. *)
Definition among_most_recent (results : list GenerateResults.Result) (n_recent : Z)
    (result : GenerateResults.Result) : bool :=
  (Z.of_nat (length (List.filter
     (fun other => String.ltb (GenerateResults.run_date result) (GenerateResults.run_date other))
     results)) <? n_recent)%Z.

Definition spec_summarize_results (days_ago_isoformat : Z -> string)
    (results : list GenerateResults.Result) (bases : list string) (n_recent days : Z)
  : list GenerateResults.Result :=
  List.filter
    (fun result =>
       among_most_recent results n_recent result
       || String.leb (days_ago_isoformat days) (GenerateResults.run_date result)
       || bool_decide (GenerateResults.version result ∈ bases))
    results.

End Spec.

Module Samples.
Import Binary64.

Definition f64 (zs : list Z) : list float64 := map of_Z zs.

(** Two stand-ins for the significance test. *)
Definition never_significant (ref_values head_values : list float64)
  : py_exn + (bool * float64) := inr (false, of_Z 0).
Definition always_significant (ref_values head_values : list float64)
  : py_exn + (bool * float64) := inr (true, of_Z 0).

(** A stand-in that fails the way a t-test does on samples it cannot
    handle: [ValueError] on sequences of different lengths and
    [StatisticsError] on empty ones. *)
Definition failing_on_empty (ref_values head_values : list float64)
  : py_exn + (bool * float64) :=
  if negb (length ref_values =? length head_values) then inl ValueError
  else match ref_values with
       | [] => inl StatisticsError
       | _ :: _ => inr (true, of_Z 0)
       end.

(** The samples of the specification's end-to-end scenario. *)
Definition five_tens : list float64 := f64 [10; 10; 10; 10; 10]%Z.
Definition five_fives : list float64 := f64 [5; 5; 5; 5; 5]%Z.

(** Samples with a far outlier that hides a nearer one. *)
Definition two_outliers : list float64 := f64 [0; 1; 2; 3; 4; 20; 1000]%Z.

(** 0.1 and 0.5. *)
Definition tenth : float64 := f_div (of_Z 1) (of_Z 10).
Definition half : float64 := f_div (of_Z 1) (of_Z 2).

(** A collaborator with a side effect: it counts its invocations in the
    world and returns the count, so that no two invocations agree. *)
Definition counting_compute (ref r : Plot.Result) (base : string) (w : nat) : nat * nat :=
  (S w, w).

Definition empty_env : @Plot.env nat nat :=
  {| Plot.data := ∅; Plot.world := 0; Plot.invocations := [] |}.

Definition ref_3_12 : Plot.Result :=
  {| Plot.filename := "results/bm-20231002-3.12.0-0fb18b0/bm-20231002-linux-x86_64-python-v3.12.0-3.12.0-0fb18b0.json" |}.
Definition head_3_13 : Plot.Result :=
  {| Plot.filename := "results/bm-20240105-3.13.0a2+-1f7e6a4/bm-20240105-linux-x86_64-python-main-3.13.0a2+-1f7e6a4.json" |}.

(** A results directory holding one result with comparison files for the
    bases ["base"] and ["3.10.4"], and the result with its bases reduced to
    ["base"]. *)
Definition commit_dir : string := "results/bm-20240105-3.13.0a2+-1f7e6a4".

Definition directory_before : GenerateResults.file_system :=
  {[ commit_dir := ["bm-20240105-linux.json";
                    "bm-20240105-linux-vs-base.md";
                    "bm-20240105-linux-vs-base.png";
                    "bm-20240105-linux-vs-3.10.4.md";
                    "bm-20240105-linux-vs-3.10.4.png";
                    "README.md"] ]}.

Definition directory_after : GenerateResults.file_system :=
  {[ commit_dir := ["bm-20240105-linux.json";
                    "bm-20240105-linux-vs-base.md";
                    "bm-20240105-linux-vs-base.png";
                    "README.md"] ]}.

Definition result_with_base_only : GenerateResults.Result :=
  {| GenerateResults.filename := (commit_dir, "bm-20240105-linux.json");
     GenerateResults.bases :=
       [("base", {| GenerateResults.c_filename :=
                      Some (commit_dir, "bm-20240105-linux-vs-base.md");
                    GenerateResults.contents := Some "| benchmark | ratio |";
                    GenerateResults.plot_diff_raises := None |})];
     GenerateResults.result_info := (Some "raw results", None);
     GenerateResults.version := "3.13.0a2+";
     GenerateResults.run_date := "2024-01-05" |}.

(** Four results of one runner, none of a base version, listed oldest
    first, and a clock that reads 2024-06-04. *)
Definition result_of (version run_date : string) : GenerateResults.Result :=
  {| GenerateResults.filename := ("results/bm-" +:+ run_date, "bm-" +:+ run_date +:+ "-linux.json");
     GenerateResults.bases := [];
     GenerateResults.result_info := (Some "raw results", None);
     GenerateResults.version := version;
     GenerateResults.run_date := run_date |}.

Definition oldest_first : list GenerateResults.Result :=
  [result_of "3.13.0a1+" "2024-01-10"; result_of "3.13.0a2+" "2024-02-10";
   result_of "3.13.0a3+" "2024-03-10"; result_of "3.13.0a4+" "2024-04-10"].

Definition newest_first : list GenerateResults.Result := rev oldest_first.

Definition on_2024_06_04 (days : Z) : string :=
  if (days =? 3)%Z then "2024-06-01" else "2024-06-04".

End Samples.

(** ** More of the Python runtime: strings *)

Module Str.

(** [c in s] for a character [c]. *)
Fixpoint contains (c : ascii) (s : string) : bool :=
  match s with
  | EmptyString => false
  | String a s' => Ascii.eqb a c || contains c s'
  end.

(** [s.split(c)[-1]]: what follows the last [c], all of [s] without one. *)
Definition last_field (c : ascii) (s : string) : string :=
  match GenerateResults.rfind c s with
  | Some i => slice_from (S i) s
  | None => s
  end.

(** [s.replace(c, "")] for a character [c]. *)
Fixpoint remove_char (c : ascii) (s : string) : string :=
  match s with
  | EmptyString => EmptyString
  | String a s' => if Ascii.eqb a c then remove_char c s' else String a (remove_char c s')
  end.

(** [needle in s] *)
Fixpoint occurs (needle s : string) : bool :=
  String.prefix needle s
  || match s with
     | EmptyString => false
     | String _ s' => occurs needle s'
     end.

(** [s.endswith(suffix)] *)
Fixpoint ends_with (suffix s : string) : bool :=
  String.eqb s suffix
  || match s with
     | EmptyString => false
     | String _ s' => ends_with suffix s'
     end.

(** Text outside ASCII is held in UTF-8, one [ascii] for each byte, which is
    how a string literal of this file holds it. A character is one byte below
    128, or a leading byte followed by one to three continuation bytes
    [10xxxxxx]. *)
Definition is_continuation (a : ascii) : bool :=
  let n := N_of_ascii a in (128 <=? n)%N && (n <? 192)%N.

Definition payload (a : ascii) : N := (N_of_ascii a - 128)%N.

(** [s] begins with a character: it is not empty and does not begin in the
    middle of one. *)
Definition starts_char (s : string) : bool :=
  match s with
  | EmptyString => false
  | String a _ => negb (is_continuation a)
  end.

(** The character that [s] begins with, when its encoding takes one, two or
    three bytes: its code point and the number of its bytes. *)
Definition leading_char (s : string) : option (N * nat) :=
  match s with
  | EmptyString => None
  | String a rest =>
      let n := N_of_ascii a in
      if (n <? 128)%N then Some (n, 1)
      else if (194 <=? n)%N && (n <? 224)%N then
        match rest with
        | String b _ =>
            if is_continuation b then Some (((n - 192) * 64 + payload b)%N, 2) else None
        | EmptyString => None
        end
      else if (224 <=? n)%N && (n <? 240)%N then
        match rest with
        | String b (String c _) =>
            let cp := (((n - 224) * 64 + payload b) * 64 + payload c)%N in
            if is_continuation b && is_continuation c && (2048 <=? cp)%N
            then Some (cp, 3) else None
        | _ => None
        end
      else None
  end.

(** [str.isspace] on one character, which is what [str.split()] splits on:
    the ASCII characters 9 to 13 and 28 to 32, and U+0085, U+00A0, U+1680,
    U+2000 to U+200A, U+2028, U+2029, U+202F, U+205F and U+3000. *)
Definition is_space (cp : N) : bool :=
  ((9 <=? cp)%N && (cp <=? 13)%N) || ((28 <=? cp)%N && (cp <=? 32)%N)
  || (cp =? 133)%N || (cp =? 160)%N || (cp =? 5760)%N
  || ((8192 <=? cp)%N && (cp <=? 8202)%N)
  || (cp =? 8232)%N || (cp =? 8233)%N || (cp =? 8239)%N || (cp =? 8287)%N
  || (cp =? 12288)%N.

(** The number of bytes of the white space character [s] begins with, [0]
    when it begins with none. *)
Definition space_width (s : string) : nat :=
  match leading_char s with
  | Some (cp, width) => if is_space cp then width else 0
  | None => 0
  end.

(** [s.lstrip()]; [pending] counts the bytes still to be skipped of a
    character found to be white space. *)
Fixpoint skip_from (pending : nat) (s : string) : string :=
  match s with
  | EmptyString => EmptyString
  | String _ s' =>
      match pending with
      | S pending' => skip_from pending' s'
      | O =>
          match space_width s with
          | O => s
          | S width' => skip_from width' s'
          end
      end
  end.

Definition skip_whitespace (s : string) : string := skip_from 0 s.

(** The bytes up to the next white space character. *)
Fixpoint take_word (s : string) : string :=
  match s with
  | EmptyString => EmptyString
  | String a s' =>
      match space_width s with
      | O => String a (take_word s')
      | S _ => EmptyString
      end
  end.

(** [s.split()[0]]: the first run of characters that are not white space;
    [IndexError] when there is none. *)
Definition first_word (s : string) : py_exn + string :=
  match skip_whitespace s with
  | EmptyString => inl IndexError
  | String a s' => inr (String a (take_word s'))
  end.

Definition is_digit (a : ascii) : bool :=
  let n := nat_of_ascii a in (48 <=? n) && (n <=? 57).

Definition is_lower (a : ascii) : bool :=
  let n := nat_of_ascii a in (97 <=? n) && (n <=? 122).

Fixpoint skip_digits (s : string) : string :=
  match s with
  | EmptyString => EmptyString
  | String a s' => if is_digit a then skip_digits s' else s
  end.

End Str.

(** ** More of plot.py *)

Module PlotData.
Import Collections.

Section GetData.
Context {F : Type}.

(** A benchmark of [result.contents["benchmarks"]]: its ["metadata"], when
    present, with the ["name"] in it, when present; and its ["runs"], each
    with its ["values"], when present. *)
Record benchmark : Type := {
  metadata : option (option string);
  runs : list (option (list F))
}.

(** [result.contents], as far as [get_data] reads it: the benchmarks and the
    ["name"] of the top-level metadata, when present. *)
Record result_contents : Type := {
  benchmarks : list benchmark;
  top_name : option string
}.

Definition benchmark_name (top : option string) (b : benchmark) : py_exn + string :=
  match metadata b with
  | Some (Some n) => inr n
  | Some None => inl KeyError
  | None => match top with Some n => inr n | None => inl KeyError end
  end.

(** [data.extend(run.get("values", []))] over the runs. *)
Fixpoint run_values (rs : list (option (list F))) : list F :=
  match rs with
  | [] => []
  | r :: rs' => match r with Some vs => vs | None => [] end ++ run_values rs'
  end.

Fixpoint get_data_loop (top : option string) (bs : list benchmark)
    (results : list (string * list F)) : py_exn + list (string * list F) :=
  match bs with
  | [] => inr results
  | b :: bs' =>
      name ← benchmark_name top b;
      get_data_loop top bs' (od_set name (run_values (runs b)) results)
  end.

(** [get_data(result)] *)
Definition get_data (contents : result_contents) : py_exn + list (string * list F) :=
  get_data_loop (top_name contents) (benchmarks contents) [].

End GetData.

(** [get_micro_version(version)]. The pattern, under [re.match], is one or
    more digits followed by a group: one or more lower-case letters and one
    or more further characters. The digits are taken greedily; the group
    then runs from the first letter to the end of the line, and it must hold
    at least two characters. *)
Definition match_micro (micro : string) : option string :=
  match micro with
  | EmptyString => None
  | String d _ =>
      if Str.is_digit d then
        let rest := Str.skip_digits micro in
        match rest with
        | String l _ =>
            if Str.is_lower l && (2 <=? String.length (GenerateResults.dot_star rest))
            then Some (GenerateResults.dot_star rest)
            else None
        | EmptyString => None
        end
      else None
  end.

Definition get_micro_version (version : string) : string :=
  let micro := Str.remove_char "+" (Str.last_field "." version) in
  match match_micro micro with
  | Some group => group
  | None => micro
  end.

Section Changes.
Context {V W : Type}.
Variable hpt_percentile_float_99 : Plot.Result -> Plot.Result -> string -> W -> W * V.

(** [changes = [get_comparison_value(ref, r, base) for r in runner_results]] *)
Fixpoint comparison_values (ref : Plot.Result) (runner_results : list Plot.Result)
    (base : string) (st : @Plot.env V W) : @Plot.env V W * list V :=
  match runner_results with
  | [] => (st, [])
  | r :: runner_results' =>
      let '(st, value) := Plot.get_comparison_value hpt_percentile_float_99 ref r base st in
      let '(st, values) := comparison_values ref runner_results' base st in
      (st, value :: values)
  end.

End Changes.
End PlotData.

(** ** More of scripts/generate_results.py *)

Module Catalog.
Import Collections.
Import GenerateResults.

(** *** [sort_runner_names] *)

Definition order : list string := ["linux"; "windows"; "darwin"].

(** [l.index(x)], [ValueError] when [x] is not in [l]. *)
Fixpoint list_index (x : string) (l : list string) : py_exn + nat :=
  match l with
  | [] => inl ValueError
  | y :: l' => if String.eqb y x then inr 0 else i ← list_index x l'; inr (S i)
  end.

(** The key of a name: the empty tuple for [None], and otherwise the pair of
    the rank of its first word in [order] and the name itself. *)
Definition sorter (val : option string) : py_exn + option (nat * string) :=
  match val with
  | None => inr None
  | Some v => w ← Str.first_word v; i ← list_index w order; inr (Some (i, v))
  end.

(** [a < b] on these tuples. *)
Definition key_lt (a b : option (nat * string)) : bool :=
  match a, b with
  | None, Some _ => true
  | Some (i, v), Some (j, w) => (i <? j) || ((i =? j) && String.ltb v w)
  | _, None => false
  end.

(** The keys are computed first, one name after the other. *)
Fixpoint decorate (names : list (option string))
  : py_exn + list (option (nat * string) * option string) :=
  match names with
  | [] => inr []
  | n :: names' => k ← sorter n; rest ← decorate names'; inr ((k, n) :: rest)
  end.

(** [sort_runner_names(runner_names)] *)
Definition sort_runner_names (runner_names : list (option string))
  : py_exn + list (option string) :=
  decorated ← decorate runner_names;
  inr (map snd (sorted (fun a b => key_lt (fst a) (fst b)) decorated)).

Section Attributes.
(** Attributes of a result that the record of the comparisons does not
    carry. *)
Variable runner : Result -> string.
Variable fork : Result -> string.
Variable commit_datetime : Result -> string.
Variable flags : Result -> list string.
Variable benchmark_names : Result -> gset string.

(** *** [results_by_runner] *)

Definition is_raw (result : Result) : bool :=
  match fst (result_info result) with
  | Some kind => String.eqb kind "raw results"
  | None => false
  end.

(** [by_runner[result.runner].append(result)] on a [defaultdict(list)]. *)
Fixpoint group_by_runner (results : list Result)
    (by_runner : list (option string * list Result)) : list (option string * list Result) :=
  match results with
  | [] => by_runner
  | result :: results' =>
      if negb (is_raw result) then group_by_runner results' by_runner
      else
        let key := Some (runner result) in
        let so_far := match od_get key by_runner with Some l => l | None => [] end in
        group_by_runner results' (od_set key (so_far ++ [result]) by_runner)
  end.

(** [results_by_runner(results)], as the list of the pairs it yields. *)
Definition results_by_runner (results : list Result)
  : py_exn + list (option string * list Result) :=
  let by_runner := group_by_runner results [] in
  names ← sort_runner_names (map fst by_runner);
  inr (map (fun runner_name =>
              (runner_name,
               match od_get runner_name by_runner with Some l => l | None => [] end))
           names).

(** *** [get_most_recent_pystats] *)

Definition is_pystats_candidate (result : Result) : bool :=
  match fst (result_info result) with
  | Some kind => String.eqb kind "pystats raw"
  | None => false
  end && String.eqb (fork result) "python".

(** [<] on the keys [(x.commit_datetime, len(x.flags))]. *)
Definition pystats_lt (a b : Result) : bool :=
  String.ltb (commit_datetime a) (commit_datetime b)
  || (String.eqb (commit_datetime a) (commit_datetime b)
      && (length (flags a) <? length (flags b))).

Definition get_most_recent_pystats (results : list Result) : option Result :=
  let candidate_pystats := List.filter is_pystats_candidate results in
  if 0 <? length candidate_pystats
  then head (sorted_reverse pystats_lt candidate_pystats)
  else None.

(** *** [find_different_benchmarks] *)

(** [sorted(names)] for a set of strings. *)
Definition sorted_names (names : gset string) : list string :=
  sorted String.ltb (elements names).

Definition find_different_benchmarks (head ref : Result) : list string * list string :=
  let head_benchmarks := benchmark_names head in
  let base_benchmarks := benchmark_names ref in
  (sorted_names (base_benchmarks ∖ head_benchmarks),
   sorted_names (head_benchmarks ∖ base_benchmarks)).

End Attributes.
End Catalog.

(** ** Relations between directory trees *)

Module Files.
Import GenerateResults.

(** [only_adds fs fs']: every directory of [fs] is in [fs'] with its listing
    extended at the end, and [fs'] has no other directory. *)
Definition only_adds (fs fs' : file_system) : Prop :=
  forall dir,
    match fs !! dir with
    | Some names => exists added, fs' !! dir = Some (names ++ added)
    | None => fs' !! dir = None
    end.

End Files.

(** ** [get_directory_indices_entries] *)

Module DirectoryIndex.
Import Collections.
Import GenerateResults.

Section Entries.
(** What the function reads of a result and of a comparison beyond the
    record of the comparisons, and the helpers of other modules it calls. *)
Variable runner : Result -> string.
Variable fork : Result -> string.
Variable ref : Result -> string.
Variable is_tier2 : Result -> bool.
Variable cpython_hash : Result -> string.
Variable commit_datetime : Result -> string.
Variable commit_merge_base : Result -> option string.
Variable github_action_url : Result -> option string.
Variable cpu_model_name : Result -> string.
Variable platform : Result -> string.
Variable benchmark_names : Result -> gset string.
Variable long_summary : Comparison -> string.
Variable compare_ref : Comparison -> Result.
Variable unquote : string -> string.
Variable link_to_hash : string -> string -> string.
Variable md_link : string -> string -> string.
Variable from_filename : path -> Result.
(** The order in which a [set] of directories is iterated. *)
Variable set_order : list string -> list string.

Definition entry : Type := list pyval.

(** [str(b)] for a [bool]. *)
Definition str_of_bool (b : bool) : string := if b then "True" else "False".

(** [", ".join(names)] *)
Definition join_names (names : list string) : string := String.concat ", " names.

(** The entries of one comparison of a raw result. *)
Definition base_entries (dirpath : string) (result : Result) (base : string)
    (compare : Comparison) : list entry :=
  let '(missing_benchmarks, new_benchmarks) :=
    Catalog.find_different_benchmarks benchmark_names result (compare_ref compare) in
  [[PyPath dirpath; PyStr (runner result); PyStr base; PyStr (long_summary compare)]]
  ++ (if 0 <? length missing_benchmarks
      then
        let prefix := if String.eqb base "base" then "🔴 " else "" in
        [[PyPath dirpath; PyStr (runner result); PyStr base;
          PyStr ("missing benchmarks: " +:+ prefix +:+ join_names missing_benchmarks)]]
      else [])
  ++ (if 0 <? length new_benchmarks
      then [[PyPath dirpath; PyStr (runner result); PyStr base;
             PyStr ("new benchmarks: " +:+ join_names new_benchmarks)]]
      else []).

(** The entries the first loop appends for one result. *)
Definition result_entries (result : Result) : list entry :=
  let dirpath := parent (filename result) in
  [[PyPath dirpath; PyNone; PyNone; PyStr ("fork: " +:+ unquote (fork result))];
   [PyPath dirpath; PyNone; PyNone; PyStr ("version: " +:+ version result)];
   [PyPath dirpath; PyNone; PyNone; PyStr ("tier 2: " +:+ str_of_bool (is_tier2 result))];
   [PyPath dirpath; PyNone; PyNone;
    PyStr ("commit hash: " +:+ link_to_hash (cpython_hash result) (fork result))];
   [PyPath dirpath; PyNone; PyNone; PyStr ("commit date: " +:+ commit_datetime result)]]
  ++ match commit_merge_base result with
     | Some merge_base =>
         [[PyPath dirpath; PyNone; PyNone;
           PyStr ("commit merge base: " +:+ link_to_hash merge_base (fork result))]]
     | None => []
     end
  ++ match github_action_url result with
     | Some url =>
         [[PyPath dirpath; PyStr (runner result); PyNone;
           PyStr (md_link "GitHub Action run" url)]]
     | None => []
     end
  ++ [[PyPath dirpath; PyStr (runner result); PyNone;
       PyStr ("cpu model: " +:+ cpu_model_name result)];
      [PyPath dirpath; PyStr (runner result); PyNone;
       PyStr ("platform: " +:+ platform result)]]
  ++ (if Catalog.is_raw result
      then flat_map (fun '(base, compare) => base_entries dirpath result base compare)
                    (bases result)
      else []).

(** [dirpaths], in the order of first insertion, and [refs[dirpath]]. *)
Fixpoint dirpaths_of (results : list Result) (seen : list string) : list string :=
  match results with
  | [] => seen
  | result :: results' =>
      let dirpath := parent (filename result) in
      dirpaths_of results' (if bool_decide (dirpath ∈ seen) then seen else seen ++ [dirpath])
  end.

Definition refs_of (results : list Result) (dirpath : string) : gset string :=
  list_to_set (map ref (List.filter
                          (fun result => String.eqb (parent (filename result)) dirpath)
                          results)).

(** The entries the second loop appends for one file of a directory. *)
Definition file_entries (dirpath : string) (file : path) : list entry :=
  if String.eqb (name file) "README.md" then []
  else
    let result := from_filename file in
    match result_info result with
    | (Some type, base) =>
        [[PyPath dirpath; PyStr (runner result);
          match base with Some b => PyStr b | None => PyNone end;
          PyStr (md_link type (name (filename result)))]]
    | (None, _) => []
    end.

Definition directory_entries (fs : file_system) (results : list Result) (dirpath : string)
  : py_exn + list entry :=
  files ← iterdir fs dirpath;
  let files := map (fun n => (dirpath, n)) (sorted String.ltb (map name files)) in
  inr ([[PyPath dirpath; PyNone; PyNone;
         PyStr ("ref: " +:+ join_names (Catalog.sorted_names (refs_of results dirpath)))]]
       ++ flat_map (file_entries dirpath) files).

Fixpoint directories_entries (fs : file_system) (results : list Result)
    (dirpaths : list string) : py_exn + list entry :=
  match dirpaths with
  | [] => inr []
  | dirpath :: dirpaths' =>
      first ← directory_entries fs results dirpath;
      rest ← directories_entries fs results dirpaths';
      inr (first ++ rest)
  end.

(** [get_directory_indices_entries(results)] *)
Definition get_directory_indices_entries (fs : file_system) (results : list Result)
  : py_exn + list entry :=
  let entries := flat_map result_entries results in
  later ← directories_entries fs results (set_order (dirpaths_of results []));
  inr (entries ++ later).

(** The first two statements of [generate_directory_indices]. *)
Definition directory_structure (fs : file_system) (results : list Result) : py_exn + node :=
  entries ← get_directory_indices_entries fs results;
  _tuple_to_nested_dicts entries None.

End Entries.
End DirectoryIndex.

(** ** Regular expressions, as far as the profiling categories use them *)

Module Re.

Inductive regex : Type :=
| Empty                      (* matches nothing *)
| Eps                        (* matches the empty string *)
| Chr (c : ascii)
| Any                        (* [.]: any one character but a newline *)
| Class (cs : list ascii)    (* [[...]]: one of the characters listed *)
| Seq (r1 r2 : regex)
| Alt (r1 r2 : regex)
| Star (r : regex).

(** The bytes that continue a character. *)
Definition continuation_bytes : list ascii :=
  List.filter Str.is_continuation (map ascii_of_nat (seq 0 256)).

Definition Plus (r : regex) : regex := Seq r (Star r).
Definition Opt (r : regex) : regex := Alt Eps r.

Fixpoint nullable (r : regex) : bool :=
  match r with
  | Empty | Chr _ | Any | Class _ => false
  | Eps | Star _ => true
  | Seq r1 r2 => nullable r1 && nullable r2
  | Alt r1 r2 => nullable r1 || nullable r2
  end.

(** The strings [r] matches after a first byte [c]. A character that [.]
    matches is a byte that is neither a newline nor a continuation byte,
    with the continuation bytes that follow it. *)
Fixpoint deriv (c : ascii) (r : regex) : regex :=
  match r with
  | Empty | Eps => Empty
  | Chr c' => if Ascii.eqb c c' then Eps else Empty
  | Any =>
      if Ascii.eqb c GenerateResults.newline || Str.is_continuation c then Empty
      else Star (Class continuation_bytes)
  | Class cs => if existsb (Ascii.eqb c) cs then Eps else Empty
  | Seq r1 r2 =>
      Alt (Seq (deriv c r1) r2) (if nullable r1 then deriv c r2 else Empty)
  | Alt r1 r2 => Alt (deriv c r1) (deriv c r2)
  | Star r' => Seq (deriv c r') (Star r')
  end.

(** [r] matches all of [s]. *)
Fixpoint matches (r : regex) (s : string) : bool :=
  match s with
  | EmptyString => nullable r
  | String c s' => matches (deriv c r) s'
  end.

(** [s[:-1]] *)
Fixpoint without_last (s : string) : string :=
  match s with
  | EmptyString => EmptyString
  | String c EmptyString => EmptyString
  | String c s' => String c (without_last s')
  end.

Fixpoint ends_with_newline (s : string) : bool :=
  match s with
  | EmptyString => false
  | String c EmptyString => Ascii.eqb c GenerateResults.newline
  | String _ s' => ends_with_newline s'
  end.

(** [re.match(pattern + "$", s)] for a pattern [r]: [$] stands at the end of
    [s], or before a newline that ends [s]. *)
Definition match_to_end (r : regex) (s : string) : bool :=
  matches r s || (ends_with_newline s && matches r (without_last s)).

(** The pattern syntax: a character for itself, [.], a class in brackets,
    and the postfix [+], [*], [?]. *)
Inductive token : Type :=
| TChr (c : ascii)
| TAny
| TClass (cs : list ascii)
| TPlus
| TStar
| TOpt
| TBad.

Definition is_unsupported (c : ascii) : bool :=
  existsb (Ascii.eqb c) (list_ascii_of_string "\()|{}^$]").

(** [in_class] holds the characters read since an opening bracket. *)
Fixpoint tokens (in_class : option (list ascii)) (s : string) : list token :=
  match s with
  | EmptyString => match in_class with Some _ => [TBad] | None => [] end
  | String c s' =>
      match in_class with
      | Some cs =>
          if Ascii.eqb c "]" then TClass cs :: tokens None s'
          else if Ascii.eqb c "\" || Ascii.eqb c "^" || Ascii.eqb c "-" || Ascii.eqb c "["
          then [TBad]
          else tokens (Some (cs ++ [c])) s'
      | None =>
          if Ascii.eqb c "." then TAny :: tokens None s'
          else if Ascii.eqb c "+" then TPlus :: tokens None s'
          else if Ascii.eqb c "*" then TStar :: tokens None s'
          else if Ascii.eqb c "?" then TOpt :: tokens None s'
          else if Ascii.eqb c "[" then tokens (Some []) s'
          else if is_unsupported c then [TBad]
          else TChr c :: tokens None s'
      end
  end.

Definition atom (t : token) : option regex :=
  match t with
  | TChr c => Some (Chr c)
  | TAny => Some Any
  | TClass (c :: cs) => Some (Class (c :: cs))
  | _ => None
  end.

Definition quantifier (t : token) : option (regex -> regex) :=
  match t with
  | TPlus => Some Plus
  | TStar => Some Star
  | TOpt => Some Opt
  | _ => None
  end.

(** A sequence of atoms, each with at most one quantifier. *)
Fixpoint parse_tokens (ts : list token) : option regex :=
  match ts with
  | [] => Some Eps
  | t :: ts' =>
      match atom t with
      | None => None
      | Some a =>
          match ts' with
          | [] => Some a
          | q :: ts'' =>
              match quantifier q with
              | Some quantified =>
                  match ts'' with
                  | [] => Some (quantified a)
                  | _ :: _ =>
                      match parse_tokens ts'' with
                      | Some r => Some (Seq (quantified a) r)
                      | None => None
                      end
                  end
              | None =>
                  match parse_tokens ts' with
                  | Some r => Some (Seq a r)
                  | None => None
                  end
              end
          end
      end
  end.

Definition parse (pattern : string) : option regex := parse_tokens (tokens None pattern).

End Re.

(** ** scripts/profiling_plot.py *)

Module ProfilingPlot.

Definition CATEGORIES : list (string * list string) :=
  [
   ("interpreter",
     ["_Py_GetBaseOpcode"; "_PyCode_Quicken"; "_PyCode_Validate";
      "_PyEval.+"; "_PyFrame_ClearExceptCode"; "_PyFrame_New_NoTrack";
      "_PyFrame_Traverse"; "_PyPegen_.+"; "_PyThreadState_PopFrame";
      "advance"; "initialize_locals"; "intern_string_constants"; "PyAST_.+";
      "PyEval_.+"]);
   ("lookup",
     ["_Py_dict_lookup"; "_Py_type_getattro"; "_PyType_Lookup";
      "builtin_getattr"; "find_name_in_mro"; "lookdict_split";
      "lookdict_unicode_nodummy"; "lookdict_unicode"; "PyMember_.*";
      "unicodekeys_lookup_unicode"; "update_one_slot"]);
   ("gc",
     ["_?PyObject_GC_.+"; "_PyObject_Visit.+"; "_PyTrash_.+"; ".+_traverse";
      ".+MaybeUntrack"; "gc_collect_main"; "PyObject_IS_GC"; "type_is_gc";
      "visit_.+"]);
   ("memory",
     ["_?PyMem_.+"; "_Py_NewReference"; "_PyObject_Free";
      "_PyObject_Malloc"; ".+_alloc"; ".+[Nn]ew.*"; ".+Alloc"; ".+Calloc";
      ".+dealloc"; ".+Dealloc"; ".+Realloc"]);
   ("dynamic",
     ["_?PyMapping_.+"; "_?PyNumber_.+"; "_?PyObject_.+"; "_?PySequence_.+";
      "_Py_type_getattro_impl"; "_PySuper_Lookup"; "_PyType_GetDict";
      "delitem_common"; "do_super_lookup"; "getset_get"; "method_get";
      "object_.+"; "PyDescr_.+"; "PyIter_.+"; "PyType_GetModuleByDef";
      "PyType_IsSubtype"; "slot_tp_richcompare"; "StopIteration.+";
      "type_.+"]);
   ("library",
     ["_?sre_.+"; "pattern_.+"]);
   ("int",
     ["_?PyLong_.+"; "Balloc"; "k_.+"; "l_.+"; "long_.+"; "x_.+"]);
   ("tuple",
     ["_?PyTuple_.+"; "tuple.+"]);
   ("dict",
     ["_?PyDict_.+"; "build_indices_unicode"; "clone_combined_dict_keys.+";
      "dict_.+"; "dictiter_.+"; "dictresize"; "find_empty_slot";
      "free_keys_object"; "insert_to_emptydict"; "insertdict";
      "new_keys_object"; "OrderedDict_.+"]);
   ("list",
     ["_?PyList_.+"; "list_.+"; "listiter_.+"]);
   ("float",
     ["_?PyFloat_.+"; "float_.+"]);
   ("str",
     ["_?PyUnicode.+"; "_copy_characters.+"; "ascii_decode"; "bytes_.+";
      "PyBytes_.+"; "replace"; "resize_compact"; "siphash13"; "split";
      "stringlib_.+"; "unicode_.+"]);
   ("miscobj",
     ["_?PySlice_.+"; "_PyBuildSlice_ConsumeRefs"; "_PyEval_SliceIndex";
      "bytearray_.+"; "deque_.+"; "dequeiter_.+"; "enum_.+"; "PyBool_.+";
      "PyBuffer_.+"; "set_.+"; "setiter_.+"]);
   ("exceptions",
     ["_?PyErr_.*"; ".+Error_init"; "BaseException.*"; "PyCode_Addr2Line";
      "PyException_.*"; "PyFrame_.*"; "PyTraceBack_.+"]);
   ("gil",
     ["drop_gil"; "PyGILState_.*"; "take_gil"]);
   ("calls",
     ["_?PyArg_.+"; "_Py_CheckFunctionResult"; "_PyFunction_Vectorcall";
      "cfunction_call.*"; "cfunction_vectorcall.+"; "method_vectorcall.+";
      "vectorcall_method"; "vgetargs1_impl"; "vgetargskeywords.constprop.0"]);
   ("import",
     ["PyImport.+"; "r_.+"])
  ].

(** [re.match(f"^{pattern}$", word)]. The patterns of [CATEGORIES] are all
    in the syntax [Re.parse] reads. *)
Definition pattern_matches (pattern word : string) : bool :=
  match Re.parse pattern with
  | Some r => Re.match_to_end r word
  | None => false
  end.

(** The pattern for shared objects: one or more characters, [.so], and
    optionally a dot and one or more characters, up to the end. *)
Definition shared_object : Re.regex :=
  Re.Seq (Re.Plus Re.Any)
    (Re.Seq (Re.Chr ".") (Re.Seq (Re.Chr "s") (Re.Seq (Re.Chr "o")
       (Re.Opt (Re.Seq (Re.Chr ".") (Re.Plus Re.Any)))))).

(** The inner loop: [sym.split()[0]] is evaluated for each pattern. *)
Fixpoint match_patterns (patterns : list string) (sym : string) : py_exn + bool :=
  match patterns with
  | [] => inr false
  | pattern :: patterns' =>
      word ← Str.first_word sym;
      if pattern_matches pattern word then inr true else match_patterns patterns' sym
  end.

Fixpoint match_categories (categories : list (string * list string)) (sym : string)
  : py_exn + option string :=
  match categories with
  | [] => inr None
  | (category, patterns) :: categories' =>
      found ← match_patterns patterns sym;
      if (found : bool) then inr (Some category) else match_categories categories' sym
  end.

(** [category_for_obj_sym(obj, sym)] *)
Definition category_for_obj_sym (obj sym : string) : py_exn + string :=
  if String.eqb obj "[kernel.kallsyms]" then inr "kernel"
  else if String.prefix "libc" obj then inr "libc"
  else if Re.match_to_end shared_object obj then inr "library"
  else if String.eqb obj "python" then
    found ← match_categories CATEGORIES sym;
    match found with
    | Some category => inr category
    | None => inr "unknown"
    end
  else inr "unknown".

End ProfilingPlot.

(** ** More concrete samples *)

Module MoreSamples.
Import GenerateResults.

(** Two benchmarks of one name: the first with its own metadata, the second
    named by the top-level metadata. *)
Definition nbody_twice : @PlotData.result_contents Z :=
  {| PlotData.benchmarks :=
       [{| PlotData.metadata := Some (Some "nbody");
           PlotData.runs := [Some [1; 2]%Z; None] |};
        {| PlotData.metadata := None; PlotData.runs := [Some [3]%Z] |}];
     PlotData.top_name := Some "nbody" |}.

Definition linux_runner : string := "linux x86_64 (linux)".
Definition darwin_runner : string := "darwin arm64 (darwin)".

(** A pystats result, with its commit time held in [run_date]. *)
Definition pystats_of (commit_time : string) : Result :=
  {| filename := ("results/bm-" +:+ commit_time, "bm-" +:+ commit_time +:+ "-pystats.json");
     bases := [];
     result_info := (Some "pystats raw", None);
     version := "3.13.0a2+";
     run_date := commit_time |}.

Definition pystats_results : list Result :=
  [pystats_of "2024-01-10"; pystats_of "2024-03-10"; pystats_of "2024-02-10"].

Definition no_names (result : Result) : gset string := ∅.

(** A result of the branch [tier1-vs-tier2], with the base ["base"], alone
    in its directory. *)
Definition branch_stem : string :=
  "bm-20240105-linux-x86_64-mdboom-tier1-vs-tier2-3.13.0a2+-1f7e6a4".

Definition result_of_branch : Result :=
  {| filename := (Samples.commit_dir, branch_stem +:+ ".json");
     bases :=
       [("base", {| c_filename := Some (Samples.commit_dir, branch_stem +:+ "-vs-base.md");
                    contents := Some "| benchmark | ratio |";
                    plot_diff_raises := None |})];
     result_info := (Some "raw results", None);
     version := "3.13.0a2+";
     run_date := "2024-01-05" |}.

Definition directory_of_branch : file_system :=
  {[ Samples.commit_dir := [branch_stem +:+ ".json"; "README.md"] ]}.

(** A result whose one base has a label with ["-vs-"] in it. *)
Definition result_with_vs_base : Result :=
  {| filename := (Samples.commit_dir, "bm-20240105-linux.json");
     bases :=
       [("3.12-vs-3.11",
         {| c_filename := Some (Samples.commit_dir, "bm-20240105-linux-vs-3.12-vs-3.11.md");
            contents := Some "| benchmark | ratio |";
            plot_diff_raises := None |})];
     result_info := (Some "raw results", None);
     version := "3.13.0a2+";
     run_date := "2024-01-05" |}.

Definition directory_of_vs_base : file_system :=
  {[ Samples.commit_dir := ["bm-20240105-linux.json"; "README.md"] ]}.

(** White space outside ASCII: a no-break space, U+00A0, and an em space,
    U+2003, in UTF-8. *)
Definition no_break_space : string := String "194" (String "160" "").
Definition em_space : string := String "226" (String "128" (String "131" "")).

End MoreSamples.

(** Unfolds one step of the exception monad without computing the rest. *)
Ltac exn_step := unfold mbind, exn_mbind, exn_bind; cbv beta iota.
Ltac exn_step_in H := unfold mbind, exn_mbind, exn_bind in H; cbv beta iota in H.

(** * Orders and stable sorting *)

Lemma StronglySorted_lookup_lt {A : Type} (R : A -> A -> Prop) (l : list A) :
  StronglySorted R l ->
  forall i j a b, l !! i = Some a -> l !! j = Some b -> i < j -> R a b.
Proof.
  induction 1 as [|x l Hsorted IH Hall]; intros i j a b Hi Hj Hlt.
  - discriminate Hi.
  - destruct j as [|j]; [lia|]. destruct i as [|i].
    + injection Hi as <-. rewrite Forall_forall in Hall. apply Hall.
      apply list_elem_of_lookup. exists j. exact Hj.
    + apply (IH i j); [exact Hi | exact Hj | lia].
Qed.

Section SortedFacts.
Import Collections.
Context {A : Type}.
Variable lt : A -> A -> bool.

Lemma insert_sorted_perm x l : Permutation (insert_sorted lt x l) (x :: l).
Proof.
  induction l as [|y l IH]; simpl; [reflexivity|].
  destruct (lt x y); [reflexivity|]. rewrite IH. apply perm_swap.
Qed.

Lemma sorted_fold_perm l : forall acc,
  Permutation (fold_left (fun acc x => insert_sorted lt x acc) l acc) (acc ++ l).
Proof.
  induction l as [|x l IH]; intros acc; simpl.
  - rewrite app_nil_r. reflexivity.
  - rewrite IH, insert_sorted_perm. simpl. apply Permutation_middle.
Qed.

Lemma sorted_perm l : Permutation (sorted lt l) l.
Proof. unfold sorted. rewrite sorted_fold_perm. reflexivity. Qed.

Section Ordered.
Hypothesis Hasym : forall a b, lt a b = true -> lt b a = false.
Hypothesis Htrans : forall a b c, lt a b = true -> lt b c = true -> lt a c = true.

Lemma insert_sorted_strongly x l :
  StronglySorted (fun a b => lt b a = false) l ->
  StronglySorted (fun a b => lt b a = false) (insert_sorted lt x l).
Proof.
  induction 1 as [|y l Hsorted IH Hall]; simpl.
  - repeat constructor.
  - destruct (lt x y) eqn:Hxy.
    + constructor; [constructor; assumption|].
      constructor; [apply Hasym, Hxy|].
      rewrite Forall_forall in Hall |- *. intros z Hz.
      destruct (lt z x) eqn:Hzx; [|reflexivity].
      rewrite <- (Hall z Hz). symmetry. exact (Htrans z x y Hzx Hxy).
    + constructor; [exact IH|].
      rewrite Forall_forall in Hall |- *. intros z Hz.
      apply list_elem_of_In in Hz.
      apply (Permutation_in _ (insert_sorted_perm x l)) in Hz.
      destruct Hz as [<-|Hz]; [exact Hxy|]. apply Hall, list_elem_of_In, Hz.
Qed.

Lemma sorted_strongly l : StronglySorted (fun a b => lt b a = false) (sorted lt l).
Proof.
  unfold sorted.
  assert (Hgen : forall acc, StronglySorted (fun a b => lt b a = false) acc ->
                 StronglySorted (fun a b => lt b a = false)
                   (fold_left (fun acc x => insert_sorted lt x acc) l acc)).
  { induction l as [|x l IH]; intros acc Hacc; simpl; [exact Hacc|].
    apply IH, insert_sorted_strongly, Hacc. }
  apply Hgen. constructor.
Qed.

End Ordered.
End SortedFacts.

(** * Properties of plot.py *)

Section NumpyFacts.
Context {F : Type} `{Scalar F}.

Lemma getitem_mask_filter (p : F -> bool) (values : list F) :
  Np.getitem_mask values (map p values) = List.filter p values.
Proof.
  induction values as [|v values IH]; simpl; [reflexivity|].
  rewrite IH. reflexivity.
Qed.

Lemma sort_perm (l : list F) : Permutation (Np.sort l) l.
Proof. apply sorted_perm. Qed.

Section Ordered.
Hypothesis Horder : Np.ieee_order.

Lemma sort_lt_asym (x y : F) : Np.sort_lt x y = true -> Np.sort_lt y x = false.
Proof.
  destruct Horder as (Hnum & Hasym & _). unfold Np.sort_lt. intros Hxy.
  apply orb_true_iff in Hxy as [Hlt|Hnan].
  - destruct (Hnum x y Hlt) as [Hx _]. rewrite (Hasym x y Hlt), Hx. reflexivity.
  - apply andb_true_iff in Hnan as [Hy Hx]. apply negb_true_iff in Hx.
    rewrite Hy, andb_false_r, orb_false_r.
    destruct (f_ltb y x) eqn:Hlt; [|reflexivity].
    destruct (Hnum y x Hlt) as [Hy' _]. congruence.
Qed.

Lemma sort_lt_trans (x y z : F) :
  Np.sort_lt x y = true -> Np.sort_lt y z = true -> Np.sort_lt x z = true.
Proof.
  destruct Horder as (Hnum & _ & Htrans). unfold Np.sort_lt. intros Hxy Hyz.
  apply orb_true_iff in Hxy as [Hxy|Hxy]; apply orb_true_iff in Hyz as [Hyz|Hyz].
  - rewrite (Htrans x y z Hxy Hyz). reflexivity.
  - apply andb_true_iff in Hyz as [Hz _]. destruct (Hnum x y Hxy) as [Hx _].
    rewrite Hz, Hx. apply orb_true_r.
  - apply andb_true_iff in Hxy as [Hy _]. destruct (Hnum y z Hyz) as [Hy' _]. congruence.
  - apply andb_true_iff in Hxy as [Hy _]. apply andb_true_iff in Hyz as [_ Hy'].
    apply negb_true_iff in Hy'. congruence.
Qed.

Lemma sort_ascending (l : list F) : Np.ascending (Np.sort l).
Proof.
  intros i j a b Hi Hj Hij.
  pose proof (StronglySorted_lookup_lt _ _
                (sorted_strongly Np.sort_lt sort_lt_asym sort_lt_trans l)
                i j a b Hi Hj Hij) as Hle.
  cbv beta in Hle. unfold Np.sort_lt in Hle.
  apply orb_false_iff in Hle as [Hlt Hnan]. split; [exact Hlt|].
  intros Ha. rewrite Ha in Hnan. simpl in Hnan. apply negb_false_iff in Hnan. exact Hnan.
Qed.

End Ordered.

(** [remove_outliers] keeps the samples that pass the test, in their order. *)
Lemma remove_outliers_filter (values : list F) (m : F) :
  Plot.remove_outliers values m
  = List.filter
      (fun v => f_ltb (f_abs (f_sub v (Np.mean values))) (f_mul m (Np.std values)))
      values.
Proof.
  unfold Plot.remove_outliers, Np.less_scalar, Np.absolute, Np.sub_scalar.
  rewrite !map_map. apply getitem_mask_filter.
Qed.

Lemma filter_sublist (p : F -> bool) (l : list F) : sublist (List.filter p l) l.
Proof.
  induction l as [|x l IH]; simpl; [constructor|].
  destruct (p x); constructor; exact IH.
Qed.

Lemma filter_fixed_iff (p : F -> bool) (l : list F) :
  List.filter p l = l <-> Forall (fun v => p v = true) l.
Proof.
  induction l as [|x l IH]; simpl.
  - split; [constructor|reflexivity].
  - destruct (p x) eqn:Hp.
    + split.
      * intros Heq. injection Heq as Heq. constructor; [exact Hp|]. apply IH, Heq.
      * intros Hall. inversion Hall; subst. f_equal. apply IH. assumption.
    + split.
      * intros Heq. exfalso.
        pose proof (filter_sublist p l) as Hsub. rewrite Heq in Hsub.
        apply sublist_length in Hsub. simpl in Hsub. lia.
      * intros Hall. inversion Hall; subst. congruence.
Qed.

End NumpyFacts.

(** ** binary64 orders as numpy expects *)

Section Binary64Facts.
Import Binary64.

Lemma compare_cont_spec (p q : positive) :
  CompareSpec (p = q) (p < q)%positive (q < p)%positive (PosDef.Pos.compare_cont Eq p q).
Proof. exact (Pos.compare_spec p q). Qed.

Lemma SFeqb_refl_not_nan (x : float64) : x <> S754_nan -> SFeqb x x = true.
Proof.
  unfold SFeqb. destruct x as [s|s| |s m e]; simpl; intros Hx;
    try reflexivity; try congruence; try (destruct s; reflexivity).
  destruct s; rewrite Z.compare_refl;
    destruct (compare_cont_spec m m); try reflexivity; lia.
Qed.

Lemma SFltb_not_nan (x y : float64) : SFltb x y = true -> x <> S754_nan /\ y <> S754_nan.
Proof.
  unfold SFltb. destruct x, y; simpl; try discriminate; split; discriminate.
Qed.

Lemma SFltb_compare (x y : float64) : SFltb x y = true <-> SFcompare x y = Some Lt.
Proof.
  unfold SFltb. destruct (SFcompare x y) as [[| |]|]; split; congruence.
Qed.

Ltac compare_cases :=
  repeat match goal with
         | |- context [(?a ?= ?b)%Z] => destruct (Z.compare_spec a b)
         | |- context [PosDef.Pos.compare_cont Eq ?p ?q] => destruct (compare_cont_spec p q)
         end;
  simpl; try discriminate; try reflexivity; try lia.

Lemma SFcompare_Lt_asym (x y : float64) :
  SFcompare x y = Some Lt -> SFcompare y x <> Some Lt.
Proof.
  destruct x as [sx|sx| |sx mx ex], y as [sy|sy| |sy my ey]; simpl;
    try discriminate; try (destruct sx; discriminate);
    try (destruct sy; discriminate); try (destruct sx, sy; discriminate).
  destruct sx, sy; try discriminate; compare_cases.
Qed.

Lemma SFcompare_Lt_trans (x y z : float64) :
  SFcompare x y = Some Lt -> SFcompare y z = Some Lt -> SFcompare x z = Some Lt.
Proof.
  destruct x as [sx|sx| |sx mx ex], y as [sy|sy| |sy my ey], z as [sz|sz| |sz mz ez];
    simpl; try discriminate;
    repeat match goal with s : bool |- _ => destruct s end;
    simpl; try discriminate; try reflexivity; compare_cases.
Qed.

(** The order of binary64 is the order of an IEEE 754 format. *)
Lemma binary64_order : @Np.ieee_order float64 _.
Proof.
  unfold Np.ieee_order, Np.isnan. simpl f_ltb. simpl f_eqb. repeat split.
  - destruct (SFltb_not_nan x y H) as [Hx _]. rewrite (SFeqb_refl_not_nan x Hx). reflexivity.
  - destruct (SFltb_not_nan x y H) as [_ Hy]. rewrite (SFeqb_refl_not_nan y Hy). reflexivity.
  - intros x y Hxy. apply SFltb_compare in Hxy.
    destruct (SFltb y x) eqn:Hyx; [|reflexivity].
    apply SFltb_compare in Hyx. destruct (SFcompare_Lt_asym x y Hxy Hyx).
  - intros x y z Hxy Hyz. apply SFltb_compare. apply SFltb_compare in Hxy, Hyz.
    exact (SFcompare_Lt_trans x y z Hxy Hyz).
Qed.

End Binary64Facts.

(** ** [calculate_diffs] *)

Section CalculateDiffs.
Context {F : Type} `{Scalar F}.
Variable is_significant : list F -> list F -> py_exn + (bool * F).

Lemma calculate_diffs_raises ref_values head_values outlier_rejection e :
  is_significant ref_values head_values = inl e ->
  Plot.calculate_diffs is_significant ref_values head_values outlier_rejection
  = ([Plot.CallIsSignificant ref_values head_values], inl e).
Proof.
  intros Hsig. unfold Plot.calculate_diffs, Plot.call_is_significant.
  cbn. rewrite Hsig. reflexivity.
Qed.

Lemma calculate_diffs_insignificant ref_values head_values outlier_rejection t_score :
  is_significant ref_values head_values = inr (false, t_score) ->
  Plot.calculate_diffs is_significant ref_values head_values outlier_rejection
  = ([Plot.CallIsSignificant ref_values head_values], inr (None, f_of_Z 0)).
Proof.
  intros Hsig. unfold Plot.calculate_diffs, Plot.call_is_significant.
  cbn. rewrite Hsig. reflexivity.
Qed.

Lemma calculate_diffs_rejecting ref_values head_values t_score :
  is_significant ref_values head_values = inr (true, t_score) ->
  Plot.calculate_diffs is_significant ref_values head_values true
  = ([Plot.CallIsSignificant ref_values head_values;
      Plot.CallRemoveOutliers ref_values;
      Plot.CallRemoveOutliers head_values],
     let values :=
       Np.sort (Np.flatten (Np.outer
         (Plot.remove_outliers ref_values Plot.default_m)
         (Np.scalar_div (f_of_Z 1) (Plot.remove_outliers head_values Plot.default_m)))) in
     inr (Some values, Np.mean values)).
Proof.
  intros Hsig.
  unfold Plot.calculate_diffs, Plot.call_is_significant, Plot.call_remove_outliers.
  cbn. rewrite Hsig. reflexivity.
Qed.

Lemma calculate_diffs_keeping ref_values head_values t_score :
  is_significant ref_values head_values = inr (true, t_score) ->
  Plot.calculate_diffs is_significant ref_values head_values false
  = ([Plot.CallIsSignificant ref_values head_values],
     let values :=
       Np.sort (Np.flatten (Np.outer ref_values (Np.scalar_div (f_of_Z 1) head_values))) in
     inr (Some values, Np.mean values)).
Proof.
  intros Hsig. unfold Plot.calculate_diffs, Plot.call_is_significant.
  cbn. rewrite Hsig. reflexivity.
Qed.

Lemma outer_reciprocal (a b : list F) :
  Np.flatten (Np.outer a (Np.scalar_div (f_of_Z 1) b))
  = flat_map (fun r => map (fun h => f_mul r (f_div (f_of_Z 1) h)) b) a.
Proof.
  unfold Np.flatten, Np.outer, Np.scalar_div.
  rewrite flat_map_concat_map. f_equal.
  apply map_ext. intros r. apply map_map.
Qed.

End CalculateDiffs.

(** ** The claims about the comparator *)

(** C1. When the significance test reports no significant difference,
    [calculate_diffs] returns [(None, 0.0)], an absent ratio distribution with
    mean ratio 0.0, and the significance test is the only call it makes:
    [remove_outliers] is applied to neither input sequence. *)
Theorem calculate_diffs_not_significant {F : Type} `{Scalar F}
    (is_significant : list F -> list F -> py_exn + (bool * F))
    (ref_values head_values : list F) (outlier_rejection : bool) (t_score : F) :
  is_significant ref_values head_values = inr (false, t_score) ->
  let run := Plot.calculate_diffs is_significant ref_values head_values outlier_rejection in
  outcome run = inr (None, f_of_Z 0)
  /\ trace run = [Plot.CallIsSignificant ref_values head_values]
  /\ forall values, ~ In (Plot.CallRemoveOutliers values) (trace run).
Proof.
  intros Hsig run. subst run.
  rewrite (calculate_diffs_insignificant _ _ _ _ _ Hsig). simpl.
  repeat split. intros values [Hin|[]]. discriminate Hin.
Qed.

Lemma calculate_diffs_not_significant_witness :
  let run := Plot.calculate_diffs Samples.never_significant
               (Samples.f64 [10; 11; 12]%Z) (Samples.f64 [10; 12; 11]%Z) true in
  outcome run = inr (None, f_of_Z 0)
  /\ trace run = [Plot.CallIsSignificant (Samples.f64 [10; 11; 12]%Z) (Samples.f64 [10; 12; 11]%Z)]
  /\ forall values, ~ In (Plot.CallRemoveOutliers values) (trace run).
Proof.
  apply (calculate_diffs_not_significant Samples.never_significant
           (Samples.f64 [10; 11; 12]%Z) (Samples.f64 [10; 12; 11]%Z) true (Binary64.of_Z 0)).
  reflexivity.
Defined.



(** C3. The code does not do what the claim says on samples that are all
    equal, as the reference samples of the specification's own end-to-end
    scenario are. Their standard deviation is 0, so none of them lies more
    than two standard deviations from their mean, and outlier rejection as
    the claim words it keeps them all; [remove_outliers] removes them all,
    because its test asks for a distance less than two standard deviations
    where the claim asks for one that is not more. [calculate_diffs] then
    returns an empty distribution and a NaN mean for the scenario. *)
Lemma remove_outliers_empties_equal_samples :
  Np.std Samples.five_tens = Binary64.of_Z 0
  /\ Forall (fun v => Spec.more_than_m_std_from_mean Samples.five_tens Plot.default_m v = false)
            Samples.five_tens
  /\ Spec.spec_remove_outliers Samples.five_tens Plot.default_m = Samples.five_tens
  /\ Plot.remove_outliers Samples.five_tens Plot.default_m = []
  /\ outcome (Plot.calculate_diffs Samples.always_significant
                Samples.five_tens Samples.five_fives true)
     = inr (Some [], S754_nan).
Proof. vm_compute. repeat split; repeat constructor. Qed.

(** C4, as the specification states it, fails. From [0, 1, 2, 3, 4, 20,
    1000] one application removes the 1000 alone: the mean is about 147 and
    the standard deviation about 348, so that the 20 lies well within two
    standard deviations. A second application finds a mean of 5 and a
    standard deviation below 7 on what is left, and removes the 20, which now
    lies 15 from the mean. No sample lies at the boundary in either
    application. *)
Lemma remove_outliers_not_idempotent :
  Plot.remove_outliers Samples.two_outliers Plot.default_m = Samples.f64 [0; 1; 2; 3; 4; 20]%Z
  /\ Plot.remove_outliers (Plot.remove_outliers Samples.two_outliers Plot.default_m)
       Plot.default_m
     = Samples.f64 [0; 1; 2; 3; 4]%Z
  /\ Plot.remove_outliers (Plot.remove_outliers Samples.two_outliers Plot.default_m)
       Plot.default_m
     <> Plot.remove_outliers Samples.two_outliers Plot.default_m.
Proof. vm_compute. repeat split. discriminate. Qed.

(** C4, amended. A second application of [remove_outliers] never brings a
    sample back nor reorders samples: its result is a subsequence of the
    result of the first application, which is a subsequence of the input.
    The two coincide exactly when the test of the second application, with
    the mean and the standard deviation of the reduced sequence, keeps every
    sample of the reduced sequence. *)
Theorem remove_outliers_twice_shrinks {F : Type} `{Scalar F} (values : list F) (m : F) :
  let once := Plot.remove_outliers values m in
  let twice := Plot.remove_outliers once m in
  sublist twice once
  /\ sublist once values
  /\ (twice = once <->
      Forall (fun v => f_ltb (f_abs (f_sub v (Np.mean once))) (f_mul m (Np.std once)) = true)
             once).
Proof.
  intros once twice. subst twice.
  rewrite (remove_outliers_filter once). subst once.
  rewrite (remove_outliers_filter values).
  split; [apply filter_sublist|]. split; [apply filter_sublist|].
  apply filter_fixed_iff.
Qed.

(** The sums are numpy's: ten times 0.1 add up to 1.0 exactly, where adding
    them from left to right gives the float below 1.0. The mean of the ten is
    then 0.1 itself and their standard deviation 0, so that a second
    application of [remove_outliers] to ten times 0.1 and one 0.5 removes all
    that the first one left. *)
Lemma sum_of_ten_tenths :
  Np.sum (repeat Samples.tenth 10) = Binary64.of_Z 1
  /\ fold_left f_add (repeat Samples.tenth 10) (Binary64.of_Z 0) <> Binary64.of_Z 1
  /\ Plot.remove_outliers (repeat Samples.tenth 10 ++ [Samples.half]) Plot.default_m
     = repeat Samples.tenth 10
  /\ Plot.remove_outliers (repeat Samples.tenth 10) Plot.default_m = []
  /\ Plot.remove_outliers (repeat Samples.tenth 3) Plot.default_m = repeat Samples.tenth 3.
Proof. vm_compute. repeat split. discriminate. Qed.

(** C8, as the specification states it, fails: on two empty sequences the
    significance test is invoked. When the test itself fails on them, the
    failure of [calculate_diffs] is the test's own exception, raised after
    the test was invoked; when the test answers, [calculate_diffs] returns
    normally: [(None, 0.0)] if the answer is "not significant", and an empty
    distribution with a NaN mean if the answer is "significant". *)
Lemma calculate_diffs_accepts_empty_samples :
  Plot.calculate_diffs Samples.failing_on_empty [] [] true
  = ([Plot.CallIsSignificant [] []], inl StatisticsError)
  /\ Plot.calculate_diffs Samples.never_significant [] [] true
     = ([Plot.CallIsSignificant [] []], inr (None, Binary64.of_Z 0))
  /\ outcome (Plot.calculate_diffs Samples.always_significant [] [] true)
     = inr (Some [], S754_nan).
Proof. vm_compute. repeat split. Qed.

(** C8, amended. [calculate_diffs] has no check of its own on the sample
    sequences: whatever they are, empty ones included, its first action is to
    invoke the significance test on them as given. It fails exactly when the
    significance test raises, with the exception the test raised and with
    no other call made; when the test answers, it returns a result. *)
Theorem calculate_diffs_defers_to_significance_test {F : Type} `{Scalar F}
    (is_significant : list F -> list F -> py_exn + (bool * F))
    (ref_values head_values : list F) (outlier_rejection : bool) :
  let run := Plot.calculate_diffs is_significant ref_values head_values outlier_rejection in
  match is_significant ref_values head_values with
  | inl e => run = ([Plot.CallIsSignificant ref_values head_values], inl e)
  | inr _ =>
      exists later_calls result,
        run = (Plot.CallIsSignificant ref_values head_values :: later_calls, inr result)
  end.
Proof.
  intros run. subst run.
  destruct (is_significant ref_values head_values) as [e|[[|] t_score]] eqn:Hsig.
  - apply calculate_diffs_raises, Hsig.
  - destruct outlier_rejection.
    + rewrite (calculate_diffs_rejecting _ _ _ _ Hsig). simpl. eauto.
    + rewrite (calculate_diffs_keeping _ _ _ _ Hsig). simpl. eauto.
  - rewrite (calculate_diffs_insignificant _ _ _ _ _ Hsig). eauto.
Qed.

(** * The comparison-value cache of [longitudinal_plot] *)

Section CacheFacts.
Context {V W : Type}.
Variable compute : Plot.Result -> Plot.Result -> string -> W -> W * V.

Lemma get_comparison_value_hit ref r base (st : @Plot.env V W) value :
  Plot.data st !! Plot.cache_key ref r base = Some value ->
  Plot.get_comparison_value compute ref r base st = (st, value).
Proof.
  intros Hhit. unfold Plot.get_comparison_value. rewrite Hhit. reflexivity.
Qed.

Lemma get_comparison_value_miss ref r base (st : @Plot.env V W) :
  Plot.data st !! Plot.cache_key ref r base = None ->
  Plot.get_comparison_value compute ref r base st
  = ({| Plot.data := <[Plot.cache_key ref r base := snd (compute ref r base (Plot.world st))]>
                       (Plot.data st);
        Plot.world := fst (compute ref r base (Plot.world st));
        Plot.invocations := Plot.invocations st ++ [(ref, r, base)] |},
     snd (compute ref r base (Plot.world st))).
Proof.
  intros Hmiss. unfold Plot.get_comparison_value. rewrite Hmiss.
  destruct (compute ref r base (Plot.world st)) as [w value]. reflexivity.
Qed.

End CacheFacts.

(** C5. The cache memoises. A lookup whose key is present returns the stored
    value and changes nothing: the collaborator is not invoked. When the key
    is absent, the first of two successive lookups of that key invokes the
    collaborator once and stores what it returned; the second returns that
    stored value without invoking it again, whichever results produced the
    key. *)
Theorem get_comparison_value_memoizes {V W : Type}
    (compute : Plot.Result -> Plot.Result -> string -> W -> W * V)
    (ref r ref' r' : Plot.Result) (base base' : string) (st : @Plot.env V W) :
  Plot.cache_key ref' r' base' = Plot.cache_key ref r base ->
  (forall value,
      Plot.data st !! Plot.cache_key ref r base = Some value ->
      Plot.get_comparison_value compute ref r base st = (st, value))
  /\ (Plot.data st !! Plot.cache_key ref r base = None ->
      let first := Plot.get_comparison_value compute ref r base st in
      let second := Plot.get_comparison_value compute ref' r' base' (fst first) in
      snd first = snd (compute ref r base (Plot.world st))
      /\ Plot.data (fst first) !! Plot.cache_key ref r base = Some (snd first)
      /\ Plot.invocations (fst first) = Plot.invocations st ++ [(ref, r, base)]
      /\ snd second = snd first
      /\ fst second = fst first
      /\ Plot.invocations (fst second) = Plot.invocations st ++ [(ref, r, base)]).
Proof.
  intros Hkey. split.
  - intros value Hhit. apply get_comparison_value_hit, Hhit.
  - intros Hmiss first second. subst second first.
    rewrite (get_comparison_value_miss compute ref r base st Hmiss). cbn [fst snd].
    set (st1 := Plot.Build_env _ _ _).
    assert (Hstored : Plot.data st1 !! Plot.cache_key ref' r' base'
                      = Some (snd (compute ref r base (Plot.world st)))).
    { rewrite Hkey. subst st1. cbn. apply lookup_insert_eq. }
    rewrite (get_comparison_value_hit compute ref' r' base' st1 _ Hstored). cbn [fst snd].
    rewrite <- Hkey, Hstored. subst st1. cbn. repeat split.
Qed.

Lemma get_comparison_value_memoizes_witness :
  let first := Plot.get_comparison_value Samples.counting_compute
                 Samples.ref_3_12 Samples.head_3_13 "3.12.0" Samples.empty_env in
  let second := Plot.get_comparison_value Samples.counting_compute
                  Samples.ref_3_12 Samples.head_3_13 "3.12.0" (fst first) in
  snd second = snd first
  /\ Plot.invocations (fst second) = [(Samples.ref_3_12, Samples.head_3_13, "3.12.0")].
Proof.
  destruct (get_comparison_value_memoizes Samples.counting_compute
              Samples.ref_3_12 Samples.head_3_13 Samples.ref_3_12 Samples.head_3_13
              "3.12.0" "3.12.0" Samples.empty_env eq_refl) as [_ Hmiss].
  destruct (Hmiss eq_refl) as (_ & _ & _ & Hsame & _ & Hcalls).
  split; [exact Hsame | exact Hcalls].
Defined.

(** * Properties of generate_results.py *)

(** ** Dictionaries in insertion order *)

Section DictFacts.
Import GenerateResults.

Lemma dict_get_set_eq k v m : dict_get k (dict_set k v m) = Some v.
Proof.
  unfold dict_get. induction m as [|[k' v'] m IH]; simpl.
  - rewrite bool_decide_eq_true_2; reflexivity.
  - destruct (bool_decide (k' = k)) eqn:Hk; simpl.
    + rewrite bool_decide_eq_true_2; reflexivity.
    + rewrite Hk. exact IH.
Qed.

Lemma dict_set_get_id k v m : dict_get k m = Some v -> dict_set k v m = m.
Proof.
  unfold dict_get. induction m as [|[k' w] m IH]; simpl; [discriminate|].
  destruct (bool_decide (k' = k)) eqn:Hk; simpl.
  - apply bool_decide_eq_true_1 in Hk. intros [= ->]. subst. reflexivity.
  - intros Hget. rewrite IH; [reflexivity | exact Hget].
Qed.

Lemma dict_get_app_new k v m : dict_get k m = None -> dict_get k (m ++ [(k, v)]) = Some v.
Proof.
  unfold dict_get. induction m as [|[k' w] m IH]; simpl.
  - rewrite bool_decide_eq_true_2; reflexivity.
  - destruct (bool_decide (k' = k)); simpl; [discriminate | exact IH].
Qed.

Lemma dict_setdefault_get k dflt m m1 v :
  dict_setdefault k dflt m = (m1, v) -> dict_get k m1 = Some v.
Proof.
  unfold dict_setdefault. destruct (dict_get k m) as [w|] eqn:Hget; intros [= <- <-].
  - exact Hget.
  - apply dict_get_app_new, Hget.
Qed.

Lemma dict_setdefault_present k dflt m v :
  dict_get k m = Some v -> dict_setdefault k dflt m = (m, v).
Proof. unfold dict_setdefault. intros ->. reflexivity. Qed.

Lemma dict_get_Forall (P : node -> Prop) k m v :
  Forall (fun kv => P (snd kv)) m -> dict_get k m = Some v -> P v.
Proof.
  unfold dict_get. induction m as [|[k' w] m IH]; simpl; [discriminate|].
  intros Hall. inversion Hall as [|? ? Hw Hm]; subst.
  destruct (bool_decide (k' = k)); simpl.
  - intros [= <-]. exact Hw.
  - apply IH, Hm.
Qed.

Lemma dict_set_Forall (P : node -> Prop) k v m :
  Forall (fun kv => P (snd kv)) m -> P v -> Forall (fun kv => P (snd kv)) (dict_set k v m).
Proof.
  intros Hall Hv. induction Hall as [|[k' w] m Hw Hm IH]; simpl.
  - constructor; [exact Hv | constructor].
  - destruct (bool_decide (k' = k)); constructor; assumption.
Qed.

Lemma dict_setdefault_Forall (P : node -> Prop) k dflt m m1 v :
  Forall (fun kv => P (snd kv)) m -> P dflt ->
  dict_setdefault k dflt m = (m1, v) ->
  Forall (fun kv => P (snd kv)) m1 /\ P v.
Proof.
  intros Hall Hd. unfold dict_setdefault.
  destruct (dict_get k m) as [w|] eqn:Hget; intros [= <- <-].
  - split; [exact Hall | exact (dict_get_Forall P k m w Hall Hget)].
  - split; [|exact Hd]. apply Forall_app. split; [exact Hall|].
    constructor; [exact Hd | constructor].
Qed.

(** How [recurse] unfolds on a dictionary. *)
Lemma recurse_pair k text m :
  recurse [k; text] (PyDict m)
  = let '(m, leaf) := dict_setdefault k (PyList []) m in
    match leaf with
    | PyList items =>
        if bool_decide (text ∈ items) then inr (PyDict m)
        else inr (PyDict (dict_set k (PyList (items ++ [text])) m))
    | PyDict sub =>
        if bool_decide (text ∈ map fst sub) then inr (PyDict m) else inl AttributeError
    end.
Proof. reflexivity. Qed.

Lemma recurse_deeper k a b rest m :
  recurse (k :: a :: b :: rest) (PyDict m)
  = let '(m, child) := dict_setdefault k (PyDict []) m in
    child ← recurse (a :: b :: rest) child;
    inr (PyDict (dict_set k child m)).
Proof. reflexivity. Qed.

End DictFacts.

(** ** The fold into nested dictionaries *)

Section NestedDictFacts.
Import GenerateResults.

(** On a dictionary of the right depth a tuple of arity [n + 2] is folded
    without an exception, and the depth is kept. *)
Lemma recurse_has_depth n : forall entry d,
  length entry = S (S n) -> has_depth (S n) d ->
  exists d', recurse entry d = inr d' /\ has_depth (S n) d'.
Proof.
  induction n as [|n IH]; intros entry d Hlen Hd.
  - destruct entry as [|k [|text [|? ?]]]; try discriminate.
    destruct d as [items|m]; [discriminate Hd|]. simpl in Hd.
    rewrite recurse_pair.
    destruct (dict_setdefault k (PyList []) m) as [m1 leaf] eqn:Hsd.
    destruct (dict_setdefault_Forall (has_depth 0) k (PyList []) m m1 leaf Hd eq_refl Hsd)
      as [Hm1 Hleaf].
    destruct leaf as [items|sub]; [|destruct Hleaf].
    destruct (bool_decide (text ∈ items)).
    + eexists. split; [reflexivity | exact Hm1].
    + eexists. split; [reflexivity|]. simpl.
      apply (dict_set_Forall (has_depth 0)); [exact Hm1 | reflexivity].
  - destruct entry as [|k [|a [|b rest]]]; try discriminate.
    destruct d as [items|m]; [discriminate Hd|].
    change (Forall (fun kv => has_depth (S n) (snd kv)) m) in Hd.
    rewrite recurse_deeper.
    destruct (dict_setdefault k (PyDict []) m) as [m1 child] eqn:Hsd.
    assert (Hempty : has_depth (S n) (PyDict [])) by constructor.
    destruct (dict_setdefault_Forall (has_depth (S n)) k (PyDict []) m m1 child Hd Hempty Hsd)
      as [Hm1 Hchild].
    assert (Hlen' : length (a :: b :: rest) = S (S n)) by (simpl in *; lia).
    destruct (IH (a :: b :: rest) child Hlen' Hchild) as (child' & Hrec & Hchild').
    rewrite Hrec. eexists. split; [reflexivity|].
    change (Forall (fun kv => has_depth (S n) (snd kv)) (dict_set k child' m1)).
    apply (dict_set_Forall (has_depth (S n))); assumption.
Qed.

Lemma for_each_has_depth n : forall entries d,
  Forall (fun entry => length entry = S (S n)) entries -> has_depth (S n) d ->
  exists d', for_each entries d = inr d' /\ has_depth (S n) d'.
Proof.
  induction entries as [|entry entries IH]; intros d Hall Hd; simpl.
  - eauto.
  - inversion Hall as [|? ? Hentry Hrest]; subst.
    destruct (recurse_has_depth n entry d Hentry Hd) as (d1 & Hrec & Hd1).
    rewrite Hrec. simpl. apply IH; assumption.
Qed.

(** The assertion on the arities. *)
Lemma arities_differ (entries : list (list pyval)) e1 e2 :
  e1 ∈ entries -> e2 ∈ entries -> length e1 <> length e2 ->
  size (list_to_set (length <$> entries) : gset nat) <> 1.
Proof.
  intros H1 H2 Hne Hsize.
  apply size_1_elem_of in Hsize as [x Hx].
  assert (Hin : forall e, e ∈ entries -> length e = x).
  { intros e He.
    assert (length e ∈ (list_to_set (length <$> entries) : gset nat)) as Hl.
    { apply elem_of_list_to_set, list_elem_of_fmap. eauto. }
    rewrite Hx in Hl. apply elem_of_singleton in Hl. exact Hl. }
  rewrite (Hin e1 H1), (Hin e2 H2) in Hne. congruence.
Qed.

Lemma arities_agree (entries : list (list pyval)) n :
  entries <> [] -> Forall (fun entry => length entry = n) entries ->
  size (list_to_set (length <$> entries) : gset nat) = 1.
Proof.
  intros Hne Hall.
  assert (Heq : (list_to_set (length <$> entries) : gset nat) = {[n]}).
  { apply set_eq. intros x. rewrite elem_of_list_to_set, list_elem_of_fmap, elem_of_singleton.
    split.
    - intros (e & -> & He). rewrite Forall_forall in Hall. apply Hall, He.
    - intros ->. destruct entries as [|e entries]; [congruence|].
      exists e. inversion Hall; subst. split; [reflexivity | constructor]. }
  rewrite Heq. apply size_singleton.
Qed.

End NestedDictFacts.

(** C6, as the specification states it, fails in its second half: the tuples
    of the empty list all share one arity, and so do two tuples of arity 1,
    yet the first fails the assertion and the second raises [IndexError]. *)
Lemma tuple_to_nested_dicts_uniform_but_raises :
  (Forall (fun entry : list GenerateResults.pyval => length entry = 0) []
   /\ GenerateResults._tuple_to_nested_dicts [] None = inl AssertionError)
  /\ (Forall (fun entry => length entry = 1)
        [[GenerateResults.PyStr "a"]; [GenerateResults.PyStr "b"]]
      /\ GenerateResults._tuple_to_nested_dicts
           [[GenerateResults.PyStr "a"]; [GenerateResults.PyStr "b"]] None
         = inl IndexError).
Proof.
  split; (split; [repeat constructor | vm_compute; reflexivity]).
Qed.

(** C6, amended. An entry list that holds two tuples of differing arity
    fails the assertion, whatever dictionary is passed, before anything is
    built. A non-empty entry list whose tuples all have the same arity, at
    least 2 (one key and the text), is folded into a fresh dictionary
    without an exception; every list of the result then lies [arity - 1]
    dictionaries deep. *)
Theorem tuple_to_nested_dicts_arity :
  (forall (entries : list (list GenerateResults.pyval)) d e1 e2,
      e1 ∈ entries -> e2 ∈ entries -> length e1 <> length e2 ->
      GenerateResults._tuple_to_nested_dicts entries d = inl AssertionError)
  /\ (forall (entries : list (list GenerateResults.pyval)) arity,
      entries <> [] -> 2 <= arity ->
      Forall (fun entry => length entry = arity) entries ->
      exists d', GenerateResults._tuple_to_nested_dicts entries None = inr d'
                 /\ GenerateResults.has_depth (arity - 1) d').
Proof.
  split.
  - intros entries d e1 e2 H1 H2 Hne. unfold GenerateResults._tuple_to_nested_dicts.
    rewrite bool_decide_eq_false_2; [reflexivity|].
    exact (arities_differ entries e1 e2 H1 H2 Hne).
  - intros entries arity Hnonempty Harity Hall.
    unfold GenerateResults._tuple_to_nested_dicts.
    rewrite bool_decide_eq_true_2 by exact (arities_agree entries arity Hnonempty Hall).
    destruct arity as [|[|n]]; [lia | lia |].
    replace (S (S n) - 1) with (S n) by lia.
    apply for_each_has_depth; [exact Hall | constructor].
Qed.

Lemma tuple_to_nested_dicts_arity_witness :
  GenerateResults._tuple_to_nested_dicts
    [[GenerateResults.PyPath "d"; GenerateResults.PyStr "x"];
     [GenerateResults.PyPath "d"; GenerateResults.PyNone; GenerateResults.PyStr "x"]] None
  = inl AssertionError
  /\ exists d',
       GenerateResults._tuple_to_nested_dicts
         [[GenerateResults.PyPath "d"; GenerateResults.PyNone; GenerateResults.PyNone;
           GenerateResults.PyStr "fork: python"];
          [GenerateResults.PyPath "d"; GenerateResults.PyStr "linux"; GenerateResults.PyNone;
           GenerateResults.PyStr "platform: x86_64"]] None
       = inr d'
       /\ GenerateResults.has_depth (4 - 1) d'.
Proof.
  destruct tuple_to_nested_dicts_arity as [Hraise Hbuild]. split.
  - apply (Hraise _ None
             [GenerateResults.PyPath "d"; GenerateResults.PyStr "x"]
             [GenerateResults.PyPath "d"; GenerateResults.PyNone; GenerateResults.PyStr "x"]).
    + constructor.
    + constructor. constructor.
    + simpl. lia.
  - apply Hbuild.
    + discriminate.
    + lia.
    + repeat constructor.
Defined.

(** ** Folding a tuple that is already there *)

Section Refolding.
Import GenerateResults.

Lemma recurse_single k m d' : recurse [k] (PyDict m) <> inr d'.
Proof.
  cbn. destruct (dict_setdefault k (PyDict []) m) as [m1 child].
  destruct child; discriminate.
Qed.

Lemma folded_pair k text m :
  folded [k; text] (PyDict m)
  = match dict_get k m with
    | Some (PyList items) => text ∈ items
    | Some (PyDict sub) => text ∈ map fst sub
    | None => False
    end.
Proof. reflexivity. Qed.

Lemma folded_deeper k a b rest m :
  folded (k :: a :: b :: rest) (PyDict m)
  = match dict_get k m with
    | Some child => folded (a :: b :: rest) child
    | None => False
    end.
Proof. reflexivity. Qed.

Lemma folded_single k m : ~ folded [k] (PyDict m).
Proof. cbn. destruct (dict_get k m) as [[?|?]|]; intros []. Qed.

(** Folding a tuple that is already there changes nothing. *)
Lemma recurse_folded : forall entry d, folded entry d -> recurse entry d = inr d.
Proof.
  induction entry as [|k rest IH]; intros d Hf; destruct d as [items|m];
    try (destruct Hf; fail).
  destruct rest as [|a [|b rest]].
  - destruct (folded_single k m Hf).
  - rewrite folded_pair in Hf. rewrite recurse_pair.
    destruct (dict_get k m) as [[items|sub]|] eqn:Hget; [| |destruct Hf].
    + rewrite (dict_setdefault_present k _ m _ Hget).
      rewrite bool_decide_eq_true_2 by exact Hf. reflexivity.
    + rewrite (dict_setdefault_present k _ m _ Hget).
      rewrite bool_decide_eq_true_2 by exact Hf. reflexivity.
  - rewrite folded_deeper in Hf. rewrite recurse_deeper.
    destruct (dict_get k m) as [child|] eqn:Hget; [|destruct Hf].
    rewrite (dict_setdefault_present k _ m _ Hget).
    rewrite (IH child Hf). cbn.
    rewrite (dict_set_get_id k child m Hget). reflexivity.
Qed.

(** Once folded, a tuple is there. *)
Lemma folded_recurse : forall entry d d', recurse entry d = inr d' -> folded entry d'.
Proof.
  induction entry as [|k rest IH]; intros d d' Hrec; destruct d as [items|m];
    try discriminate.
  destruct rest as [|a [|b rest]].
  - destruct (recurse_single k m d' Hrec).
  - rewrite recurse_pair in Hrec.
    destruct (dict_setdefault k (PyList []) m) as [m1 leaf] eqn:Hsd.
    pose proof (dict_setdefault_get _ _ _ _ _ Hsd) as Hget.
    destruct leaf as [items|sub].
    + destruct (decide (a ∈ items)) as [Hin|Hin].
      * rewrite bool_decide_eq_true_2 in Hrec by exact Hin.
        injection Hrec as <-. rewrite folded_pair, Hget. exact Hin.
      * rewrite bool_decide_eq_false_2 in Hrec by exact Hin.
        injection Hrec as <-. rewrite folded_pair, dict_get_set_eq.
        apply elem_of_app. right. constructor.
    + destruct (decide (a ∈ map fst sub)) as [Hin|Hin].
      * rewrite bool_decide_eq_true_2 in Hrec by exact Hin.
        injection Hrec as <-. rewrite folded_pair, Hget. exact Hin.
      * rewrite bool_decide_eq_false_2 in Hrec by exact Hin. discriminate.
  - rewrite recurse_deeper in Hrec.
    destruct (dict_setdefault k (PyDict []) m) as [m1 child] eqn:Hsd.
    destruct (recurse (a :: b :: rest) child) as [e|child'] eqn:Hsub; [discriminate|].
    cbn in Hrec. injection Hrec as <-.
    rewrite folded_deeper, dict_get_set_eq. exact (IH child child' Hsub).
Qed.

Lemma dict_get_set_ne k k' v m : k <> k' -> dict_get k (dict_set k' v m) = dict_get k m.
Proof.
  intros Hne. unfold dict_get. induction m as [|[k0 w] m IH]; simpl.
  - rewrite bool_decide_eq_false_2 by congruence. reflexivity.
  - destruct (decide (k0 = k')) as [->|Hk0].
    + rewrite bool_decide_eq_true_2 by reflexivity. simpl.
      rewrite bool_decide_eq_false_2 by congruence. reflexivity.
    + rewrite (bool_decide_eq_false_2 (k0 = k')) by exact Hk0. simpl.
      destruct (bool_decide (k0 = k)); [reflexivity | exact IH].
Qed.

Lemma dict_get_app_ne k k' v m : k <> k' -> dict_get k (m ++ [(k', v)]) = dict_get k m.
Proof.
  intros Hne. unfold dict_get. induction m as [|[k0 w] m IH]; simpl.
  - rewrite bool_decide_eq_false_2 by congruence. reflexivity.
  - destruct (bool_decide (k0 = k)); [reflexivity | exact IH].
Qed.

Lemma keys_dict_set k v m x : x ∈ map fst m -> x ∈ map fst (dict_set k v m).
Proof.
  induction m as [|[k0 w] m IH]; simpl; intros Hx.
  - inversion Hx.
  - destruct (decide (k0 = k)) as [->|Hk0].
    + rewrite bool_decide_eq_true_2 by reflexivity. exact Hx.
    + rewrite bool_decide_eq_false_2 by exact Hk0. simpl.
      apply elem_of_cons in Hx as [->|Hx]; [left | right; apply IH, Hx].
Qed.

Lemma dict_setdefault_frame k' dflt m m1 v :
  dict_setdefault k' dflt m = (m1, v) ->
  (forall k, k <> k' -> dict_get k m1 = dict_get k m)
  /\ (forall x, x ∈ map fst m -> x ∈ map fst m1).
Proof.
  unfold dict_setdefault. destruct (dict_get k' m) as [w|]; intros [= <- <-].
  - split; intros; [reflexivity | assumption].
  - split.
    + intros k Hne. apply dict_get_app_ne, Hne.
    + intros x Hx. rewrite map_app. apply elem_of_app. left. exact Hx.
Qed.

(** What folding a tuple does to the dictionary it is folded into: the
    values under the other keys stay, and no key is lost. *)
Lemma recurse_frame k' rest' m d' :
  recurse (k' :: rest') (PyDict m) = inr d' ->
  exists m', d' = PyDict m'
             /\ (forall k, k <> k' -> dict_get k m' = dict_get k m)
             /\ (forall x, x ∈ map fst m -> x ∈ map fst m').
Proof.
  intros Hrec. destruct rest' as [|a [|b rest]].
  - destruct (recurse_single k' m d' Hrec).
  - rewrite recurse_pair in Hrec.
    destruct (dict_setdefault k' (PyList []) m) as [m1 leaf] eqn:Hsd.
    destruct (dict_setdefault_frame _ _ _ _ _ Hsd) as [Hget Hkeys].
    destruct leaf as [items|sub].
    + destruct (bool_decide (a ∈ items)); injection Hrec as <-; eexists;
        (split; [reflexivity|]); split; try assumption.
      * intros k Hne. rewrite dict_get_set_ne by exact Hne. apply Hget, Hne.
      * intros x Hx. apply keys_dict_set, Hkeys, Hx.
    + destruct (bool_decide (a ∈ map fst sub)); [|discriminate].
      injection Hrec as <-. eexists. split; [reflexivity|]. split; assumption.
  - rewrite recurse_deeper in Hrec.
    destruct (dict_setdefault k' (PyDict []) m) as [m1 child] eqn:Hsd.
    destruct (dict_setdefault_frame _ _ _ _ _ Hsd) as [Hget Hkeys].
    destruct (recurse (a :: b :: rest) child) as [e|child']; [discriminate|].
    cbn in Hrec. injection Hrec as <-. eexists. split; [reflexivity|]. split.
    + intros k Hne. rewrite dict_get_set_ne by exact Hne. apply Hget, Hne.
    + intros x Hx. apply keys_dict_set, Hkeys, Hx.
Qed.

Lemma folded_get_ext k rest m m' :
  dict_get k m' = dict_get k m ->
  folded (k :: rest) (PyDict m) -> folded (k :: rest) (PyDict m').
Proof.
  intros Hget. destruct rest as [|a [|b rest]]; cbn; rewrite Hget; exact id.
Qed.

(** A tuple that is there stays there when another tuple is folded. *)
Lemma folded_preserved : forall entry other d d',
  folded entry d -> recurse other d = inr d' -> folded entry d'.
Proof.
  induction entry as [|k rest IH]; intros other d d' Hf Hrec;
    destruct d as [items|m]; try (destruct Hf; fail).
  destruct other as [|k' rest']; [discriminate|].
  destruct (decide (k = k')) as [<-|Hne].
  2:{ destruct (recurse_frame _ _ _ _ Hrec) as (m' & -> & Hget & _).
      apply (folded_get_ext k rest m m'); [apply Hget, Hne | exact Hf]. }
  destruct rest' as [|a' [|b' rest']].
  - destruct (recurse_single k m d' Hrec).
  - (* the other tuple ends here *)
    rewrite recurse_pair in Hrec.
    destruct rest as [|a [|b rest]].
    + destruct (folded_single k m Hf).
    + rewrite folded_pair in Hf.
      destruct (dict_get k m) as [[items|sub]|] eqn:Hget; [| |destruct Hf];
        rewrite (dict_setdefault_present k _ m _ Hget) in Hrec.
      * destruct (bool_decide (a' ∈ items)); injection Hrec as <-.
        -- rewrite folded_pair, Hget. exact Hf.
        -- rewrite folded_pair, dict_get_set_eq. apply elem_of_app. left. exact Hf.
      * destruct (bool_decide (a' ∈ map fst sub)); [|discriminate].
        injection Hrec as <-. rewrite folded_pair, Hget. exact Hf.
    + rewrite folded_deeper in Hf.
      destruct (dict_get k m) as [child|] eqn:Hget; [|destruct Hf].
      rewrite (dict_setdefault_present k _ m _ Hget) in Hrec.
      destruct child as [items|sub]; [destruct Hf|].
      destruct (bool_decide (a' ∈ map fst sub)); [|discriminate].
      injection Hrec as <-. rewrite folded_deeper, Hget. exact Hf.
  - (* the other tuple goes deeper *)
    rewrite recurse_deeper in Hrec.
    destruct rest as [|a [|b rest]].
    + destruct (folded_single k m Hf).
    + rewrite folded_pair in Hf.
      destruct (dict_get k m) as [[items|sub]|] eqn:Hget; [| |destruct Hf];
        rewrite (dict_setdefault_present k _ m _ Hget) in Hrec.
      * discriminate.
      * destruct (recurse (a' :: b' :: rest') (PyDict sub)) as [e|child'] eqn:Hsub;
          [discriminate|].
        cbn in Hrec. injection Hrec as <-.
        destruct (recurse_frame _ _ _ _ Hsub) as (sub' & -> & _ & Hkeys).
        rewrite folded_pair, dict_get_set_eq. apply Hkeys, Hf.
    + rewrite folded_deeper in Hf.
      destruct (dict_get k m) as [child|] eqn:Hget; [|destruct Hf].
      rewrite (dict_setdefault_present k _ m _ Hget) in Hrec.
      destruct (recurse (a' :: b' :: rest') child) as [e|child'] eqn:Hsub;
        [discriminate|].
      cbn in Hrec. injection Hrec as <-.
      rewrite folded_deeper, dict_get_set_eq.
      exact (IH (a' :: b' :: rest') child child' Hf Hsub).
Qed.

Lemma for_each_preserves_folded entry : forall entries d d',
  folded entry d -> for_each entries d = inr d' -> folded entry d'.
Proof.
  induction entries as [|other entries IH]; intros d d' Hf Hfold; simpl in Hfold.
  - injection Hfold as <-. exact Hf.
  - destruct (recurse other d) as [e|d1] eqn:Hrec; [discriminate|].
    cbn in Hfold. apply (IH d1 d'); [|exact Hfold].
    exact (folded_preserved entry other d d1 Hf Hrec).
Qed.

Lemma for_each_folded : forall entries d d' entry,
  for_each entries d = inr d' -> entry ∈ entries -> folded entry d'.
Proof.
  induction entries as [|first entries IH]; intros d d' entry Hfold Hin.
  - inversion Hin.
  - simpl in Hfold. destruct (recurse first d) as [e|d1] eqn:Hrec; [discriminate|].
    cbn in Hfold. apply elem_of_cons in Hin as [->|Hin].
    + apply (for_each_preserves_folded first entries d1 d'); [|exact Hfold].
      exact (folded_recurse first d d1 Hrec).
    + exact (IH d1 d' entry Hfold Hin).
Qed.

Lemma for_each_app entries entry d :
  for_each (entries ++ [entry]) d = (d1 ← for_each entries d; recurse entry d1).
Proof.
  revert d. induction entries as [|first entries IH]; intros d; simpl.
  - destruct (recurse entry d); reflexivity.
  - destruct (recurse first d) as [e|d1]; [reflexivity|]. cbn. apply IH.
Qed.

(** No list of the result holds a value twice. *)
Lemma recurse_leaves_distinct : forall entry d d',
  leaves_distinct d -> recurse entry d = inr d' -> leaves_distinct d'.
Proof.
  induction entry as [|k rest IH]; intros d d' Hd Hrec; destruct d as [items|m];
    try discriminate.
  inversion Hd as [|? Hm]; subst.
  destruct rest as [|a [|b rest]].
  - destruct (recurse_single k m d' Hrec).
  - rewrite recurse_pair in Hrec.
    destruct (dict_setdefault k (PyList []) m) as [m1 leaf] eqn:Hsd.
    destruct (dict_setdefault_Forall leaves_distinct k _ m m1 leaf Hm
                (distinct_list [] (NoDup_nil_2)) Hsd) as [Hm1 Hleaf].
    destruct leaf as [items|sub].
    + destruct (decide (a ∈ items)) as [Hin|Hin].
      * rewrite bool_decide_eq_true_2 in Hrec by exact Hin.
        injection Hrec as <-. constructor. exact Hm1.
      * rewrite bool_decide_eq_false_2 in Hrec by exact Hin.
        injection Hrec as <-. constructor.
        apply (dict_set_Forall leaves_distinct); [exact Hm1|].
        constructor. inversion Hleaf; subst.
        apply NoDup_app. split; [assumption|]. split.
        -- intros x Hx Hx'. apply list_elem_of_singleton in Hx'. subst. contradiction.
        -- apply NoDup_singleton.
    + destruct (bool_decide (a ∈ map fst sub)); [|discriminate].
      injection Hrec as <-. constructor. exact Hm1.
  - rewrite recurse_deeper in Hrec.
    destruct (dict_setdefault k (PyDict []) m) as [m1 child] eqn:Hsd.
    destruct (dict_setdefault_Forall leaves_distinct k _ m m1 child Hm
                (distinct_dict [] (Forall_nil_2 _)) Hsd) as [Hm1 Hchild].
    destruct (recurse (a :: b :: rest) child) as [e|child'] eqn:Hsub; [discriminate|].
    cbn in Hrec. injection Hrec as <-. constructor.
    apply (dict_set_Forall leaves_distinct); [exact Hm1|].
    exact (IH child child' Hchild Hsub).
Qed.

Lemma for_each_leaves_distinct : forall entries d d',
  leaves_distinct d -> for_each entries d = inr d' -> leaves_distinct d'.
Proof.
  induction entries as [|entry entries IH]; intros d d' Hd Hfold; simpl in Hfold.
  - injection Hfold as <-. exact Hd.
  - destruct (recurse entry d) as [e|d1] eqn:Hrec; [discriminate|].
    cbn in Hfold. apply (IH d1 d'); [|exact Hfold].
    exact (recurse_leaves_distinct entry d d1 Hd Hrec).
Qed.

End Refolding.

Lemma arities_with_repeat (entries : list (list GenerateResults.pyval)) entry :
  entry ∈ entries ->
  (list_to_set (length <$> (entries ++ [entry])) : gset nat)
  = list_to_set (length <$> entries).
Proof.
  intros Hin. apply set_eq. intros x.
  rewrite !elem_of_list_to_set, fmap_app, elem_of_app. split.
  - intros [Hx|Hx]; [exact Hx|].
    apply list_elem_of_singleton in Hx. subst.
    apply list_elem_of_fmap. eauto.
  - intros Hx. left. exact Hx.
Qed.

(** C7. Leaf insertion is idempotent. Folding a tuple into what folding that
    same tuple produced changes nothing; more generally, folding an entry
    list followed by a tuple already in the list gives the same structure as
    folding the list. Hence no list of the structure built from a fresh
    dictionary holds a text twice, and folding
    [("a", None, None, "x")] twice gives the single leaf [["x"]]. *)
Theorem tuple_to_nested_dicts_refold :
  (forall entry d d',
      GenerateResults.recurse entry d = inr d' ->
      GenerateResults.recurse entry d' = inr d')
  /\ (forall entries d d' entry,
      GenerateResults._tuple_to_nested_dicts entries d = inr d' ->
      entry ∈ entries ->
      GenerateResults._tuple_to_nested_dicts (entries ++ [entry]) d = inr d')
  /\ (forall entries d',
      GenerateResults._tuple_to_nested_dicts entries None = inr d' ->
      GenerateResults.leaves_distinct d')
  /\ GenerateResults._tuple_to_nested_dicts
       [[GenerateResults.PyStr "a"; GenerateResults.PyNone; GenerateResults.PyNone;
         GenerateResults.PyStr "x"];
        [GenerateResults.PyStr "a"; GenerateResults.PyNone; GenerateResults.PyNone;
         GenerateResults.PyStr "x"]] None
     = inr (GenerateResults.PyDict
              [(GenerateResults.PyStr "a",
                GenerateResults.PyDict
                  [(GenerateResults.PyNone,
                    GenerateResults.PyDict
                      [(GenerateResults.PyNone,
                        GenerateResults.PyList [GenerateResults.PyStr "x"])])])]).
Proof.
  split; [|split; [|split]].
  - intros entry d d' Hrec. apply recurse_folded. exact (folded_recurse entry d d' Hrec).
  - intros entries d d' entry Hfold Hin.
    unfold GenerateResults._tuple_to_nested_dicts in *.
    rewrite (arities_with_repeat entries entry Hin).
    destruct (bool_decide (size (list_to_set (length <$> entries) : gset nat) = 1));
      [|discriminate].
    rewrite for_each_app, Hfold. cbn.
    apply recurse_folded. exact (for_each_folded entries _ d' entry Hfold Hin).
  - intros entries d' Hfold. unfold GenerateResults._tuple_to_nested_dicts in Hfold.
    destruct (bool_decide (size (list_to_set (length <$> entries) : gset nat) = 1));
      [|discriminate].
    apply (for_each_leaves_distinct entries (GenerateResults.PyDict []) d'); [|exact Hfold].
    constructor. constructor.
  - vm_compute. reflexivity.
Qed.

Lemma tuple_to_nested_dicts_refold_witness :
  GenerateResults._tuple_to_nested_dicts
    ([[GenerateResults.PyStr "a"; GenerateResults.PyNone; GenerateResults.PyNone;
       GenerateResults.PyStr "x"];
      [GenerateResults.PyStr "a"; GenerateResults.PyNone; GenerateResults.PyNone;
       GenerateResults.PyStr "y"]]
     ++ [[GenerateResults.PyStr "a"; GenerateResults.PyNone; GenerateResults.PyNone;
          GenerateResults.PyStr "x"]]) None
  = inr (GenerateResults.PyDict
           [(GenerateResults.PyStr "a",
             GenerateResults.PyDict
               [(GenerateResults.PyNone,
                 GenerateResults.PyDict
                   [(GenerateResults.PyNone,
                     GenerateResults.PyList
                       [GenerateResults.PyStr "x"; GenerateResults.PyStr "y"])])])])
  /\ GenerateResults.leaves_distinct
       (GenerateResults.PyDict
          [(GenerateResults.PyStr "a",
            GenerateResults.PyDict
              [(GenerateResults.PyNone,
                GenerateResults.PyDict
                  [(GenerateResults.PyNone,
                    GenerateResults.PyList
                      [GenerateResults.PyStr "x"; GenerateResults.PyStr "y"])])])]).
Proof.
  destruct tuple_to_nested_dicts_refold as (_ & Hrefold & Hdistinct & _).
  split.
  - apply Hrefold.
    + vm_compute. reflexivity.
    + constructor.
  - apply (Hdistinct
             [[GenerateResults.PyStr "a"; GenerateResults.PyNone; GenerateResults.PyNone;
               GenerateResults.PyStr "x"];
              [GenerateResults.PyStr "a"; GenerateResults.PyNone; GenerateResults.PyNone;
               GenerateResults.PyStr "y"]]).
    vm_compute. reflexivity.
Defined.

(** ** Removing outdated comparison files *)

Section ListFilterFacts.
Context {A : Type}.

Lemma filter_ext_elem (P Q : A -> Prop) `{!forall x, Decision (P x), !forall x, Decision (Q x)}
    (l : list A) :
  (forall x, x ∈ l -> (P x <-> Q x)) -> filter P l = filter Q l.
Proof.
  induction l as [|a l IH]; intros Hext; [reflexivity|].
  assert (Hrest : filter P l = filter Q l).
  { apply IH. intros x Hx. apply Hext. right. exact Hx. }
  destruct (decide (P a)) as [Ha|Ha].
  - rewrite (filter_cons_True P a l Ha).
    rewrite (filter_cons_True Q a l); [|apply Hext; [left|exact Ha]].
    rewrite Hrest. reflexivity.
  - rewrite (filter_cons_False P a l Ha).
    rewrite (filter_cons_False Q a l); [exact Hrest|].
    intros Hq. apply Ha. apply Hext; [left|exact Hq].
Qed.

Lemma filter_all (P : A -> Prop) `{!forall x, Decision (P x)} (l : list A) :
  (forall x, x ∈ l -> P x) -> filter P l = l.
Proof.
  induction l as [|a l IH]; intros Hall; [reflexivity|].
  rewrite filter_cons_True by (apply Hall; left).
  rewrite IH; [reflexivity|]. intros x Hx. apply Hall. right. exact Hx.
Qed.

End ListFilterFacts.

Section Pruning.
Import GenerateResults.
Variable result : GenerateResults.Result.
Variable fs : file_system.
Variable names : list string.

Local Abbreviation dir := (parent (GenerateResults.filename result)).

Hypothesis Hdir : fs !! dir = Some names.
Hypothesis Hnodup : NoDup names.
(** A result file of the directory is not itself named like a comparison
    file. *)
Hypothesis Hprimary : forall n root base,
  n ∈ names -> re_match_vs (stem (dir, n)) = Some (root, base) ->
  (root +:+ ".json") ∈ names ->
  re_match_vs (stem (dir, root +:+ ".json")) = None.

(** What the condition says, with the directory as it is listed. *)
Lemma outdated_true_iff n :
  outdated result fs (dir, n) = true <->
  exists root base,
    re_match_vs (stem (dir, n)) = Some (root, base)
    /\ ((root = stem (GenerateResults.filename result)
         /\ base ∉ map fst (bases result))
        \/ (root +:+ ".json") ∉ names).
Proof.
  unfold outdated, exists_. cbn [parent name fst snd]. rewrite Hdir.
  destruct (re_match_vs (stem (dir, n))) as [[root base]|]; split.
  - intros Hout. exists root, base. split; [reflexivity|].
    apply orb_true_iff in Hout as [Hout|Hout].
    + left. apply andb_true_iff in Hout as [Hroot Hbase].
      apply bool_decide_eq_true_1 in Hroot. apply negb_true_iff in Hbase.
      apply bool_decide_eq_false_1 in Hbase. split; assumption.
    + right. apply negb_true_iff in Hout. apply bool_decide_eq_false_1 in Hout. exact Hout.
  - intros (root' & base' & [= <- <-] & [[Hroot Hbase]|Hjson]); apply orb_true_iff.
    + left. apply andb_true_iff. split; [apply bool_decide_eq_true_2, Hroot|].
      apply negb_true_iff, bool_decide_eq_false_2, Hbase.
    + right. apply negb_true_iff, bool_decide_eq_false_2, Hjson.
  - discriminate.
  - intros (root & base & [=] & _).
Qed.

(** While the loop runs, the condition reads the same as at its start. *)
Lemma outdated_stable cur n :
  n ∈ names ->
  (forall x, x ∈ cur -> x ∈ names) ->
  (forall x, re_match_vs (stem (dir, x)) = None -> x ∈ names -> x ∈ cur) ->
  outdated result (<[dir := cur]> fs) (dir, n) = outdated result fs (dir, n).
Proof.
  intros Hn Hsub Hkept. unfold outdated, exists_. cbn [parent name fst snd].
  rewrite lookup_insert_eq, Hdir.
  destruct (re_match_vs (stem (dir, n))) as [[root base]|] eqn:Hmatch; [|reflexivity].
  f_equal. f_equal. apply bool_decide_ext. split.
  - apply Hsub.
  - intros Hjson. apply Hkept; [|exact Hjson].
    exact (Hprimary n root base Hn Hmatch Hjson).
Qed.

Lemma remove_outdated_loop_spec : forall todo cur,
  NoDup todo ->
  (forall x, x ∈ todo -> x ∈ cur) ->
  (forall x, x ∈ cur -> x ∈ names) ->
  (forall x, re_match_vs (stem (dir, x)) = None -> x ∈ names -> x ∈ cur) ->
  remove_outdated_loop result (map (fun n => (dir, n)) todo) (<[dir := cur]> fs)
  = inr (<[dir := filter (fun x => x ∉ todo \/ outdated result fs (dir, x) = false) cur]> fs).
Proof.
  induction todo as [|n todo IH]; intros cur Hnd Htodo Hsub Hkept; simpl.
  - rewrite filter_all; [reflexivity|]. intros x _. left. apply not_elem_of_nil.
  - apply NoDup_cons in Hnd as [Hn Hnd].
    assert (Hcur : n ∈ cur) by (apply Htodo; left).
    rewrite (outdated_stable cur n (Hsub n Hcur) Hsub Hkept).
    destruct (outdated result fs (dir, n)) eqn:Hout.
    + unfold unlink. cbn [parent name fst snd]. rewrite lookup_insert_eq.
      rewrite bool_decide_eq_true_2 by exact Hcur. cbn.
      rewrite insert_insert_eq. rewrite IH.
      * rewrite list_filter_filter. f_equal. f_equal. apply filter_ext_elem.
        intros x Hx. split.
        -- intros [[Hx'|Hx'] Hne]; [left|right; exact Hx'].
           intros Hin. apply elem_of_cons in Hin as [->|Hin]; contradiction.
        -- intros [Hx'|Hx'].
           ++ split; [left; intros Hin; apply Hx'; right; exact Hin|].
              intros ->. apply Hx'. left.
           ++ split; [right; exact Hx'|]. intros ->. congruence.
      * exact Hnd.
      * intros x Hx. apply list_elem_of_filter. split; [|apply Htodo; right; exact Hx].
        intros ->. contradiction.
      * intros x Hx. apply list_elem_of_filter in Hx as [_ Hx]. apply Hsub, Hx.
      * intros x Hmatch Hx. apply list_elem_of_filter. split; [|apply Hkept; assumption].
        intros ->. apply outdated_true_iff in Hout as (root & base & Hsome & _).
        congruence.
    + cbn. rewrite IH.
      * f_equal. f_equal. apply filter_ext_elem. intros x Hx. split.
        -- intros [Hx'|Hx']; [|right; exact Hx'].
           destruct (decide (x = n)) as [->|Hne]; [right; exact Hout|].
           left. intros Hin. apply elem_of_cons in Hin as [->|Hin]; contradiction.
        -- intros [Hx'|Hx']; [left|right; exact Hx'].
           intros Hin. apply Hx'. right. exact Hin.
      * exact Hnd.
      * intros x Hx. apply Htodo. right. exact Hx.
      * exact Hsub.
      * exact Hkept.
Qed.

Lemma remove_outdated_filter :
  remove_outdated result fs
  = inr (<[dir := filter (fun n => outdated result fs (dir, n) = false) names]> fs).
Proof.
  unfold remove_outdated, iterdir. rewrite Hdir. cbn.
  replace (remove_outdated_loop result (map (fun n => (dir, n)) names) fs)
    with (remove_outdated_loop result (map (fun n => (dir, n)) names) (<[dir := names]> fs))
    by (rewrite (insert_id fs dir names Hdir); reflexivity).
  rewrite remove_outdated_loop_spec; try (intros; assumption).
  f_equal. f_equal. apply filter_ext_elem. intros x Hx. split.
  - intros [Hx'|Hx']; [contradiction | exact Hx'].
  - intros Hx'. right. exact Hx'.
Qed.

End Pruning.

Section VsPatternFacts.
Import GenerateResults.

Lemma ends_with_app root suffix : Str.ends_with suffix (root +:+ suffix) = true.
Proof.
  induction root as [|c root IH].
  - change (Str.ends_with suffix suffix = true).
    destruct suffix; simpl; rewrite ?Ascii.eqb_refl, ?String.eqb_refl; reflexivity.
  - change (Str.ends_with suffix (String c (root +:+ suffix)) = true).
    simpl. rewrite IH. apply orb_true_r.
Qed.

Lemma contains_app c a b :
  Str.contains c (a +:+ b) = Str.contains c a || Str.contains c b.
Proof.
  induction a as [|x a IH]; [reflexivity|].
  change (Str.contains c (String x (a +:+ b)) = Str.contains c (String x a) || Str.contains c b).
  simpl. rewrite IH. apply orb_assoc.
Qed.

Lemma dot_star_id s : Str.contains newline s = false -> dot_star s = s.
Proof.
  induction s as [|c s IH]; [reflexivity|].
  simpl. intros Hc. apply orb_false_iff in Hc as [Hc Hs]. rewrite Hc, IH; auto.
Qed.

Lemma re_match_vs_cons c s :
  re_match_vs (String c s)
  = match (if Ascii.eqb c newline then None else re_match_vs s) with
    | Some (root, base) => Some (String c root, base)
    | None =>
        if String.prefix "-vs-" (String c s)
        then Some (EmptyString, dot_star (slice_from 4 (String c s)))
        else None
    end.
Proof. reflexivity. Qed.

Lemma occurs_cons needle c s :
  Str.occurs needle (String c s) = String.prefix needle (String c s) || Str.occurs needle s.
Proof. reflexivity. Qed.

Lemma prefix_vs base : String.prefix "-vs-" ("-vs-" +:+ base) = true.
Proof. destruct base; reflexivity. Qed.

(** A stem that matches holds ["-vs-"]. *)
Lemma re_match_vs_occurs s : forall root base,
  re_match_vs s = Some (root, base) -> Str.occurs "-vs-" s = true.
Proof.
  induction s as [|c s IH]; intros root base; [discriminate|].
  rewrite re_match_vs_cons, occurs_cons.
  destruct (if Ascii.eqb c newline then None else re_match_vs s) as [[root' base']|] eqn:Hrest.
  - intros _. destruct (Ascii.eqb c newline); [discriminate Hrest|].
    rewrite (IH root' base' Hrest). apply orb_true_r.
  - destruct (String.prefix "-vs-" (String c s)); [reflexivity | discriminate].
Qed.

(** Where the ["-vs-"] that separates [root] from [base] is the last one of
    a stem of one line, the groups of the match are [root] and [base]. *)
Lemma re_match_vs_split root base :
  Str.contains newline (root +:+ "-vs-" +:+ base) = false ->
  Str.occurs "-vs-" ("-" +:+ base) = false ->
  re_match_vs (root +:+ "-vs-" +:+ base) = Some (root, base).
Proof.
  intros Hline Hlast. induction root as [|c root IH].
  - change (EmptyString +:+ "-vs-" +:+ base) with ("-vs-" +:+ base) in *.
    assert (Hrest : re_match_vs ("vs-" +:+ base) = None).
    { destruct (re_match_vs ("vs-" +:+ base)) as [[root' base']|] eqn:Hrest; [|reflexivity].
      apply re_match_vs_occurs in Hrest.
      change (Str.occurs "-vs-" ("vs-" +:+ base)) with (Str.occurs "-vs-" ("-" +:+ base))
        in Hrest.
      congruence. }
    change ("-vs-" +:+ base) with (String "-" ("vs-" +:+ base)).
    rewrite re_match_vs_cons.
    change (Ascii.eqb "-" newline) with false. cbv iota. rewrite Hrest.
    change (String "-" ("vs-" +:+ base)) with ("-vs-" +:+ base).
    rewrite prefix_vs.
    change (slice_from 4 ("-vs-" +:+ base)) with base.
    rewrite dot_star_id; [reflexivity|].
    change ("-vs-" +:+ base) with (String "-" (String "v" (String "s" (String "-" base))))
      in Hline.
    simpl in Hline. exact Hline.
  - change (String c root +:+ "-vs-" +:+ base)
      with (String c (root +:+ "-vs-" +:+ base)) in *.
    simpl in Hline. apply orb_false_iff in Hline as [Hc Hline].
    rewrite re_match_vs_cons, Hc, (IH Hline). reflexivity.
Qed.

End VsPatternFacts.




(** ** The summary view *)

Section SummarizeFacts.
Import GenerateResults.
Variable bases : list string.
Variable n_recent : Z.
Variable earliest : string.

Local Abbreviation keeps i result :=
  ((i <? n_recent)%Z || String.leb earliest (run_date result)
   || bool_decide (version result ∈ bases)).

Lemma summarize_loop_elem : forall results i new_results result,
  result ∈ summarize_loop i results bases n_recent earliest new_results <->
  result ∈ new_results
  \/ exists j, results !! j = Some result /\ keeps (i + Z.of_nat j)%Z result = true.
Proof.
  induction results as [|first results IH]; intros i new_results result; simpl.
  - split; [intros Hin; left; exact Hin|].
    intros [Hin|(j & Hj & _)]; [exact Hin | discriminate Hj].
  - rewrite IH. split.
    + intros [Hin|(j & Hj & Hkeep)].
      * destruct (keeps i first) eqn:Hfirst; [|left; exact Hin].
        apply elem_of_app in Hin as [Hin|Hin]; [left; exact Hin|].
        apply list_elem_of_singleton in Hin. subst. right. exists 0.
        split; [reflexivity|]. rewrite Z.add_0_r. exact Hfirst.
      * right. exists (S j). split; [exact Hj|].
        rewrite Nat2Z.inj_succ. rewrite <- Z.add_1_l, Z.add_assoc. exact Hkeep.
    + intros [Hin|(j & Hj & Hkeep)].
      * left. destruct (keeps i first); [apply elem_of_app; left|]; exact Hin.
      * destruct j as [|j].
        -- injection Hj as ->. rewrite Z.add_0_r in Hkeep. rewrite Hkeep.
           left. apply elem_of_app. right. constructor.
        -- right. exists j. split; [exact Hj|].
           rewrite Nat2Z.inj_succ, <- Z.add_1_l, Z.add_assoc in Hkeep. exact Hkeep.
Qed.

Lemma summarize_loop_sublist : forall results i new_results,
  exists added,
    summarize_loop i results bases n_recent earliest new_results = new_results ++ added
    /\ sublist added results.
Proof.
  induction results as [|first results IH]; intros i new_results; simpl.
  - exists []. split; [rewrite app_nil_r; reflexivity | constructor].
  - destruct (keeps i first).
    + destruct (IH (i + 1)%Z (new_results ++ [first])) as (added & -> & Hsub).
      exists (first :: added). split; [rewrite <- app_assoc; reflexivity|].
      constructor. exact Hsub.
    + destruct (IH (i + 1)%Z new_results) as (added & -> & Hsub).
      exists added. split; [reflexivity|]. constructor. exact Hsub.
Qed.

End SummarizeFacts.

(** C10. The code does not do what the claim says, and what its own
    docstring says ("The 3 most recent"), on a list that is not ordered most
    recent first: it keeps the results at the first [n_recent] positions of
    the list, whatever their run dates. On four results listed oldest first,
    none recent and none of a base version, it returns the three oldest,
    where the three most recent are asked for. *)
Lemma summarize_results_takes_list_order :
  GenerateResults.summarize_results Samples.on_2024_06_04 Samples.oldest_first [] 3 3
  = [Samples.result_of "3.13.0a1+" "2024-01-10"; Samples.result_of "3.13.0a2+" "2024-02-10";
     Samples.result_of "3.13.0a3+" "2024-03-10"]
  /\ Spec.spec_summarize_results Samples.on_2024_06_04 Samples.oldest_first [] 3 3
     = [Samples.result_of "3.13.0a2+" "2024-02-10"; Samples.result_of "3.13.0a3+" "2024-03-10";
        Samples.result_of "3.13.0a4+" "2024-04-10"]
  /\ GenerateResults.summarize_results Samples.on_2024_06_04 Samples.oldest_first [] 3 3
     <> Spec.spec_summarize_results Samples.on_2024_06_04 Samples.oldest_first [] 3 3.
Proof. vm_compute. repeat split. discriminate. Qed.

(** What [summarize_results] does instead: it returns, in the order of the
    list, exactly the results that stand at one of the first [n_recent]
    positions, or whose run date is not earlier than [days] days before
    today, or whose version is one of the bases. On a list ordered most
    recent first, no result left out has a later run date than a result at
    one of the first [n_recent] positions. *)
Lemma summarize_results_keeps (days_ago_isoformat : Z -> string)
    (results : list GenerateResults.Result) (bases : list string) (n_recent days : Z) :
  let earliest := days_ago_isoformat days in
  let summary :=
    GenerateResults.summarize_results days_ago_isoformat results bases n_recent days in
  (forall result,
      result ∈ summary <->
      exists i, results !! i = Some result
                /\ ((Z.of_nat i < n_recent)%Z
                    \/ String.leb earliest (GenerateResults.run_date result) = true
                    \/ GenerateResults.version result ∈ bases))
  /\ sublist summary results
  /\ (StronglySorted
        (fun a b => String.leb (GenerateResults.run_date b) (GenerateResults.run_date a) = true)
        results ->
      forall i recent result,
        results !! i = Some recent -> (Z.of_nat i < n_recent)%Z ->
        result ∈ results -> result ∉ summary ->
        String.leb (GenerateResults.run_date result) (GenerateResults.run_date recent) = true).
Proof.
  intros earliest summary.
  assert (Helem : forall result,
             result ∈ summary <->
             exists i, results !! i = Some result
                       /\ ((Z.of_nat i < n_recent)%Z
                           \/ String.leb earliest (GenerateResults.run_date result) = true
                           \/ GenerateResults.version result ∈ bases)).
  { intros result. subst summary. unfold GenerateResults.summarize_results.
    rewrite summarize_loop_elem. split.
    - intros [Hin|(j & Hj & Hkeep)]; [inversion Hin|]. exists j. split; [exact Hj|].
      apply orb_true_iff in Hkeep as [Hkeep|Hbase].
      + apply orb_true_iff in Hkeep as [Hpos|Hdate].
        * left. apply Z.ltb_lt in Hpos. lia.
        * right. left. exact Hdate.
      + right. right. apply bool_decide_eq_true_1 in Hbase. exact Hbase.
    - intros (i & Hi & Hkeep). right. exists i. split; [exact Hi|].
      destruct Hkeep as [Hpos|[Hdate|Hbase]].
      + apply orb_true_iff. left. apply orb_true_iff. left. apply Z.ltb_lt. lia.
      + apply orb_true_iff. left. apply orb_true_iff. right. exact Hdate.
      + apply orb_true_iff. right. apply bool_decide_eq_true_2. exact Hbase. }
  split; [exact Helem|]. split.
  - subst summary. unfold GenerateResults.summarize_results.
    destruct (summarize_loop_sublist bases n_recent (days_ago_isoformat days) results 0%Z [])
      as (added & -> & Hsub). exact Hsub.
  - intros Hsorted i recent result Hi Hpos Hin Hout.
    apply list_elem_of_lookup in Hin as [j Hj].
    destruct (decide (i < j)) as [Hlt|Hge].
    + exact (StronglySorted_lookup_lt _ results Hsorted i j recent result Hi Hj Hlt).
    + exfalso. apply Hout. apply Helem. exists j. split; [exact Hj|]. left. lia.
Qed.

(** * Further properties *)

(** ** [get_micro_version] *)

Section StringFacts.

Lemma contains_slice_from c : forall n s,
  Str.contains c (slice_from n s) = true -> Str.contains c s = true.
Proof.
  induction n as [|n IH]; intros s Hc; [exact Hc|].
  destruct s as [|a s]; [exact Hc|]. simpl in *.
  rewrite (IH s Hc). apply orb_true_r.
Qed.

Lemma rfind_None c s : GenerateResults.rfind c s = None -> Str.contains c s = false.
Proof.
  induction s as [|a s IH]; simpl; [reflexivity|].
  destruct (GenerateResults.rfind c s) as [i|]; [discriminate|].
  destruct (Ascii.eqb a c); [discriminate|]. intros _. apply IH. reflexivity.
Qed.

Lemma contains_None_rfind c s : Str.contains c s = false -> GenerateResults.rfind c s = None.
Proof.
  induction s as [|a s IH]; simpl; [reflexivity|].
  intros Hc. apply orb_false_iff in Hc as [Ha Hs].
  rewrite (IH Hs), Ha. reflexivity.
Qed.

Lemma last_field_free c s : Str.contains c (Str.last_field c s) = false.
Proof.
  unfold Str.last_field. induction s as [|a s IH]; simpl; [reflexivity|].
  destruct (GenerateResults.rfind c s) as [i|] eqn:Hr.
  - exact IH.
  - destruct (Ascii.eqb a c) eqn:Ha; simpl.
    + apply rfind_None, Hr.
    + rewrite Ha. apply rfind_None, Hr.
Qed.

Lemma last_field_contains c d s :
  Str.contains d (Str.last_field c s) = true -> Str.contains d s = true.
Proof.
  unfold Str.last_field. destruct (GenerateResults.rfind c s); [|exact id].
  apply contains_slice_from.
Qed.

Lemma last_field_id c s : Str.contains c s = false -> Str.last_field c s = s.
Proof.
  intros Hc. unfold Str.last_field. rewrite (contains_None_rfind c s Hc). reflexivity.
Qed.

Lemma remove_char_free c s : Str.contains c (Str.remove_char c s) = false.
Proof.
  induction s as [|a s IH]; simpl; [reflexivity|].
  destruct (Ascii.eqb a c) eqn:Ha; simpl; [exact IH|]. rewrite Ha, IH. reflexivity.
Qed.

Lemma remove_char_contains c d s :
  Str.contains d (Str.remove_char c s) = true -> Str.contains d s = true.
Proof.
  induction s as [|a s IH]; simpl; [exact id|].
  destruct (Ascii.eqb a c); simpl.
  - intros Hd. rewrite (IH Hd). apply orb_true_r.
  - intros Hd. apply orb_true_iff in Hd as [Hd|Hd]; apply orb_true_iff;
      [left; exact Hd | right; exact (IH Hd)].
Qed.

Lemma remove_char_id c s : Str.contains c s = false -> Str.remove_char c s = s.
Proof.
  induction s as [|a s IH]; simpl; [reflexivity|].
  intros Hc. apply orb_false_iff in Hc as [Ha Hs]. rewrite Ha, (IH Hs). reflexivity.
Qed.

Lemma skip_digits_contains d s :
  Str.contains d (Str.skip_digits s) = true -> Str.contains d s = true.
Proof.
  induction s as [|a s IH]; simpl; [exact id|].
  destruct (Str.is_digit a); [|exact id].
  intros Hd. rewrite (IH Hd). apply orb_true_r.
Qed.

Lemma dot_star_contains d s :
  Str.contains d (GenerateResults.dot_star s) = true -> Str.contains d s = true.
Proof.
  induction s as [|a s IH]; simpl; [exact id|].
  destruct (Ascii.eqb a GenerateResults.newline); simpl; [discriminate|].
  intros Hd. apply orb_true_iff in Hd as [Hd|Hd]; apply orb_true_iff;
    [left; exact Hd | right; exact (IH Hd)].
Qed.

Lemma match_micro_contains d micro group :
  PlotData.match_micro micro = Some group ->
  Str.contains d group = true -> Str.contains d micro = true.
Proof.
  unfold PlotData.match_micro. destruct micro as [|a micro]; [discriminate|].
  destruct (Str.is_digit a); [|discriminate].
  destruct (Str.skip_digits (String a micro)) as [|l rest] eqn:Hrest; [discriminate|].
  destruct (Str.is_lower l && _); [|discriminate].
  intros [= <-] Hd. apply skip_digits_contains. rewrite Hrest.
  apply dot_star_contains, Hd.
Qed.

Lemma lower_not_digit_nor_newline l :
  Str.is_lower l = true ->
  Str.is_digit l = false /\ Ascii.eqb l GenerateResults.newline = false.
Proof.
  destruct l as [[] [] [] [] [] [] [] []]; vm_compute; intros Hl;
    try discriminate Hl; split; reflexivity.
Qed.

Lemma match_micro_group micro group :
  PlotData.match_micro micro = Some group -> PlotData.match_micro group = None.
Proof.
  unfold PlotData.match_micro at 1. destruct micro as [|a micro]; [discriminate|].
  destruct (Str.is_digit a); [|discriminate].
  destruct (Str.skip_digits (String a micro)) as [|l rest]; [discriminate|].
  destruct (Str.is_lower l) eqn:Hl; [|discriminate].
  destruct (lower_not_digit_nor_newline l Hl) as [Hd Hn].
  destruct (2 <=? _); [|discriminate]. intros [= <-].
  simpl. rewrite Hn. simpl. rewrite Hd. reflexivity.
Qed.

End StringFacts.

Lemma get_micro_version_chars (version : string) :
  Str.contains "." (PlotData.get_micro_version version) = false
  /\ Str.contains "+" (PlotData.get_micro_version version) = false
  /\ forall c, Str.contains c (PlotData.get_micro_version version) = true ->
                Str.contains c version = true.
Proof.
  assert (Hsub : forall c, Str.contains c (PlotData.get_micro_version version) = true ->
                           Str.contains c (Str.remove_char "+" (Str.last_field "." version))
                           = true).
  { intros c. unfold PlotData.get_micro_version.
    destruct (PlotData.match_micro _) as [group|] eqn:Hm; [|exact id].
    apply (match_micro_contains c _ _ Hm). }
  split; [|split].
  - destruct (Str.contains "." (PlotData.get_micro_version version)) eqn:Hc; [|reflexivity].
    apply Hsub, remove_char_contains in Hc. rewrite last_field_free in Hc. discriminate.
  - destruct (Str.contains "+" (PlotData.get_micro_version version)) eqn:Hc; [|reflexivity].
    apply Hsub in Hc. rewrite remove_char_free in Hc. discriminate.
  - intros c Hc. apply Hsub, remove_char_contains, last_field_contains in Hc. exact Hc.
Qed.

(** X1. The label [get_micro_version] returns holds neither a dot nor a plus
    sign, and every character of it is a character of the version it was
    given. *)
Theorem get_micro_version_plain (version : string) :
  Str.contains "." (PlotData.get_micro_version version) = false
  /\ Str.contains "+" (PlotData.get_micro_version version) = false
  /\ forall c, Str.contains c (PlotData.get_micro_version version) = true ->
                Str.contains c version = true.
Proof. exact (get_micro_version_chars version). Qed.

(** X2. [get_micro_version] is idempotent: the label of a label is that
    label. *)
Theorem get_micro_version_idempotent (version : string) :
  PlotData.get_micro_version (PlotData.get_micro_version version)
  = PlotData.get_micro_version version.
Proof.
  destruct (get_micro_version_chars version) as (Hdot & Hplus & _).
  set (label := PlotData.get_micro_version version) in *.
  unfold PlotData.get_micro_version at 1.
  rewrite (last_field_id "." label Hdot), (remove_char_id "+" label Hplus).
  subst label. unfold PlotData.get_micro_version.
  destruct (PlotData.match_micro (Str.remove_char "+" (Str.last_field "." version)))
    as [group|] eqn:Hm.
  - rewrite (match_micro_group _ _ Hm). reflexivity.
  - rewrite Hm. reflexivity.
Qed.

(** ** The comparison values of one line of the longitudinal plot *)

Section ChangesFacts.
Context {V W : Type}.
Variable compute : Plot.Result -> Plot.Result -> string -> W -> W * V.

Lemma get_comparison_value_grows ref r base (st : @Plot.env V W) :
  let st' := fst (Plot.get_comparison_value compute ref r base st) in
  (forall key value, Plot.data st !! key = Some value -> Plot.data st' !! key = Some value)
  /\ Plot.data st' !! Plot.cache_key ref r base
     = Some (snd (Plot.get_comparison_value compute ref r base st))
  /\ exists added, Plot.invocations st' = Plot.invocations st ++ added /\ length added <= 1.
Proof.
  destruct (Plot.data st !! Plot.cache_key ref r base) as [value|] eqn:Hget.
  - rewrite (get_comparison_value_hit compute ref r base st value Hget). cbn.
    split; [intros; assumption|]. split; [exact Hget|].
    exists []. rewrite app_nil_r. split; [reflexivity | simpl; lia].
  - rewrite (get_comparison_value_miss compute ref r base st Hget).
    cbn [fst snd Plot.data Plot.invocations].
    split; [|split].
    + intros key value Hkey. rewrite lookup_insert_ne; [exact Hkey|].
      intros <-. congruence.
    + apply lookup_insert_eq.
    + eexists. split; [reflexivity | simpl; lia].
Qed.

Lemma comparison_values_grows ref base : forall rs (st : @Plot.env V W),
  let st' := fst (PlotData.comparison_values compute ref rs base st) in
  (forall key value, Plot.data st !! key = Some value -> Plot.data st' !! key = Some value)
  /\ exists added, Plot.invocations st' = Plot.invocations st ++ added
                   /\ length added <= length rs.
Proof.
  induction rs as [|r rs IH]; intros st; simpl.
  - split; [intros; assumption|]. exists []. rewrite app_nil_r. split; [reflexivity|simpl; lia].
  - destruct (get_comparison_value_grows ref r base st) as (Hkeep & _ & added & Hadd & Hlen).
    destruct (Plot.get_comparison_value compute ref r base st) as [st1 value]. cbn in *.
    destruct (IH st1) as (Hkeep' & added' & Hadd' & Hlen').
    destruct (PlotData.comparison_values compute ref rs base st1) as [st2 values]. cbn in *.
    split.
    + intros key v Hkey. apply Hkeep', Hkeep, Hkey.
    + exists (added ++ added'). rewrite Hadd', Hadd, app_assoc.
      split; [reflexivity|]. rewrite length_app. lia.
Qed.

Lemma comparison_values_stored ref base : forall rs (st : @Plot.env V W),
  Forall2 (fun r value =>
             Plot.data (fst (PlotData.comparison_values compute ref rs base st))
               !! Plot.cache_key ref r base = Some value)
          rs (snd (PlotData.comparison_values compute ref rs base st)).
Proof.
  induction rs as [|r rs IH]; intros st; simpl; [constructor|].
  destruct (get_comparison_value_grows ref r base st) as (_ & Hstored & _).
  destruct (Plot.get_comparison_value compute ref r base st) as [st1 value]. cbn in *.
  specialize (IH st1).
  destruct (comparison_values_grows ref base rs st1) as (Hkeep & _).
  destruct (PlotData.comparison_values compute ref rs base st1) as [st2 values]. cbn in *.
  constructor; [apply Hkeep, Hstored | exact IH].
Qed.

Lemma comparison_values_cached ref base (st : @Plot.env V W) : forall rs values,
  Forall2 (fun r value => Plot.data st !! Plot.cache_key ref r base = Some value) rs values ->
  PlotData.comparison_values compute ref rs base st = (st, values).
Proof.
  induction 1 as [|r value rs values Hr _ IH]; simpl; [reflexivity|].
  rewrite (get_comparison_value_hit compute ref r base st value Hr), IH. reflexivity.
Qed.

End ChangesFacts.

(** X3. Entries of the cache are never invalidated: whatever sequence of
    results is looked up, every key that was in [data] before is there
    afterwards with the same value, the list of invocations is only
    extended, and by at most one invocation per result looked up. *)
Theorem comparison_values_keep_cache {V W : Type}
    (compute : Plot.Result -> Plot.Result -> string -> W -> W * V)
    (ref : Plot.Result) (runner_results : list Plot.Result) (base : string)
    (st : @Plot.env V W) :
  let st' := fst (PlotData.comparison_values compute ref runner_results base st) in
  (forall key value, Plot.data st !! key = Some value -> Plot.data st' !! key = Some value)
  /\ exists added, Plot.invocations st' = Plot.invocations st ++ added
                   /\ length added <= length runner_results.
Proof. exact (comparison_values_grows compute ref base runner_results st). Qed.

(** X4. Regenerating is free: looking up the same results a second time, in
    the environment the first pass left, returns the same values and leaves
    the environment as it is, so that the collaborator is not invoked at
    all, whatever it would have answered. *)
Theorem comparison_values_second_pass {V W : Type}
    (compute : Plot.Result -> Plot.Result -> string -> W -> W * V)
    (ref : Plot.Result) (runner_results : list Plot.Result) (base : string)
    (st : @Plot.env V W) :
  let first := PlotData.comparison_values compute ref runner_results base st in
  PlotData.comparison_values compute ref runner_results base (fst first) = first.
Proof.
  intros first. subst first.
  rewrite (comparison_values_cached compute ref base _ runner_results _
             (comparison_values_stored compute ref base runner_results st)).
  destruct (PlotData.comparison_values compute ref runner_results base st). reflexivity.
Qed.

(** ** [get_data] *)

Section OrderedDictFacts.
Import Collections.
Context {K V : Type} `{EqDecision K}.

Lemma od_get_set_eq (k : K) (v : V) m : od_get k (od_set k v m) = Some v.
Proof.
  unfold od_get. induction m as [|[k' v'] m IH]; simpl.
  - rewrite bool_decide_eq_true_2; reflexivity.
  - destruct (bool_decide (k' = k)) eqn:Hk; simpl.
    + rewrite bool_decide_eq_true_2; reflexivity.
    + rewrite Hk. exact IH.
Qed.

Lemma od_get_set_ne (k k' : K) (v : V) m : k <> k' -> od_get k (od_set k' v m) = od_get k m.
Proof.
  intros Hne. unfold od_get. induction m as [|[k0 w] m IH]; simpl.
  - rewrite bool_decide_eq_false_2 by congruence. reflexivity.
  - destruct (decide (k0 = k')) as [->|Hk0].
    + rewrite bool_decide_eq_true_2 by reflexivity. simpl.
      rewrite bool_decide_eq_false_2 by congruence. reflexivity.
    + rewrite (bool_decide_eq_false_2 (k0 = k')) by exact Hk0. simpl.
      destruct (bool_decide (k0 = k)); [reflexivity | exact IH].
Qed.

Lemma od_set_keys (k : K) (v : V) m x :
  x ∈ map fst (od_set k v m) <-> x = k \/ x ∈ map fst m.
Proof.
  induction m as [|[k0 w] m IH]; simpl.
  - rewrite list_elem_of_singleton. split; [intros ->; left; reflexivity|].
    intros [->|Hx]; [reflexivity | inversion Hx].
  - destruct (decide (k0 = k)) as [->|Hk0].
    + rewrite bool_decide_eq_true_2 by reflexivity. simpl. rewrite !elem_of_cons.
      tauto.
    + rewrite bool_decide_eq_false_2 by exact Hk0. simpl. rewrite !elem_of_cons, IH.
      tauto.
Qed.

Lemma od_set_NoDup (k : K) (v : V) m : NoDup (map fst m) -> NoDup (map fst (od_set k v m)).
Proof.
  induction m as [|[k0 w] m IH]; simpl; intros Hnd.
  - apply NoDup_singleton.
  - apply NoDup_cons in Hnd as [Hk0 Hnd].
    destruct (decide (k0 = k)) as [->|Hne].
    + rewrite bool_decide_eq_true_2 by reflexivity. simpl.
      apply NoDup_cons. split; assumption.
    + rewrite bool_decide_eq_false_2 by exact Hne. simpl.
      apply NoDup_cons. split; [|apply IH, Hnd].
      rewrite od_set_keys. intros [Heq|Hin]; [congruence | contradiction].
Qed.

Lemma od_get_None (k : K) (m : list (K * V)) : od_get k m = None <-> k ∉ map fst m.
Proof.
  unfold od_get. induction m as [|[k0 w] m IH]; simpl.
  - split; [intros _ Hin; inversion Hin | reflexivity].
  - destruct (decide (k0 = k)) as [->|Hne].
    + rewrite bool_decide_eq_true_2 by reflexivity. simpl.
      split; [discriminate|]. intros Hnot. exfalso. apply Hnot. left.
    + rewrite bool_decide_eq_false_2 by exact Hne. rewrite IH, not_elem_of_cons.
      split; [intros Hk; split; [congruence | exact Hk] | intros [_ Hk]; exact Hk].
Qed.

End OrderedDictFacts.

Section GetDataFacts.
Import Collections.
Context {F : Type}.
Variable top : option string.

Lemma get_data_loop_spec : forall (bs : list (@PlotData.benchmark F)) acc results,
  PlotData.get_data_loop top bs acc = inr results ->
  (NoDup (map fst acc) -> NoDup (map fst results))
  /\ (forall name,
        (forall b, b ∈ bs -> PlotData.benchmark_name top b <> inr name) ->
        od_get name results = od_get name acc)
  /\ (forall name before b after,
        bs = before ++ b :: after ->
        PlotData.benchmark_name top b = inr name ->
        (forall b', b' ∈ after -> PlotData.benchmark_name top b' <> inr name) ->
        od_get name results = Some (PlotData.run_values (PlotData.runs b))).
Proof.
  induction bs as [|b0 bs IH]; intros acc results Hloop; simpl in Hloop.
  - injection Hloop as <-. split; [exact id|]. split; [reflexivity|].
    intros name before b after Hbs. destruct before; discriminate Hbs.
  - destruct (PlotData.benchmark_name top b0) as [e|name0] eqn:Hname0; [discriminate|].
    cbn in Hloop. destruct (IH _ _ Hloop) as (Hnd & Hskip & Hlast).
    split; [|split].
    + intros Hacc. apply Hnd, od_set_NoDup, Hacc.
    + intros name Hnone. rewrite Hskip.
      * apply od_get_set_ne. intros ->. apply (Hnone b0); [left | exact Hname0].
      * intros b Hb. apply Hnone. right. exact Hb.
    + intros name before b after Hbs Hname Hafter.
      destruct before as [|b1 before]; simpl in Hbs; injection Hbs as -> ->.
      * rewrite (Hskip name Hafter).
        assert (name0 = name) as -> by congruence. apply od_get_set_eq.
      * exact (Hlast name before b after eq_refl Hname Hafter).
Qed.

Lemma get_data_loop_raises : forall (bs : list (@PlotData.benchmark F)) acc,
  (exists e, PlotData.get_data_loop top bs acc = inl e) <->
  exists b, b ∈ bs /\ PlotData.benchmark_name top b = inl KeyError.
Proof.
  induction bs as [|b0 bs IH]; intros acc; simpl.
  - split; [intros [e He]; discriminate He | intros (b & Hb & _); inversion Hb].
  - destruct (PlotData.benchmark_name top b0) as [e|name0] eqn:Hname0; cbn.
    + split; [|intros _; eauto]. intros _. exists b0. split; [left|].
      rewrite Hname0. f_equal. unfold PlotData.benchmark_name in Hname0.
      destruct (PlotData.metadata b0) as [[n|]|]; [discriminate| |destruct top; [discriminate|]];
        congruence.
    + rewrite IH. split; intros (b & Hb & Hname).
      * exists b. split; [right; exact Hb | exact Hname].
      * apply elem_of_cons in Hb as [->|Hb]; [congruence|]. eauto.
Qed.

End GetDataFacts.


(** ** The order of strings *)

Section StringOrderFacts.

Lemma string_leb_trans a b c :
  String.leb a b = true -> String.leb b c = true -> String.leb a c = true.
Proof.
  intros Hab Hbc. apply Is_true_true.
  change (String.le a c). transitivity b; apply Is_true_true; assumption.
Qed.

Lemma string_ltb_leb a b : String.ltb a b = negb (String.leb b a).
Proof.
  unfold String.ltb, String.leb. rewrite (String.compare_antisym a b).
  destruct (String.compare b a); reflexivity.
Qed.

Lemma string_ltb_irrefl a : String.ltb a a = false.
Proof.
  rewrite string_ltb_leb. apply negb_false_iff, Is_true_true.
  change (String.le a a). reflexivity.
Qed.

Lemma string_ltb_trans a b c :
  String.ltb a b = true -> String.ltb b c = true -> String.ltb a c = true.
Proof.
  rewrite !string_ltb_leb, !negb_true_iff. intros Hab Hbc.
  destruct (String.leb c a) eqn:Hca; [|reflexivity].
  destruct (String.leb_total a b) as [Hle|Hle]; [|congruence].
  rewrite (string_leb_trans c a b Hca Hle) in Hbc. discriminate.
Qed.

Lemma string_ltb_negtrans a b c :
  String.ltb a b = false -> String.ltb b c = false -> String.ltb a c = false.
Proof.
  rewrite !string_ltb_leb, !negb_false_iff. intros Hab Hbc.
  exact (string_leb_trans c b a Hbc Hab).
Qed.

Lemma string_ltb_asym a b : String.ltb a b = true -> String.ltb b a = false.
Proof.
  intros Hab. destruct (String.ltb b a) eqn:Hba; [|reflexivity].
  rewrite <- (string_ltb_irrefl a). symmetry. exact (string_ltb_trans a b a Hab Hba).
Qed.

Lemma string_ltb_total a b : String.ltb a b = false -> String.ltb b a = false -> a = b.
Proof.
  rewrite !string_ltb_leb, !negb_false_iff. intros Hba Hab.
  apply String.leb_antisym; assumption.
Qed.

End StringOrderFacts.

(** ** [sort_runner_names] *)

Section RunnerNamesFacts.
Import Collections Catalog.

Lemma key_lt_asym a b : key_lt a b = true -> key_lt b a = false.
Proof.
  destruct a as [[i v]|], b as [[j w]|]; simpl; try reflexivity; try discriminate.
  intros H. apply orb_true_iff in H as [H|H].
  - apply Nat.ltb_lt in H. apply orb_false_iff. split.
    + apply Nat.ltb_ge. lia.
    + apply andb_false_iff. left. apply Nat.eqb_neq. lia.
  - apply andb_true_iff in H as [Hij Hvw]. apply Nat.eqb_eq in Hij. subst j.
    rewrite Nat.ltb_irrefl, Nat.eqb_refl. simpl. apply string_ltb_asym, Hvw.
Qed.

Lemma key_lt_trans a b c : key_lt a b = true -> key_lt b c = true -> key_lt a c = true.
Proof.
  destruct a as [[i v]|], b as [[j w]|], c as [[k x]|]; simpl; try reflexivity;
    try discriminate.
  intros Hab Hbc. apply orb_true_iff in Hab as [Hab|Hab];
    apply orb_true_iff in Hbc as [Hbc|Hbc]; apply orb_true_iff.
  - apply Nat.ltb_lt in Hab, Hbc. left. apply Nat.ltb_lt. lia.
  - apply andb_true_iff in Hbc as [Hjk _]. apply Nat.eqb_eq in Hjk. subst k.
    left. exact Hab.
  - apply andb_true_iff in Hab as [Hij _]. apply Nat.eqb_eq in Hij. subst j.
    left. exact Hbc.
  - apply andb_true_iff in Hab as [Hij Hvw]. apply andb_true_iff in Hbc as [Hjk Hwx].
    apply Nat.eqb_eq in Hij, Hjk. subst j k. right.
    rewrite Nat.eqb_refl. simpl. exact (string_ltb_trans v w x Hvw Hwx).
Qed.

Lemma decorate_spec : forall names decorated,
  decorate names = inr decorated ->
  map snd decorated = names
  /\ forall k n, (k, n) ∈ decorated -> sorter n = inr k.
Proof.
  induction names as [|n names IH]; intros decorated Hd; simpl in Hd.
  - injection Hd as <-. split; [reflexivity|]. intros k n Hin. inversion Hin.
  - destruct (sorter n) as [e|k0] eqn:Hk; [discriminate|]. cbn in Hd.
    destruct (decorate names) as [e|rest]; [discriminate|]. cbn in Hd.
    injection Hd as <-. destruct (IH rest eq_refl) as [Hmap Hkeys].
    split; [simpl; rewrite Hmap; reflexivity|].
    intros k m Hin. apply elem_of_cons in Hin as [[= -> ->]|Hin]; [exact Hk|].
    apply Hkeys, Hin.
Qed.

Lemma decorate_succeeds names :
  (exists decorated, decorate names = inr decorated) <->
  forall n, n ∈ names -> exists k, sorter n = inr k.
Proof.
  induction names as [|n names IH]; simpl.
  - split; [intros _ n Hn; inversion Hn | eauto].
  - split.
    + intros [decorated Hd] m Hm.
      destruct (sorter n) as [e|k] eqn:Hk; [discriminate|]. cbn in Hd.
      destruct (decorate names) as [e|rest] eqn:Hrest; [discriminate|].
      apply elem_of_cons in Hm as [->|Hm]; [eauto|].
      apply IH; eauto.
    + intros Hall. destruct (Hall n) as [k ->]; [left|]. cbn.
      destruct (proj2 IH) as [rest ->]; [|cbn; eauto].
      intros m Hm. apply Hall. right. exact Hm.
Qed.

Lemma decorate_first_failure : forall before n after e,
  (forall m, m ∈ before -> exists k, sorter m = inr k) ->
  sorter n = inl e ->
  decorate (before ++ n :: after) = inl e.
Proof.
  induction before as [|m before IH]; intros n after e Hbefore Hn; simpl.
  - rewrite Hn. reflexivity.
  - destruct (Hbefore m) as [k ->]; [left|]. cbn.
    rewrite (IH n after e); [reflexivity | | exact Hn].
    intros m' Hm'. apply Hbefore. right. exact Hm'.
Qed.

Lemma list_index_spec x l :
  match list_index x l with
  | inr i => l !! i = Some x
  | inl e => e = ValueError /\ x ∉ l
  end.
Proof.
  induction l as [|y l IH]; simpl.
  - split; [reflexivity|]. intros Hin. inversion Hin.
  - destruct (String.eqb_spec y x) as [->|Hne]; [reflexivity|].
    destruct (list_index x l) as [e|i]; exn_step.
    + destruct IH as [-> Hnot]. split; [reflexivity|].
      intros Hin. apply elem_of_cons in Hin as [->|Hin]; [congruence | contradiction].
    + exact IH.
Qed.

Lemma sorter_succeeds v :
  (exists k, sorter (Some v) = inr k) <->
  exists w, Str.first_word v = inr w /\ w ∈ order.
Proof.
  unfold sorter. destruct (Str.first_word v) as [e|w]; exn_step.
  - split; [intros [k Hk]; discriminate Hk | intros (w & Hw & _); discriminate Hw].
  - pose proof (list_index_spec w order) as Hidx.
    destruct (list_index w order) as [e|i]; exn_step.
    + destruct Hidx as [_ Hnot].
      split; [intros [k Hk]; discriminate Hk|]. intros (w' & [= <-] & Hin). contradiction.
    + split; [|eauto]. intros _. exists w. split; [reflexivity|].
      apply list_elem_of_lookup. eauto.
Qed.

End RunnerNamesFacts.

(** X6. [sort_runner_names] fails on the first name it cannot rank. It
    returns exactly when every name other than [None] has a first word that
    is one of ["linux"], ["windows"], ["darwin"]. Otherwise the first name
    without such a word decides the exception: [IndexError] when it has no
    word at all (it is empty or blank), [ValueError] when its first word is
    none of the three. *)
Theorem sort_runner_names_raises (runner_names : list (option string)) :
  ((exists sorted, Catalog.sort_runner_names runner_names = inr sorted) <->
   forall v, Some v ∈ runner_names ->
             exists w, Str.first_word v = inr w /\ w ∈ Catalog.order)
  /\ (forall before v after,
        runner_names = before ++ Some v :: after ->
        (forall u, Some u ∈ before ->
                   exists w, Str.first_word u = inr w /\ w ∈ Catalog.order) ->
        (Str.first_word v = inl IndexError ->
         Catalog.sort_runner_names runner_names = inl IndexError)
        /\ (forall w, Str.first_word v = inr w -> w ∉ Catalog.order ->
                      Catalog.sort_runner_names runner_names = inl ValueError)).
Proof.
  assert (Hnone : forall m : option string,
             (exists k, Catalog.sorter m = inr k) <->
             forall v, m = Some v ->
                       exists w, Str.first_word v = inr w /\ w ∈ Catalog.order).
  { intros [v|]; [rewrite sorter_succeeds|].
    - split; [intros H v' [= <-]; exact H | intros H; apply H; reflexivity].
    - split; [intros _ v Hv; discriminate Hv | intros _; cbn; eauto]. }
  split.
  - unfold Catalog.sort_runner_names. split.
    + intros [sorted Hs] v Hv.
      destruct (Catalog.decorate runner_names) as [e|decorated] eqn:Hd; [discriminate|].
      destruct (proj1 (decorate_succeeds runner_names) (ex_intro _ _ Hd) (Some v) Hv)
        as [k Hk].
      apply (proj1 (Hnone (Some v))); eauto.
    + intros Hall. destruct (proj2 (decorate_succeeds runner_names)) as [decorated ->];
        [|cbn; eauto].
      intros n Hn. apply Hnone. intros v ->. apply Hall, Hn.
  - intros before v after -> Hbefore.
    assert (Hb : forall m, m ∈ before -> exists k, Catalog.sorter m = inr k).
    { intros m Hm. apply Hnone. intros u ->. apply Hbefore, Hm. }
    unfold Catalog.sort_runner_names. split.
    + intros Hblank.
      rewrite (decorate_first_failure before (Some v) after IndexError Hb); [reflexivity|].
      unfold Catalog.sorter. rewrite Hblank. reflexivity.
    + intros w Hw Hnot.
      rewrite (decorate_first_failure before (Some v) after ValueError Hb); [reflexivity|].
      unfold Catalog.sorter. rewrite Hw. exn_step.
      pose proof (list_index_spec w Catalog.order) as Hidx.
      destruct (Catalog.list_index w Catalog.order) as [e|i]; exn_step.
      * destruct Hidx as [-> _]. reflexivity.
      * exfalso. apply Hnot. apply list_elem_of_lookup. eauto.
Qed.

(** X7. When [sort_runner_names] returns, it returns the names it was given,
    rearranged so that [None] comes first and the other names follow by the
    rank of their first word (["linux"], then ["windows"], then ["darwin"]) and,
    within one rank, in the order of strings. *)
Theorem sort_runner_names_order (runner_names sorted : list (option string)) :
  Catalog.sort_runner_names runner_names = inr sorted ->
  Permutation sorted runner_names
  /\ forall i j a b,
       sorted !! i = Some a -> sorted !! j = Some b -> i < j ->
       match a, b with
       | None, _ => True
       | Some _, None => False
       | Some v, Some w =>
           exists wv ww rv rw,
             Str.first_word v = inr wv /\ Catalog.order !! rv = Some wv
             /\ Str.first_word w = inr ww /\ Catalog.order !! rw = Some ww
             /\ (rv < rw \/ (rv = rw /\ String.leb v w = true))
       end.
Proof.
  unfold Catalog.sort_runner_names. intros Hs.
  destruct (Catalog.decorate runner_names) as [e|decorated] eqn:Hd; [discriminate|].
  cbn in Hs. injection Hs as <-.
  destruct (decorate_spec runner_names decorated Hd) as [Hmap Hkeys].
  set (lt := fun a b : option (nat * string) * option string =>
               Catalog.key_lt (fst a) (fst b)).
  pose proof (sorted_perm lt decorated) as Hperm.
  split.
  - rewrite <- Hmap. apply Permutation_map, Hperm.
  - intros i j a b Hi Hj Hij.
    rewrite list_lookup_fmap in Hi, Hj.
    destruct (Collections.sorted lt decorated !! i) as [[ka a']|] eqn:Hi'; [|discriminate].
    destruct (Collections.sorted lt decorated !! j) as [[kb b']|] eqn:Hj'; [|discriminate].
    cbn in Hi, Hj. injection Hi as ->. injection Hj as ->.
    assert (Hsorted : StronglySorted (fun x y => lt y x = false)
                        (Collections.sorted lt decorated)).
    { apply sorted_strongly.
      - intros x y. apply key_lt_asym.
      - intros x y z. apply key_lt_trans. }
    pose proof (StronglySorted_lookup_lt _ _ Hsorted i j _ _ Hi' Hj' Hij) as Hle.
    cbn in Hle.
    assert (Hka : Catalog.sorter a = inr ka).
    { apply Hkeys. apply list_elem_of_In. apply (Permutation_in _ Hperm).
      apply list_elem_of_In, list_elem_of_lookup. eauto. }
    assert (Hkb : Catalog.sorter b = inr kb).
    { apply Hkeys. apply list_elem_of_In. apply (Permutation_in _ Hperm).
      apply list_elem_of_In, list_elem_of_lookup. eauto. }
    destruct a as [v|]; [|exact I].
    destruct b as [w|].
    + unfold Catalog.sorter in Hka, Hkb.
      destruct (Str.first_word v) as [e|wv]; [discriminate|].
      destruct (Str.first_word w) as [e|ww]; [discriminate|].
      exn_step_in Hka. exn_step_in Hkb.
      pose proof (list_index_spec wv Catalog.order) as Hrv.
      pose proof (list_index_spec ww Catalog.order) as Hrw.
      destruct (Catalog.list_index wv Catalog.order) as [e|rv]; [discriminate|].
      destruct (Catalog.list_index ww Catalog.order) as [e|rw]; [discriminate|].
      exn_step_in Hka. exn_step_in Hkb. injection Hka as <-. injection Hkb as <-.
      exists wv, ww, rv, rw. repeat (split; [assumption || reflexivity|]).
      cbn in Hle. apply orb_false_iff in Hle as [Hlt Heq].
      apply Nat.ltb_ge in Hlt.
      destruct (decide (rv = rw)) as [->|Hne]; [|left; lia].
      right. split; [reflexivity|]. rewrite Nat.eqb_refl in Heq. cbn in Heq.
      rewrite string_ltb_leb in Heq. apply negb_false_iff in Heq. exact Heq.
    + unfold Catalog.sorter in Hka, Hkb. injection Hkb as <-.
      destruct (Str.first_word v) as [e|wv]; [discriminate|]. exn_step_in Hka.
      destruct (Catalog.list_index wv Catalog.order) as [e|rv]; [discriminate|].
      exn_step_in Hka. injection Hka as <-. cbn in Hle. discriminate Hle.
Qed.

(** ** [results_by_runner] *)

Section ByRunnerFacts.
Import Collections Catalog.
Variable runner : GenerateResults.Result -> string.

Local Abbreviation of_runner key :=
  (fun r => is_raw r && bool_decide (Some (runner r) = key)).

Lemma group_by_runner_spec : forall results by_runner,
  NoDup (map fst by_runner) ->
  NoDup (map fst (group_by_runner runner results by_runner))
  /\ forall key,
       od_get key (group_by_runner runner results by_runner)
       = match od_get key by_runner, List.filter (of_runner key) results with
         | Some l, added => Some (l ++ added)
         | None, [] => None
         | None, added => Some added
         end.
Proof.
  induction results as [|r results IH]; intros by_runner Hnd; simpl.
  - split; [exact Hnd|]. intros key.
    destruct (od_get key by_runner); [rewrite app_nil_r|]; reflexivity.
  - destruct (is_raw r) eqn:Hraw; simpl.
    + set (so_far := match od_get (Some (runner r)) by_runner with
                     | Some l => l | None => [] end).
      destruct (IH (od_set (Some (runner r)) (so_far ++ [r]) by_runner)
                  (od_set_NoDup _ _ _ Hnd)) as [Hnd' Hget].
      split; [exact Hnd'|]. intros key. rewrite Hget.
      destruct (decide (Some (runner r) = key)) as [<-|Hne].
      * rewrite od_get_set_eq, bool_decide_eq_true_2 by reflexivity.
        subst so_far. destruct (od_get (Some (runner r)) by_runner) as [l|].
        -- rewrite <- app_assoc. reflexivity.
        -- reflexivity.
      * rewrite od_get_set_ne by congruence.
        rewrite bool_decide_eq_false_2 by exact Hne. reflexivity.
    + apply IH, Hnd.
Qed.

Lemma results_by_runner_spec results groups :
  results_by_runner runner results = inr groups ->
  NoDup (map fst groups)
  /\ (forall name rs,
        (name, rs) ∈ groups ->
        rs <> [] /\ rs = List.filter (of_runner name) results)
  /\ (forall r, r ∈ results -> is_raw r = true ->
                exists rs, (Some (runner r), rs) ∈ groups /\ r ∈ rs).
Proof.
  unfold results_by_runner. intros Hrun.
  destruct (group_by_runner_spec results [] (NoDup_nil_2)) as [Hnd Hget].
  set (by_runner := group_by_runner runner results []) in *.
  destruct (sort_runner_names (map fst by_runner)) as [e|names] eqn:Hsort; [discriminate|].
  exn_step_in Hrun. injection Hrun as <-.
  assert (Hperm : Permutation names (map fst by_runner)).
  { unfold sort_runner_names in Hsort.
    destruct (decorate (map fst by_runner)) as [e|decorated] eqn:Hd; [discriminate|].
    exn_step_in Hsort. injection Hsort as <-.
    destruct (decorate_spec _ _ Hd) as [Hmap _]. rewrite <- Hmap.
    apply Permutation_map, sorted_perm. }
  assert (Hlookup : forall key,
             match od_get key by_runner with Some l => l | None => [] end
             = List.filter (of_runner key) results).
  { intros key. rewrite Hget. cbn. destruct (List.filter _ results); reflexivity. }
  split; [|split].
  - rewrite map_map. cbn. rewrite map_id. rewrite Hperm. exact Hnd.
  - intros name rs Hin. apply list_elem_of_fmap in Hin as (name' & [= -> ->] & Hname).
    split; [|apply Hlookup].
    assert (Hkey : name' ∈ map fst by_runner).
    { apply list_elem_of_In. apply (Permutation_in _ Hperm). apply list_elem_of_In, Hname. }
    intros Hnil. apply (proj1 (od_get_None name' by_runner)); [|exact Hkey].
    rewrite Hget. cbn. rewrite Hlookup in Hnil. rewrite Hnil. reflexivity.
  - intros r Hr Hraw. eexists. split.
    + apply list_elem_of_fmap. exists (Some (runner r)). split; [reflexivity|].
      apply list_elem_of_In. apply (Permutation_in _ (Permutation_sym Hperm)).
      apply list_elem_of_In. destruct (decide (Some (runner r) ∈ map fst by_runner)) as [H|H];
        [exact H|]. exfalso.
      apply od_get_None in H. rewrite Hget in H. cbn in H.
      assert (Hin : In r (List.filter (of_runner (Some (runner r))) results)).
      { apply filter_In. split; [apply list_elem_of_In, Hr|].
        rewrite Hraw, bool_decide_eq_true_2 by reflexivity. reflexivity. }
      destruct (List.filter _ results); [destruct Hin | discriminate H].
    + rewrite Hlookup. apply list_elem_of_In, filter_In.
      split; [apply list_elem_of_In, Hr|].
      rewrite Hraw, bool_decide_eq_true_2 by reflexivity. reflexivity.
Qed.

End ByRunnerFacts.

(** X8. When [results_by_runner] returns, the groups it yields partition the
    raw results by runner: no runner is yielded twice, every group is
    non-empty and holds exactly the raw results of its runner in the order
    they were given, and every raw result is in the group of its runner.
    Results that are not raw results are in no group. *)
Theorem results_by_runner_partitions (runner : GenerateResults.Result -> string)
    (results : list GenerateResults.Result)
    (groups : list (option string * list GenerateResults.Result)) :
  Catalog.results_by_runner runner results = inr groups ->
  NoDup (map fst groups)
  /\ (forall name rs,
        (name, rs) ∈ groups ->
        rs <> []
        /\ rs = List.filter
                  (fun r => Catalog.is_raw r && bool_decide (Some (runner r) = name))
                  results)
  /\ (forall r, r ∈ results -> Catalog.is_raw r = true ->
                exists rs, (Some (runner r), rs) ∈ groups /\ r ∈ rs).
Proof. exact (results_by_runner_spec runner results groups). Qed.

(** ** [get_most_recent_pystats] *)

Section FirstGreatest.
Import Collections.
Context {A : Type}.
Variable gt : A -> A -> bool.
Hypothesis Htrans : forall a b c, gt a b = true -> gt b c = true -> gt a c = true.
Hypothesis Hnegtrans : forall a b c, gt a b = false -> gt b c = false -> gt a c = false.

Local Abbreviation first_greatest := (Collections.first_greatest gt).

Lemma insert_sorted_head x h t l :
  first_greatest l h ->
  exists h' t', insert_sorted gt x (h :: t) = h' :: t' /\ first_greatest (l ++ [x]) h'.
Proof.
  intros (before & after & -> & Hbefore & Hafter). simpl.
  destruct (gt x h) eqn:Hxh.
  - exists x, (h :: t). split; [reflexivity|].
    exists (before ++ h :: after), []. split; [reflexivity|]. split.
    + intros c Hc. apply elem_of_app in Hc as [Hc|Hc].
      * exact (Htrans x h c Hxh (Hbefore c Hc)).
      * apply elem_of_cons in Hc as [->|Hc]; [exact Hxh|].
        destruct (gt x c) eqn:Hxc; [reflexivity|].
        rewrite <- Hxh. symmetry. exact (Hnegtrans x c h Hxc (Hafter c Hc)).
    + intros c Hc. inversion Hc.
  - exists h, (insert_sorted gt x t). split; [reflexivity|].
    exists before, (after ++ [x]). split; [rewrite <- app_assoc; reflexivity|].
    split; [exact Hbefore|].
    intros c Hc. apply elem_of_app in Hc as [Hc|Hc]; [apply Hafter, Hc|].
    apply list_elem_of_singleton in Hc. subst. exact Hxh.
Qed.

Lemma sorted_head l :
  match sorted gt l with
  | [] => l = []
  | h :: _ => first_greatest l h
  end.
Proof.
  unfold sorted.
  assert (Hgen : forall rest done acc,
             match acc with [] => done = [] | h :: _ => first_greatest done h end ->
             match fold_left (fun acc x => insert_sorted gt x acc) rest acc with
             | [] => done ++ rest = []
             | h :: _ => first_greatest (done ++ rest) h
             end).
  { induction rest as [|x rest IH]; intros done acc Hacc; simpl.
    - rewrite app_nil_r. exact Hacc.
    - replace (done ++ x :: rest) with ((done ++ [x]) ++ rest)
        by (rewrite <- app_assoc; reflexivity).
      apply IH. destruct acc as [|h t].
      + subst done. simpl. exists [], []. split; [reflexivity|].
        split; intros c Hc; inversion Hc.
      + destruct (insert_sorted_head x h t done Hacc) as (h' & t' & -> & Hfirst).
        exact Hfirst. }
  apply (Hgen l [] []). reflexivity.
Qed.

End FirstGreatest.

Section PystatsFacts.
Import Collections Catalog.
Variable fork commit_datetime : GenerateResults.Result -> string.
Variable flags : GenerateResults.Result -> list string.

Local Abbreviation later := (fun a b => pystats_lt commit_datetime flags b a).

Lemma pystats_lt_trans a b c :
  pystats_lt commit_datetime flags a b = true ->
  pystats_lt commit_datetime flags b c = true ->
  pystats_lt commit_datetime flags a c = true.
Proof.
  unfold pystats_lt. intros Hab Hbc.
  apply orb_true_iff in Hab as [Hab|Hab]; apply orb_true_iff in Hbc as [Hbc|Hbc];
    apply orb_true_iff.
  - left. exact (string_ltb_trans _ _ _ Hab Hbc).
  - apply andb_true_iff in Hbc as [Heq _]. apply String.eqb_eq in Heq.
    rewrite <- Heq. left. exact Hab.
  - apply andb_true_iff in Hab as [Heq _]. apply String.eqb_eq in Heq.
    rewrite Heq. left. exact Hbc.
  - apply andb_true_iff in Hab as [Heq1 Hn1]. apply andb_true_iff in Hbc as [Heq2 Hn2].
    apply String.eqb_eq in Heq1, Heq2. apply Nat.ltb_lt in Hn1, Hn2.
    right. rewrite Heq1, Heq2, String.eqb_refl. simpl. apply Nat.ltb_lt. lia.
Qed.

Lemma pystats_lt_negtrans a b c :
  pystats_lt commit_datetime flags a b = false ->
  pystats_lt commit_datetime flags b c = false ->
  pystats_lt commit_datetime flags a c = false.
Proof.
  unfold pystats_lt. intros Hab Hbc.
  apply orb_false_iff in Hab as [Hab Hab']. apply orb_false_iff in Hbc as [Hbc Hbc'].
  apply orb_false_iff. split; [exact (string_ltb_negtrans _ _ _ Hab Hbc)|].
  destruct (String.eqb_spec (commit_datetime a) (commit_datetime c)) as [Heq|Hne];
    [|reflexivity]. simpl.
  assert (Hb : commit_datetime a = commit_datetime b).
  { apply string_ltb_total; [exact Hab|]. rewrite Heq. exact Hbc. }
  rewrite Hb, String.eqb_refl in Hab'. rewrite <- Hb, Heq, String.eqb_refl in Hbc'.
  simpl in *. apply Nat.ltb_ge in Hab', Hbc'. apply Nat.ltb_ge. lia.
Qed.

Lemma get_most_recent_pystats_spec results :
  match get_most_recent_pystats fork commit_datetime flags results with
  | None => forall r, r ∈ results -> is_pystats_candidate fork r = false
  | Some r =>
      first_greatest later (List.filter (is_pystats_candidate fork) results) r
  end.
Proof.
  unfold get_most_recent_pystats, sorted_reverse.
  pose proof (sorted_head later
                (fun a b c Hab Hbc => pystats_lt_trans c b a Hbc Hab)
                (fun a b c Hab Hbc => pystats_lt_negtrans c b a Hbc Hab)
                (List.filter (is_pystats_candidate fork) results)) as Hhead.
  destruct (List.filter (is_pystats_candidate fork) results) as [|c cs] eqn:Hfilter.
  - simpl. intros r Hr.
    destruct (is_pystats_candidate fork r) eqn:Hc; [|reflexivity].
    assert (Hin : In r (List.filter (is_pystats_candidate fork) results)).
    { apply filter_In. split; [apply list_elem_of_In, Hr | exact Hc]. }
    rewrite Hfilter in Hin. destruct Hin.
  - change (0 <? length (c :: cs)) with true. cbv iota.
    destruct (sorted later (c :: cs)) as [|h t]; [discriminate Hhead|].
    exact Hhead.
Qed.

End PystatsFacts.

(** X9. [get_most_recent_pystats] returns [None] exactly when no result is
    a pystats result of the fork ["python"]. Otherwise it returns the first,
    in the order given, of the candidates with the greatest pair of commit
    time and number of flags: every candidate before it has a smaller pair
    and no candidate after it has a greater one. *)
Theorem get_most_recent_pystats_first_latest
    (fork commit_datetime : GenerateResults.Result -> string)
    (flags : GenerateResults.Result -> list string)
    (results : list GenerateResults.Result) :
  let most_recent := Catalog.get_most_recent_pystats fork commit_datetime flags results in
  let candidates := List.filter (Catalog.is_pystats_candidate fork) results in
  (most_recent = None <-> candidates = [])
  /\ forall r,
       most_recent = Some r ->
       r ∈ results
       /\ Catalog.is_pystats_candidate fork r = true
       /\ exists before after,
            candidates = before ++ r :: after
            /\ (forall c, c ∈ before -> Catalog.pystats_lt commit_datetime flags c r = true)
            /\ (forall c, c ∈ after -> Catalog.pystats_lt commit_datetime flags r c = false).
Proof.
  intros most_recent candidates.
  pose proof (get_most_recent_pystats_spec fork commit_datetime flags results) as Hspec.
  fold most_recent in Hspec. fold candidates in Hspec. split.
  - split.
    + intros Hnone. rewrite Hnone in Hspec.
      destruct candidates as [|c cs] eqn:Hc; [reflexivity|]. exfalso.
      assert (Hin : In c (List.filter (Catalog.is_pystats_candidate fork) results)).
      { fold candidates. rewrite Hc. left. reflexivity. }
      apply filter_In in Hin as [Hin Hcand].
      rewrite (Hspec c) in Hcand; [discriminate | apply list_elem_of_In, Hin].
    + intros Hnil. destruct most_recent as [r|]; [|reflexivity].
      destruct Hspec as (before & after & Heq & _). rewrite Hnil in Heq.
      destruct before; discriminate Heq.
  - intros r Hr. rewrite Hr in Hspec. destruct Hspec as (before & after & Heq & Hb & Ha).
    assert (Hin : In r (List.filter (Catalog.is_pystats_candidate fork) results)).
    { fold candidates. rewrite Heq. apply in_elt. }
    apply filter_In in Hin as [Hin Hcand].
    split; [apply list_elem_of_In, Hin|]. split; [exact Hcand|].
    exists before, after. split; [exact Heq|]. split; assumption.
Qed.

(** ** [find_different_benchmarks] *)

Section SortedNamesFacts.
Import Collections Catalog.

Lemma StronglySorted_NoDup_strict (l : list string) :
  StronglySorted (fun a b => String.ltb b a = false) l -> NoDup l ->
  StronglySorted (fun a b => String.ltb a b = true) l.
Proof.
  induction 1 as [|x l Hsorted IH Hall]; intros Hnd; [constructor|].
  apply NoDup_cons in Hnd as [Hx Hnd]. constructor; [apply IH, Hnd|].
  rewrite Forall_forall in Hall |- *. intros y Hy.
  destruct (String.ltb x y) eqn:Hxy; [reflexivity|]. exfalso. apply Hx.
  rewrite (string_ltb_total x y Hxy (Hall y Hy)). exact Hy.
Qed.

Lemma sorted_names_spec (names : gset string) :
  (forall x, x ∈ sorted_names names <-> x ∈ names)
  /\ StronglySorted (fun a b => String.ltb a b = true) (sorted_names names).
Proof.
  unfold sorted_names.
  pose proof (sorted_perm String.ltb (elements names)) as Hperm.
  split.
  - intros x. rewrite <- elem_of_elements. split; intros Hx.
    + apply list_elem_of_In. apply (Permutation_in _ Hperm). apply list_elem_of_In, Hx.
    + apply list_elem_of_In. apply (Permutation_in _ (Permutation_sym Hperm)).
      apply list_elem_of_In, Hx.
  - apply StronglySorted_NoDup_strict.
    + apply sorted_strongly; [exact string_ltb_asym | exact string_ltb_trans].
    + rewrite Hperm. apply NoDup_elements.
Qed.

End SortedNamesFacts.

(** X10. [find_different_benchmarks] returns two lists in strictly ascending
    order, hence without duplicates: the first holds exactly the names the
    reference has and the head lacks, the second exactly the names the head
    has and the reference lacks; no name is in both. *)
Theorem find_different_benchmarks_exact
    (benchmark_names : GenerateResults.Result -> gset string)
    (head ref : GenerateResults.Result) :
  let missing := fst (Catalog.find_different_benchmarks benchmark_names head ref) in
  let new := snd (Catalog.find_different_benchmarks benchmark_names head ref) in
  (forall x, x ∈ missing <-> x ∈ benchmark_names ref /\ x ∉ benchmark_names head)
  /\ (forall x, x ∈ new <-> x ∈ benchmark_names head /\ x ∉ benchmark_names ref)
  /\ StronglySorted (fun a b => String.ltb a b = true) missing
  /\ StronglySorted (fun a b => String.ltb a b = true) new
  /\ (forall x, x ∈ missing -> x ∉ new).
Proof.
  intros missing new. subst missing new. unfold Catalog.find_different_benchmarks.
  cbn [fst snd].
  destruct (sorted_names_spec (benchmark_names ref ∖ benchmark_names head)) as [Hm Hms].
  destruct (sorted_names_spec (benchmark_names head ∖ benchmark_names ref)) as [Hn Hns].
  split; [intros x; rewrite Hm; apply elem_of_difference|].
  split; [intros x; rewrite Hn; apply elem_of_difference|].
  split; [exact Hms|]. split; [exact Hns|].
  intros x Hx Hx'. apply Hm, elem_of_difference in Hx. apply Hn, elem_of_difference in Hx'.
  tauto.
Qed.

(** ** Writing the comparison files *)

Section WritingFacts.
Import GenerateResults Files.

Lemma only_adds_refl fs : only_adds fs fs.
Proof.
  intros dir. destruct (fs !! dir) as [names|]; [|reflexivity].
  exists []. rewrite app_nil_r. reflexivity.
Qed.

Lemma only_adds_trans fs1 fs2 fs3 : only_adds fs1 fs2 -> only_adds fs2 fs3 -> only_adds fs1 fs3.
Proof.
  intros H12 H23 dir. specialize (H12 dir). specialize (H23 dir).
  destruct (fs1 !! dir) as [names|].
  - destruct H12 as [added H12]. rewrite H12 in H23. destruct H23 as [added' H23].
    exists (added ++ added'). rewrite H23, app_assoc. reflexivity.
  - rewrite H12 in H23. exact H23.
Qed.

Lemma only_adds_exists fs fs' p : only_adds fs fs' -> exists_ fs p = true -> exists_ fs' p = true.
Proof.
  intros Hadds. unfold exists_. specialize (Hadds (parent p)).
  destruct (fs !! parent p) as [names|]; [|discriminate].
  destruct Hadds as [added ->]. intros Hin. apply bool_decide_eq_true_1 in Hin.
  apply bool_decide_eq_true_2, elem_of_app. left. exact Hin.
Qed.

Lemma create_only_adds fs p fs' :
  create fs p = inr fs' -> only_adds fs fs' /\ exists_ fs' p = true.
Proof.
  unfold create, exists_. destruct (fs !! parent p) as [names|] eqn:Hdir; [|discriminate].
  destruct (decide (name p ∈ names)) as [Hin|Hin].
  - rewrite bool_decide_eq_true_2 by exact Hin. intros [= <-].
    split; [apply only_adds_refl|]. rewrite Hdir. apply bool_decide_eq_true_2, Hin.
  - rewrite bool_decide_eq_false_2 by exact Hin. intros [= <-]. split.
    + intros dir. destruct (decide (dir = parent p)) as [->|Hne].
      * rewrite Hdir, lookup_insert_eq. eauto.
      * rewrite lookup_insert_ne by congruence.
        destruct (fs !! dir); [|reflexivity]. exists []. rewrite app_nil_r. reflexivity.
    + rewrite lookup_insert_eq. apply bool_decide_eq_true_2, elem_of_app. right. constructor.
Qed.

(** A writer run on a file that is not there. *)
Lemma run_writer_absent func filename compare fs fs' :
  exists_ fs filename = false ->
  run_writer func filename compare fs = inr fs' ->
  only_adds fs fs'
  /\ (exists_ fs' filename = true
      \/ (fs' = fs /\ func <> write_plot_results /\ contents compare = None)).
Proof.
  intros Habsent. unfold run_writer.
  destruct func; rewrite ?Habsent; exn_step.
  - destruct (contents compare); intros Hrun.
    + destruct (create_only_adds _ _ _ Hrun). split; [assumption | left; assumption].
    + injection Hrun as <-. split; [apply only_adds_refl|]. right. repeat split. discriminate.
  - destruct (plot_diff_raises compare); intros Hrun; [discriminate Hrun|].
    destruct (create_only_adds _ _ _ Hrun). split; [assumption | left; assumption].
  - destruct (contents compare); intros Hrun.
    + destruct (create_only_adds _ _ _ Hrun). split; [assumption | left; assumption].
    + injection Hrun as <-. split; [apply only_adds_refl|]. right. repeat split. discriminate.
Qed.

Lemma run_writer_nothing func filename compare fs :
  exists_ fs filename = false -> func <> write_plot_results -> contents compare = None ->
  run_writer func filename compare fs = inr fs.
Proof.
  intros Habsent Hfunc Hnone. unfold run_writer.
  destruct func; try congruence; rewrite Habsent, Hnone; reflexivity.
Qed.

Lemma write_suffixes_unforced base_filename compare : forall types fs fs',
  write_suffixes types base_filename compare false fs = inr fs' ->
  only_adds fs fs'
  /\ forall fs'', only_adds fs' fs'' ->
                  write_suffixes types base_filename compare false fs'' = inr fs''.
Proof.
  induction types as [|[suffix func] types IH]; intros fs fs' Hrun; simpl in Hrun.
  - injection Hrun as <-. split; [apply only_adds_refl | reflexivity].
  - destruct (with_suffix base_filename suffix) as [e|filename] eqn:Hname; [discriminate|].
    exn_step_in Hrun. rewrite orb_false_r in Hrun.
    destruct (exists_ fs filename) eqn:Hexists; simpl in Hrun.
    + exn_step_in Hrun. destruct (IH _ _ Hrun) as [Hadds Hfix].
      split; [exact Hadds|]. intros fs'' Hext. simpl. rewrite Hname. exn_step.
      rewrite (only_adds_exists fs fs'' filename (only_adds_trans _ _ _ Hadds Hext) Hexists).
      simpl. exn_step. apply Hfix, Hext.
    + destruct (run_writer func filename compare fs) as [e|fs1] eqn:Hwrite; [discriminate|].
      exn_step_in Hrun.
      destruct (run_writer_absent _ _ _ _ _ Hexists Hwrite) as [Hadds1 Hcase].
      destruct (IH _ _ Hrun) as [Hadds Hfix].
      split; [exact (only_adds_trans _ _ _ Hadds1 Hadds)|].
      intros fs'' Hext. simpl. rewrite Hname. exn_step. rewrite orb_false_r.
      destruct (exists_ fs'' filename) eqn:Hexists''; simpl; exn_step.
      * apply Hfix, Hext.
      * destruct Hcase as [Hthere|(_ & Hfunc & Hnone)].
        -- rewrite (only_adds_exists fs1 fs'' filename
                      (only_adds_trans _ _ _ Hadds Hext) Hthere) in Hexists''.
           discriminate.
        -- rewrite (run_writer_nothing func filename compare fs'' Hexists'' Hfunc Hnone).
           exn_step. apply Hfix, Hext.
Qed.

Lemma write_comparisons_unforced result : forall compares fs fs',
  write_comparisons result compares false fs = inr fs' ->
  only_adds fs fs'
  /\ forall fs'', only_adds fs' fs'' ->
                  write_comparisons result compares false fs'' = inr fs''.
Proof.
  induction compares as [|compare compares IH]; intros fs fs' Hrun; simpl in Hrun.
  - injection Hrun as <-. split; [apply only_adds_refl | reflexivity].
  - destruct (c_filename compare) as [base_filename|] eqn:Hfile.
    + destruct (RESULT_TYPES (fst (result_info result))) as [e|types] eqn:Htypes;
        [discriminate|].
      exn_step_in Hrun.
      destruct (write_suffixes types base_filename compare false fs) as [e|fs1] eqn:Hw;
        [discriminate|].
      exn_step_in Hrun.
      destruct (write_suffixes_unforced _ _ _ _ _ Hw) as [Hadds1 Hfix1].
      destruct (IH _ _ Hrun) as [Hadds Hfix].
      split; [exact (only_adds_trans _ _ _ Hadds1 Hadds)|].
      intros fs'' Hext. simpl. rewrite Hfile, Htypes. exn_step.
      rewrite (Hfix1 fs'' (only_adds_trans _ _ _ Hadds Hext)). exn_step.
      apply Hfix, Hext.
    + exn_step_in Hrun. destruct (IH _ _ Hrun) as [Hadds Hfix].
      split; [exact Hadds|]. intros fs'' Hext. simpl. rewrite Hfile. exn_step.
      apply Hfix, Hext.
Qed.

End WritingFacts.

(** X11. Without [force], writing the comparison files of a result only
    adds files: every directory keeps its listing, extended at the end, and
    no file that was there is removed. Writing them a second time changes
    nothing. *)
Theorem write_comparisons_unforced_adds_once (result : GenerateResults.Result)
    (compares : list GenerateResults.Comparison) (fs fs' : GenerateResults.file_system) :
  GenerateResults.write_comparisons result compares false fs = inr fs' ->
  Files.only_adds fs fs'
  /\ (forall p, GenerateResults.exists_ fs p = true -> GenerateResults.exists_ fs' p = true)
  /\ GenerateResults.write_comparisons result compares false fs' = inr fs'.
Proof.
  intros Hrun. destruct (write_comparisons_unforced result compares fs fs' Hrun) as [Hadds Hfix].
  split; [exact Hadds|]. split.
  - intros p. apply only_adds_exists, Hadds.
  - apply Hfix, only_adds_refl.
Qed.

Section ReportWriterFacts.
Import GenerateResults.

Lemma unlink_spec fs p fs' :
  unlink fs p = inr fs' ->
  exists_ fs' p = false /\ forall q, q <> p -> exists_ fs' q = exists_ fs q.
Proof.
  unfold unlink, exists_. destruct (fs !! parent p) as [names|] eqn:Hdir; [|discriminate].
  destruct (bool_decide (name p ∈ names)); [|discriminate]. intros [= <-]. split.
  - rewrite lookup_insert_eq. apply bool_decide_eq_false_2.
    rewrite list_elem_of_filter. intros [Hne _]. congruence.
  - intros q Hq. destruct (decide (parent q = parent p)) as [Heq|Hne].
    + rewrite Heq, lookup_insert_eq, Hdir. apply bool_decide_ext.
      rewrite list_elem_of_filter. split; [intros [_ H]; exact H|].
      intros Hin. split; [|exact Hin]. intros Hname. apply Hq.
      destruct q, p. simpl in *. congruence.
    + rewrite lookup_insert_ne by congruence. reflexivity.
Qed.

Lemma create_spec fs p fs' :
  create fs p = inr fs' ->
  exists_ fs' p = true /\ forall q, q <> p -> exists_ fs' q = exists_ fs q.
Proof.
  unfold create, exists_. destruct (fs !! parent p) as [names|] eqn:Hdir; [|discriminate].
  destruct (decide (name p ∈ names)) as [Hin|Hin].
  - rewrite bool_decide_eq_true_2 by exact Hin. intros [= <-].
    rewrite Hdir. split; [apply bool_decide_eq_true_2, Hin | reflexivity].
  - rewrite bool_decide_eq_false_2 by exact Hin. intros [= <-]. split.
    + rewrite lookup_insert_eq. apply bool_decide_eq_true_2, elem_of_app. right. constructor.
    + intros q Hq. destruct (decide (parent q = parent p)) as [Heq|Hne].
      * rewrite Heq, lookup_insert_eq, Hdir. apply bool_decide_ext.
        rewrite elem_of_app, list_elem_of_singleton. split; [|left; assumption].
        intros [H|Hname]; [exact H|]. exfalso. apply Hq.
        destruct q, p. simpl in *. congruence.
      * rewrite lookup_insert_ne by congruence. reflexivity.
Qed.

Lemma report_writer_spec func filename compare fs :
  func <> write_plot_results ->
  match run_writer func filename compare fs with
  | inr fs' =>
      exists_ fs' filename = match contents compare with Some _ => true | None => false end
      /\ forall q, q <> filename -> exists_ fs' q = exists_ fs q
  | inl e =>
      e = FileNotFoundError /\ contents compare <> None /\ fs !! parent filename = None
  end.
Proof.
  intros Hfunc.
  assert (Hrun : run_writer func filename compare fs
                 = (fs ← (if exists_ fs filename then unlink fs filename else inr fs);
                    match contents compare with
                    | None => inr fs
                    | Some _ => create fs filename
                    end)).
  { destruct func; try reflexivity. congruence. }
  rewrite Hrun. clear Hrun.
  assert (Hfirst : exists fs1,
             (if exists_ fs filename then unlink fs filename else inr fs) = inr fs1
             /\ exists_ fs1 filename = false
             /\ (forall q, q <> filename -> exists_ fs1 q = exists_ fs q)
             /\ (fs1 !! parent filename = None -> fs !! parent filename = None)).
  { destruct (exists_ fs filename) eqn:Hexists.
    - unfold exists_ in Hexists.
      destruct (fs !! parent filename) as [names|] eqn:Hdir; [|discriminate].
      destruct (unlink fs filename) as [e|fs1] eqn:Hunlink.
      + unfold unlink in Hunlink. rewrite Hdir, Hexists in Hunlink. discriminate.
      + exists fs1. destruct (unlink_spec _ _ _ Hunlink) as [Hgone Hrest].
        repeat split; try assumption.
        unfold unlink in Hunlink. rewrite Hdir, Hexists in Hunlink.
        injection Hunlink as <-. rewrite lookup_insert_eq. discriminate.
    - exists fs. repeat split; [exact Hexists | exact id]. }
  destruct Hfirst as (fs1 & -> & Hgone & Hrest & Hdir). exn_step.
  destruct (contents compare) as [text|].
  - destruct (create fs1 filename) as [e|fs'] eqn:Hcreate.
    + unfold create in Hcreate.
      destruct (fs1 !! parent filename) as [names|] eqn:Hdir1.
      * destruct (bool_decide (name filename ∈ names)); discriminate.
      * injection Hcreate as <-. repeat split; [discriminate | apply Hdir; reflexivity].
    + destruct (create_spec _ _ _ Hcreate) as [Hthere Hrest'].
      split; [exact Hthere|]. intros q Hq. rewrite (Hrest' q Hq). apply Hrest, Hq.
  - split; assumption.
Qed.

End ReportWriterFacts.

(** X12. After [write_markdown_results] or [write_pystats_diff] has run for
    a file, the file is there exactly when the comparison has contents: a
    report that was there is removed when the comparison has none. No other
    file appears or disappears. The writer fails only when there are
    contents to write and the directory does not exist. *)
Theorem report_writer_leaves_file_iff_contents (func : GenerateResults.writer)
    (filename : GenerateResults.path) (compare : GenerateResults.Comparison)
    (fs : GenerateResults.file_system) :
  func <> GenerateResults.write_plot_results ->
  match GenerateResults.run_writer func filename compare fs with
  | inr fs' =>
      GenerateResults.exists_ fs' filename
      = match GenerateResults.contents compare with Some _ => true | None => false end
      /\ forall q, q <> filename ->
                   GenerateResults.exists_ fs' q = GenerateResults.exists_ fs q
  | inl e =>
      e = FileNotFoundError
      /\ GenerateResults.contents compare <> None
      /\ fs !! GenerateResults.parent filename = None
  end.
Proof. exact (report_writer_spec func filename compare fs). Qed.

(** ** Removing outdated comparison files, again *)

(** X13. Pruning is idempotent. In a directory whose names are distinct and
    whose result files are not themselves named like comparison files, what
    the loop over a result's directory leaves is left unchanged by running
    the loop for that result again. *)
Theorem remove_outdated_idempotent (result : GenerateResults.Result)
    (fs fs' : GenerateResults.file_system) (names : list string) :
  let dir := GenerateResults.parent (GenerateResults.filename result) in
  fs !! dir = Some names ->
  NoDup names ->
  (forall n root base,
      n ∈ names ->
      GenerateResults.re_match_vs (GenerateResults.stem (dir, n)) = Some (root, base) ->
      (root +:+ ".json") ∈ names ->
      GenerateResults.re_match_vs (GenerateResults.stem (dir, root +:+ ".json")) = None) ->
  GenerateResults.remove_outdated result fs = inr fs' ->
  GenerateResults.remove_outdated result fs' = inr fs'.
Proof.
  intros dir Hdir Hnodup Hprimary Hrun. subst dir.
  rewrite (remove_outdated_filter result fs names Hdir Hnodup Hprimary) in Hrun.
  injection Hrun as <-.
  set (kept := filter (fun n => GenerateResults.outdated result fs
                                  (GenerateResults.parent (GenerateResults.filename result), n)
                                = false) names).
  assert (Hsub : forall x, x ∈ kept -> x ∈ names).
  { intros x Hx. apply list_elem_of_filter in Hx as [_ Hx]. exact Hx. }
  assert (Hunmatched : forall x,
             GenerateResults.re_match_vs (GenerateResults.stem (GenerateResults.parent (GenerateResults.filename result), x)) = None ->
             x ∈ names -> x ∈ kept).
  { intros x Hx Hin. apply list_elem_of_filter. split; [|exact Hin].
    unfold GenerateResults.outdated. rewrite Hx. reflexivity. }
  rewrite (remove_outdated_filter result (<[GenerateResults.parent (GenerateResults.filename result) := kept]> fs) kept).
  - rewrite insert_insert_eq. f_equal. f_equal. apply filter_all.
    intros n Hn. cbv beta.
    rewrite (outdated_stable result fs names Hdir Hprimary kept n (Hsub n Hn) Hsub Hunmatched).
    apply list_elem_of_filter in Hn as [Hn _]. exact Hn.
  - apply lookup_insert_eq.
  - apply NoDup_filter, Hnodup.
  - intros n root base Hn Hmatch Hjson.
    exact (Hprimary n root base (Hsub n Hn) Hmatch (Hsub _ Hjson)).
Qed.

Lemma remove_outdated_idempotent_witness :
  GenerateResults.remove_outdated Samples.result_with_base_only Samples.directory_after
  = inr Samples.directory_after.
Proof.
  apply (remove_outdated_idempotent Samples.result_with_base_only Samples.directory_before
           Samples.directory_after
           ["bm-20240105-linux.json";
            "bm-20240105-linux-vs-base.md";
            "bm-20240105-linux-vs-base.png";
            "bm-20240105-linux-vs-3.10.4.md";
            "bm-20240105-linux-vs-3.10.4.png";
            "README.md"]).
  - reflexivity.
  - apply (bool_decide_unpack _). vm_compute. exact I.
  - intros n root base Hn Hmatch _.
    repeat (apply elem_of_cons in Hn as [->|Hn]); try (inversion Hn; fail);
      vm_compute in Hmatch; try discriminate Hmatch;
      injection Hmatch as <- <-; vm_compute; reflexivity.
  - vm_compute. reflexivity.
Defined.

(** ** The entries of the directory indices and their fold *)

Section DirectoryIndexFacts.
Import GenerateResults DirectoryIndex.
Variable runner fork ref : Result -> string.
Variable is_tier2 : Result -> bool.
Variable cpython_hash commit_datetime : Result -> string.
Variable commit_merge_base github_action_url : Result -> option string.
Variable cpu_model_name platform : Result -> string.
Variable benchmark_names : Result -> gset string.
Variable long_summary : Comparison -> string.
Variable compare_ref : Comparison -> Result.
Variable unquote : string -> string.
Variable link_to_hash md_link : string -> string -> string.
Variable from_filename : path -> Result.
Variable set_order : list string -> list string.

Local Abbreviation arity4 := (Forall (fun e : entry => length e = 4)).
Local Abbreviation result_entries' :=
  (result_entries runner fork is_tier2 cpython_hash commit_datetime commit_merge_base
     github_action_url cpu_model_name platform benchmark_names long_summary compare_ref
     unquote link_to_hash md_link).
Local Abbreviation entries_of :=
  (get_directory_indices_entries runner fork ref is_tier2 cpython_hash commit_datetime
     commit_merge_base github_action_url cpu_model_name platform benchmark_names
     long_summary compare_ref unquote link_to_hash md_link from_filename set_order).

Lemma base_entries_arity dirpath result base compare :
  arity4 (base_entries runner benchmark_names long_summary compare_ref
            dirpath result base compare).
Proof.
  unfold base_entries.
  destruct (Catalog.find_different_benchmarks _ _ _) as [missing new].
  repeat (apply Forall_app; split).
  - repeat constructor.
  - destruct (0 <? length missing); repeat constructor.
  - destruct (0 <? length new); repeat constructor.
Qed.

Lemma result_entries_arity result : arity4 (result_entries' result).
Proof.
  unfold result_entries.
  repeat (apply Forall_app; split).
  - repeat constructor.
  - destruct (commit_merge_base result); repeat constructor.
  - destruct (github_action_url result); repeat constructor.
  - repeat constructor.
  - destruct (Catalog.is_raw result); [|constructor].
    apply Forall_flat_map. apply Forall_forall. intros [base compare] _.
    apply base_entries_arity.
Qed.

Lemma file_entries_arity dirpath file :
  arity4 (file_entries runner md_link from_filename dirpath file).
Proof.
  unfold file_entries. destruct (String.eqb (name file) "README.md"); [constructor|].
  destruct (result_info (from_filename file)) as [[type|] base]; repeat constructor.
Qed.

Lemma directories_entries_arity fs results : forall dirpaths later,
  directories_entries runner ref md_link from_filename fs results dirpaths = inr later ->
  arity4 later.
Proof.
  induction dirpaths as [|dirpath dirpaths IH]; intros later Hlater; simpl in Hlater.
  - injection Hlater as <-. constructor.
  - unfold directory_entries in Hlater.
    destruct (iterdir fs dirpath) as [e|files]; [discriminate|]. exn_step_in Hlater.
    destruct (directories_entries _ _ _ _ fs results dirpaths) as [e|rest]; [discriminate|].
    exn_step_in Hlater. injection Hlater as <-.
    constructor; [reflexivity|]. apply Forall_app. split.
    + apply Forall_flat_map. apply Forall_forall. intros file _. apply file_entries_arity.
    + apply IH. reflexivity.
Qed.

Lemma entries_arity fs results entries :
  entries_of fs results = inr entries ->
  arity4 entries /\ forall result, result ∈ results ->
                                   forall e, e ∈ result_entries' result -> e ∈ entries.
Proof.
  unfold get_directory_indices_entries.
  destruct (directories_entries _ _ _ _ fs results _) as [e|later] eqn:Hlater; [discriminate|].
  exn_step. intros [= <-]. split.
  - apply Forall_app. split; [|exact (directories_entries_arity _ _ _ _ Hlater)].
    apply Forall_flat_map. apply Forall_forall. intros result _.
    apply result_entries_arity.
  - intros result Hresult e He. apply elem_of_app. left.
    apply list_elem_of_In, in_flat_map. exists result.
    split; apply list_elem_of_In; assumption.
Qed.

Lemma dirpaths_of_nil seen : dirpaths_of [] seen = seen.
Proof. reflexivity. Qed.

(** What [folded] says of a tuple of four fields in a structure where the
    lists lie three dictionaries deep. *)
Lemma folded_four k1 k2 k3 text d :
  has_depth 3 d -> folded [k1; k2; k3; text] d ->
  exists m1 m2 m3 items,
    d = PyDict m1
    /\ dict_get k1 m1 = Some (PyDict m2)
    /\ dict_get k2 m2 = Some (PyDict m3)
    /\ dict_get k3 m3 = Some (PyList items)
    /\ text ∈ items.
Proof.
  intros Hdepth Hf. destruct d as [|m1]; [destruct Hf|].
  rewrite folded_deeper in Hf.
  destruct (dict_get k1 m1) as [c1|] eqn:H1; [|destruct Hf].
  pose proof (dict_get_Forall (has_depth 2) k1 m1 c1 Hdepth H1) as Hd1.
  destruct c1 as [|m2]; [destruct Hf|].
  rewrite folded_deeper in Hf.
  destruct (dict_get k2 m2) as [c2|] eqn:H2; [|destruct Hf].
  pose proof (dict_get_Forall (has_depth 1) k2 m2 c2 Hd1 H2) as Hd2.
  destruct c2 as [|m3]; [destruct Hf|].
  rewrite folded_pair in Hf.
  destruct (dict_get k3 m3) as [c3|] eqn:H3; [|destruct Hf].
  pose proof (dict_get_Forall (has_depth 0) k3 m3 c3 Hd2 H3) as Hd3.
  destruct c3 as [items|sub]; [|destruct Hd3].
  exists m1, m2, m3, items. repeat split; assumption.
Qed.

Lemma directory_structure_spec fs results entries :
  entries_of fs results = inr entries ->
  match results with
  | [] =>
      (forall l, Permutation (set_order l) l) ->
      _tuple_to_nested_dicts entries None = inl AssertionError
  | _ :: _ =>
      exists structure,
        _tuple_to_nested_dicts entries None = inr structure
        /\ has_depth 3 structure
        /\ forall result e, result ∈ results -> e ∈ result_entries' result ->
                            folded e structure
  end.
Proof.
  intros Hentries. destruct results as [|first results].
  - intros Hperm. unfold get_directory_indices_entries in Hentries. simpl in Hentries.
    pose proof (Hperm []) as Hnil. apply Permutation_nil_r in Hnil.
    rewrite Hnil in Hentries. simpl in Hentries. exn_step_in Hentries.
    injection Hentries as <-. reflexivity.
  - destruct (entries_arity fs _ entries Hentries) as [Harity Hin].
    assert (Hnonempty : entries <> []).
    { intros ->. specialize (Hin first ltac:(left)
        [PyPath (parent (filename first)); PyNone; PyNone;
         PyStr ("fork: " +:+ unquote (fork first))]).
      assert (Hfalse : [PyPath (parent (filename first)); PyNone; PyNone;
                        PyStr ("fork: " +:+ unquote (fork first))] ∈ ([] : list entry)).
      { apply Hin. unfold result_entries. apply elem_of_app. left. left. }
      inversion Hfalse. }
    unfold _tuple_to_nested_dicts.
    rewrite bool_decide_eq_true_2 by exact (arities_agree entries 4 Hnonempty Harity).
    destruct (for_each_has_depth 2 entries (PyDict []) Harity) as (structure & Hfold & Hdepth);
      [constructor|].
    exists structure. split; [exact Hfold|]. split; [exact Hdepth|].
    intros result e Hresult He.
    exact (for_each_folded entries _ structure e Hfold (Hin result Hresult e He)).
Qed.

End DirectoryIndexFacts.

(** X14. The entries of the directory indices and their fold. Every entry
    [get_directory_indices_entries] produces has four fields. For an empty
    list of results there is no entry, and the fold that
    [generate_directory_indices] starts with fails its assertion. For a
    non-empty list the fold succeeds, every list of the structure lies three
    dictionaries deep, and for every result given the lookups
    [structure[dirpath][None][None]] and [structure[dirpath][runner][None]]
    find lists, which hold the result's ["fork: ..."] and ["cpu model: ..."]
    lines. *)
Theorem directory_structure_of_results
    (runner fork ref : GenerateResults.Result -> string)
    (is_tier2 : GenerateResults.Result -> bool)
    (cpython_hash commit_datetime : GenerateResults.Result -> string)
    (commit_merge_base github_action_url : GenerateResults.Result -> option string)
    (cpu_model_name platform : GenerateResults.Result -> string)
    (benchmark_names : GenerateResults.Result -> gset string)
    (long_summary : GenerateResults.Comparison -> string)
    (compare_ref : GenerateResults.Comparison -> GenerateResults.Result)
    (unquote : string -> string) (link_to_hash md_link : string -> string -> string)
    (from_filename : GenerateResults.path -> GenerateResults.Result)
    (set_order : list string -> list string)
    (fs : GenerateResults.file_system) (results : list GenerateResults.Result) :
  let entries_of :=
    DirectoryIndex.get_directory_indices_entries runner fork ref is_tier2 cpython_hash
      commit_datetime commit_merge_base github_action_url cpu_model_name platform
      benchmark_names long_summary compare_ref unquote link_to_hash md_link from_filename
      set_order in
  let structure_of :=
    DirectoryIndex.directory_structure runner fork ref is_tier2 cpython_hash
      commit_datetime commit_merge_base github_action_url cpu_model_name platform
      benchmark_names long_summary compare_ref unquote link_to_hash md_link from_filename
      set_order in
  (forall l, Permutation (set_order l) l) ->
  (results = [] -> structure_of fs results = inl AssertionError)
  /\ forall entries,
       entries_of fs results = inr entries ->
       Forall (fun e => length e = 4) entries
       /\ (results <> [] ->
           exists top,
             structure_of fs results = inr (GenerateResults.PyDict top)
             /\ GenerateResults.has_depth 3 (GenerateResults.PyDict top)
             /\ forall result,
                  result ∈ results ->
                  exists dirresults general_dict general machine_dict machine,
                    GenerateResults.dict_get
                      (GenerateResults.PyPath
                         (GenerateResults.parent (GenerateResults.filename result))) top
                    = Some (GenerateResults.PyDict dirresults)
                    /\ GenerateResults.dict_get GenerateResults.PyNone dirresults
                       = Some (GenerateResults.PyDict general_dict)
                    /\ GenerateResults.dict_get GenerateResults.PyNone general_dict
                       = Some (GenerateResults.PyList general)
                    /\ GenerateResults.PyStr ("fork: " +:+ unquote (fork result)) ∈ general
                    /\ GenerateResults.dict_get
                         (GenerateResults.PyStr (runner result)) dirresults
                       = Some (GenerateResults.PyDict machine_dict)
                    /\ GenerateResults.dict_get GenerateResults.PyNone machine_dict
                       = Some (GenerateResults.PyList machine)
                    /\ GenerateResults.PyStr ("cpu model: " +:+ cpu_model_name result)
                       ∈ machine).
Proof.
  intros entries_of structure_of Hperm. split.
  - intros ->. subst structure_of. unfold DirectoryIndex.directory_structure,
      DirectoryIndex.get_directory_indices_entries. simpl.
    pose proof (Hperm []) as Hnil. apply Permutation_nil_r in Hnil. rewrite Hnil.
    reflexivity.
  - intros entries Hentries.
    destruct (entries_arity runner fork ref is_tier2 cpython_hash commit_datetime
                commit_merge_base github_action_url cpu_model_name platform
                benchmark_names long_summary compare_ref unquote link_to_hash md_link
                from_filename set_order fs results entries Hentries) as [Harity _].
    split; [exact Harity|]. intros Hnonempty.
    pose proof (directory_structure_spec runner fork ref is_tier2 cpython_hash
                  commit_datetime commit_merge_base github_action_url cpu_model_name
                  platform benchmark_names long_summary compare_ref unquote link_to_hash
                  md_link from_filename set_order fs results entries Hentries) as Hspec.
    destruct results as [|first results]; [congruence|].
    destruct Hspec as (structure & Hfold & Hdepth & Hfolded).
    destruct structure as [items|top]; [discriminate Hdepth|].
    exists top. split.
    { subst structure_of. unfold DirectoryIndex.directory_structure.
      fold entries_of. rewrite Hentries. exact Hfold. }
    split; [exact Hdepth|]. intros result Hresult.
    destruct (folded_four _ _ _ _ _ Hdepth
                (Hfolded result
                   [GenerateResults.PyPath
                      (GenerateResults.parent (GenerateResults.filename result));
                    GenerateResults.PyNone; GenerateResults.PyNone;
                    GenerateResults.PyStr ("fork: " +:+ unquote (fork result))]
                   Hresult ltac:(unfold DirectoryIndex.result_entries;
                                 apply elem_of_app; left; left)))
      as (m1 & dirresults & general_dict & general & [= <-] & Hdir & Hg1 & Hg2 & Hg3).
    destruct (folded_four _ _ _ _ _ Hdepth
                (Hfolded result
                   [GenerateResults.PyPath
                      (GenerateResults.parent (GenerateResults.filename result));
                    GenerateResults.PyStr (runner result); GenerateResults.PyNone;
                    GenerateResults.PyStr ("cpu model: " +:+ cpu_model_name result)]
                   Hresult ltac:(unfold DirectoryIndex.result_entries;
                                 apply elem_of_app; right;
                                 apply elem_of_app; right;
                                 apply elem_of_app; right;
                                 apply elem_of_app; left; left)))
      as (m1 & dirresults' & machine_dict & machine & [= <-] & Hdir' & Hm1 & Hm2 & Hm3).
    rewrite Hdir in Hdir'. injection Hdir' as <-.
    exists dirresults, general_dict, general, machine_dict, machine.
    repeat split; assumption.
Qed.

(** ** The categories of the profiler *)

Section RegexFacts.
Import Re.

Lemma matches_Empty s : matches Empty s = false.
Proof. induction s as [|c s IH]; [reflexivity | exact IH]. Qed.

Lemma matches_Alt r1 r2 s : matches (Alt r1 r2) s = matches r1 s || matches r2 s.
Proof.
  revert r1 r2. induction s as [|c s IH]; intros r1 r2; [reflexivity|].
  simpl. apply IH.
Qed.

Lemma matches_Seq_Empty r s : matches (Seq Empty r) s = false.
Proof.
  induction s as [|c s IH]; [reflexivity|].
  simpl. rewrite matches_Alt, IH, matches_Empty. reflexivity.
Qed.

Lemma matches_Seq_Eps r s : matches (Seq Eps r) s = matches r s.
Proof.
  destruct s as [|c s]; [reflexivity|].
  simpl. rewrite matches_Alt, matches_Seq_Empty. reflexivity.
Qed.

Lemma matches_Seq_Chr c r s : matches (Seq (Chr c) r) (String c s) = matches r s.
Proof.
  simpl. rewrite Ascii.eqb_refl, matches_Alt, matches_Seq_Eps, matches_Empty.
  apply orb_false_r.
Qed.

Lemma matches_nil r : matches r EmptyString = nullable r.
Proof. reflexivity. Qed.

(** [Seq r1 r2] matches the strings that split into one [r1] matches and
    one [r2] matches. *)
Lemma matches_Seq s : forall r1 r2,
  matches (Seq r1 r2) s = true <->
  exists s1 s2, s = s1 +:+ s2 /\ matches r1 s1 = true /\ matches r2 s2 = true.
Proof.
  induction s as [|c s IH]; intros r1 r2.
  - simpl. rewrite andb_true_iff. split.
    + intros [H1 H2]. exists EmptyString, EmptyString. repeat split; assumption.
    + intros (s1 & s2 & Hs & H1 & H2). destruct s1; [|discriminate Hs].
      destruct s2; [|discriminate Hs]. split; assumption.
  - simpl. rewrite matches_Alt, orb_true_iff, IH. split.
    + intros [(t1 & t2 & -> & H1 & H2)|Hnull].
      * exists (String c t1), t2. repeat split; assumption.
      * destruct (nullable r1) eqn:Hn; [|rewrite matches_Empty in Hnull; discriminate].
        exists EmptyString, (String c s). repeat split; assumption.
    + intros (s1 & s2 & Hs & H1 & H2). destruct s1 as [|c' t1].
      * right. change (String c s = s2) in Hs. subst s2.
        simpl in H1. rewrite H1. exact H2.
      * left. change (String c s = String c' (t1 +:+ s2)) in Hs.
        injection Hs as <- ->. exists t1, s2. repeat split; assumption.
Qed.

Lemma continuation_bytes_spec c :
  existsb (Ascii.eqb c) continuation_bytes = Str.is_continuation c.
Proof.
  destruct c as [b0 b1 b2 b3 b4 b5 b6 b7].
  destruct b0, b1, b2, b3, b4, b5, b6, b7; vm_compute; reflexivity.
Qed.

(** After the first byte of a character, [.*] matches whatever follows
    without a newline: the rest of the character and further characters. *)
Lemma matches_rest_of_line s :
  Str.contains GenerateResults.newline s = false ->
  matches (Seq (Star (Class continuation_bytes)) (Star Any)) s = true.
Proof.
  induction s as [|c s IH]; [reflexivity|].
  intros Hc. cbn [Str.contains] in Hc. apply orb_false_iff in Hc as [Hc Hs].
  specialize (IH Hs). cbn [matches deriv nullable].
  rewrite matches_Alt, continuation_bytes_spec, Hc. cbn [orb].
  destruct (Str.is_continuation c).
  - apply orb_true_iff. left. apply matches_Seq.
    apply matches_Seq in IH as (s1 & s2 & -> & H1 & H2).
    exists s1, s2. repeat split; [|exact H2]. rewrite matches_Seq_Eps. exact H1.
  - apply orb_true_iff. right. exact IH.
Qed.

Lemma matches_Plus_Any s :
  Str.starts_char s = true -> Str.contains GenerateResults.newline s = false ->
  matches (Plus Any) s = true.
Proof.
  destruct s as [|c s]; [discriminate|]. cbn [Str.starts_char Str.contains].
  intros Hstart Hc.
  apply negb_true_iff in Hstart. apply orb_false_iff in Hc as [Hc Hs].
  unfold Plus. cbn [matches deriv nullable].
  rewrite Hc, Hstart, matches_Alt. cbn [orb].
  rewrite (matches_rest_of_line s Hs). reflexivity.
Qed.

End RegexFacts.

Section FirstWordFacts.

Lemma space_width_newline s : Str.space_width (String GenerateResults.newline s) = 1.
Proof. reflexivity. Qed.

Lemma take_word_no_newline s :
  Str.contains GenerateResults.newline (Str.take_word s) = false.
Proof.
  induction s as [|a s IH]; [reflexivity|].
  change (Str.take_word (String a s))
    with (match Str.space_width (String a s) with
          | O => String a (Str.take_word s)
          | S _ => EmptyString
          end).
  destruct (Str.space_width (String a s)) eqn:Hw; [|reflexivity].
  simpl. rewrite IH, orb_false_r.
  destruct (Ascii.eqb_spec a GenerateResults.newline) as [->|]; [|reflexivity].
  rewrite space_width_newline in Hw. discriminate Hw.
Qed.

(** What is left after the white space is skipped begins with none. *)
Lemma skip_from_spec s : forall pending,
  Str.skip_from pending s = EmptyString \/ Str.space_width (Str.skip_from pending s) = 0.
Proof.
  induction s as [|a s IH]; intros pending; [left; reflexivity|].
  destruct pending as [|pending].
  - change (Str.skip_from 0 (String a s))
      with (match Str.space_width (String a s) with
            | O => String a s
            | S width' => Str.skip_from width' s
            end).
    destruct (Str.space_width (String a s)) eqn:Hw; [right; exact Hw | apply IH].
  - apply IH.
Qed.

Lemma first_word_no_newline s w :
  Str.first_word s = inr w -> Str.contains GenerateResults.newline w = false.
Proof.
  unfold Str.first_word, Str.skip_whitespace.
  destruct (skip_from_spec s 0) as [Hskip|Hskip].
  - rewrite Hskip. discriminate.
  - destruct (Str.skip_from 0 s) as [|a rest]; [discriminate|].
    intros [= <-]. simpl. rewrite take_word_no_newline, orb_false_r.
    destruct (Ascii.eqb_spec a GenerateResults.newline) as [->|]; [|reflexivity].
    rewrite space_width_newline in Hskip. discriminate Hskip.
Qed.

Lemma contains_app_r c a b : Str.contains c b = true -> Str.contains c (a +:+ b) = true.
Proof.
  intros Hb. induction a as [|x a' IH]; [exact Hb|].
  change (Str.contains c (String x (a' +:+ b)) = true).
  simpl. rewrite IH. apply orb_true_r.
Qed.

End FirstWordFacts.

Section CategoryFacts.
Import ProfilingPlot.

Lemma match_patterns_word sym word : forall patterns,
  Str.first_word sym = inr word ->
  match_patterns patterns sym = inr (existsb (fun p => pattern_matches p word) patterns).
Proof.
  intros patterns Hword. induction patterns as [|p patterns IH]; simpl; [reflexivity|].
  rewrite Hword. exn_step. destruct (pattern_matches p word); [reflexivity | exact IH].
Qed.

Lemma match_categories_word sym word : forall categories,
  Str.first_word sym = inr word ->
  exists found,
    match_categories categories sym = inr found
    /\ match found with
       | Some category => category ∈ map fst categories
       | None => True
       end.
Proof.
  intros categories Hword.
  induction categories as [|[category patterns] categories IH]; simpl.
  - exists None. split; [reflexivity | exact I].
  - rewrite (match_patterns_word sym word patterns Hword). exn_step.
    destruct (existsb _ patterns).
    + exists (Some category). split; [reflexivity | left].
    + destruct IH as (found & -> & Hfound). exists found. split; [reflexivity|].
      destruct found; [right; exact Hfound | exact I].
Qed.

Lemma match_categories_first sym word category patterns categories :
  Str.first_word sym = inr word ->
  existsb (fun p => pattern_matches p word) patterns = true ->
  match_categories ((category, patterns) :: categories) sym = inr (Some category).
Proof.
  intros Hword Hmatch. simpl.
  rewrite (match_patterns_word sym word patterns Hword), Hmatch. reflexivity.
Qed.

Lemma match_categories_blank sym e category pattern patterns categories :
  Str.first_word sym = inl e ->
  match_categories ((category, pattern :: patterns) :: categories) sym = inl e.
Proof. intros Hword. simpl. rewrite Hword. reflexivity. Qed.

Lemma first_word_error sym e : Str.first_word sym = inl e -> e = IndexError.
Proof.
  unfold Str.first_word. destruct (Str.skip_whitespace sym); [|discriminate].
  intros [= <-]. reflexivity.
Qed.

End CategoryFacts.

(** X15. [category_for_obj_sym] looks at the symbol only for the object
    ["python"]. For any other object it returns, whatever the symbol, one of
    ["kernel"], ["libc"], ["library"], ["unknown"]. For ["python"] it raises
    [IndexError] exactly when the symbol holds no word (it is empty or
    blank), and otherwise returns ["unknown"] or one of the names of
    [CATEGORIES]. *)
Theorem category_for_obj_sym_total :
  (forall obj sym,
      obj <> "python" ->
      exists category,
        ProfilingPlot.category_for_obj_sym obj sym = inr category
        /\ category ∈ ["kernel"; "libc"; "library"; "unknown"]
        /\ forall sym', ProfilingPlot.category_for_obj_sym obj sym' = inr category)
  /\ (forall sym,
        match ProfilingPlot.category_for_obj_sym "python" sym with
        | inl e => e = IndexError /\ Str.first_word sym = inl IndexError
        | inr category =>
            (exists word, Str.first_word sym = inr word)
            /\ (category = "unknown"
                \/ category ∈ map fst ProfilingPlot.CATEGORIES)
        end).
Proof.
  split.
  - intros obj sym Hobj. unfold ProfilingPlot.category_for_obj_sym.
    destruct (String.eqb obj "[kernel.kallsyms]");
      [exists "kernel"; repeat split; repeat constructor|].
    destruct (String.prefix "libc" obj);
      [exists "libc"; repeat split; repeat constructor|].
    destruct (Re.match_to_end ProfilingPlot.shared_object obj);
      [exists "library"; repeat split; repeat constructor|].
    apply String.eqb_neq in Hobj. rewrite Hobj.
    exists "unknown". repeat split; repeat constructor.
  - intros sym. unfold ProfilingPlot.category_for_obj_sym.
    change (String.eqb "python" "[kernel.kallsyms]") with false.
    change (String.prefix "libc" "python") with false.
    replace (Re.match_to_end ProfilingPlot.shared_object "python") with false
      by (vm_compute; reflexivity).
    change (String.eqb "python" "python") with true. cbv iota.
    destruct (Str.first_word sym) as [e|word] eqn:Hword.
    + pose proof (first_word_error sym e Hword) as ->.
      unfold ProfilingPlot.CATEGORIES.
      rewrite (match_categories_blank sym IndexError _ _ _ _ Hword). exn_step.
      split; reflexivity.
    + destruct (match_categories_word sym word ProfilingPlot.CATEGORIES Hword)
        as (found & -> & Hfound). exn_step.
      destruct found as [category|].
      * split; [eauto | right; exact Hfound].
      * split; [eauto | left; reflexivity].
Qed.

(** X16. For the object ["python"], every symbol whose first word is
    ["_PyEval"] followed by at least one character is categorized
    ["interpreter"], the first category to be tried. In particular
    ["_PyEval_SliceIndex"], which is also listed under ["miscobj"], is never
    categorized ["miscobj"]. *)
Theorem category_of_PyEval_symbols (sym rest : string) :
  Str.first_word sym = inr ("_PyEval" +:+ rest) ->
  Str.starts_char rest = true ->
  ProfilingPlot.category_for_obj_sym "python" sym = inr "interpreter".
Proof.
  intros Hword Hrest. unfold ProfilingPlot.category_for_obj_sym.
  change (String.eqb "python" "[kernel.kallsyms]") with false.
  change (String.prefix "libc" "python") with false.
  replace (Re.match_to_end ProfilingPlot.shared_object "python") with false
    by (vm_compute; reflexivity).
  change (String.eqb "python" "python") with true. cbv iota.
  unfold ProfilingPlot.CATEGORIES.
  rewrite (match_categories_first sym _ _ _ _ Hword); [reflexivity|].
  apply existsb_exists. exists "_PyEval.+". split; [simpl; tauto|].
  unfold ProfilingPlot.pattern_matches.
  replace (Re.parse "_PyEval.+")
    with (Some (Re.Seq (Re.Chr "_") (Re.Seq (Re.Chr "P") (Re.Seq (Re.Chr "y")
            (Re.Seq (Re.Chr "E") (Re.Seq (Re.Chr "v") (Re.Seq (Re.Chr "a")
               (Re.Seq (Re.Chr "l") (Re.Plus Re.Any)))))))))
    by (vm_compute; reflexivity).
  unfold Re.match_to_end. apply orb_true_iff. left.
  cbv [String.append]. rewrite !matches_Seq_Chr.
  apply matches_Plus_Any; [exact Hrest|].
  destruct (Str.contains GenerateResults.newline rest) eqn:Hnl; [|reflexivity].
  pose proof (first_word_no_newline sym _ Hword) as Hclean.
  rewrite (contains_app_r _ "_PyEval" rest Hnl) in Hclean. discriminate Hclean.
Qed.

(** All the patterns of [CATEGORIES] are in the syntax [Re.parse] reads. *)
Lemma categories_parse :
  forallb (fun category =>
             forallb (fun pattern => match Re.parse pattern with
                                     | Some _ => true
                                     | None => false
                                     end)
                     (snd category))
          ProfilingPlot.CATEGORIES = true.
Proof. vm_compute. reflexivity. Qed.

(** ** The properties above, at concrete inputs *)


Lemma sort_runner_names_raises_witness :
  Catalog.sort_runner_names [Some MoreSamples.linux_runner; Some "freebsd amd64"; Some ""]
  = inl ValueError.
Proof.
  destruct (sort_runner_names_raises
              [Some MoreSamples.linux_runner; Some "freebsd amd64"; Some ""])
    as [_ Hfirst].
  destruct (Hfirst [Some MoreSamples.linux_runner] "freebsd amd64" [Some ""] eq_refl)
    as [_ Hvalue].
  - intros u Hu. apply list_elem_of_singleton in Hu. injection Hu as ->.
    exists "linux". split; [reflexivity | left].
  - apply (Hvalue "freebsd"); [reflexivity|].
    intros Hin. repeat (apply elem_of_cons in Hin as [Heq|Hin]; [discriminate Heq|]).
    inversion Hin.
Defined.

Lemma sort_runner_names_order_witness :
  Permutation [None; Some MoreSamples.linux_runner; Some MoreSamples.darwin_runner]
              [Some MoreSamples.darwin_runner; None; Some MoreSamples.linux_runner].
Proof.
  exact (proj1 (sort_runner_names_order
                  [Some MoreSamples.darwin_runner; None; Some MoreSamples.linux_runner]
                  [None; Some MoreSamples.linux_runner; Some MoreSamples.darwin_runner]
                  eq_refl)).
Defined.

Lemma results_by_runner_partitions_witness :
  NoDup (map fst [(Some MoreSamples.linux_runner, Samples.oldest_first)]).
Proof.
  exact (proj1 (results_by_runner_partitions (fun _ => MoreSamples.linux_runner)
                  Samples.oldest_first
                  [(Some MoreSamples.linux_runner, Samples.oldest_first)] eq_refl)).
Defined.

Lemma get_most_recent_pystats_first_latest_witness :
  MoreSamples.pystats_of "2024-03-10" ∈ MoreSamples.pystats_results.
Proof.
  destruct (get_most_recent_pystats_first_latest
              (fun _ => "python") GenerateResults.run_date (fun _ => [])
              MoreSamples.pystats_results) as [_ Hlatest].
  exact (proj1 (Hlatest (MoreSamples.pystats_of "2024-03-10") eq_refl)).
Defined.

Lemma write_comparisons_unforced_adds_once_witness :
  GenerateResults.write_comparisons Samples.result_with_base_only
    (map snd (GenerateResults.bases Samples.result_with_base_only)) false
    {[ Samples.commit_dir := ["bm-20240105-linux.json"; "bm-20240105-linux-vs-base.md";
                              "bm-20240105-linux-vs-base.png"] ]}
  = inr {[ Samples.commit_dir := ["bm-20240105-linux.json"; "bm-20240105-linux-vs-base.md";
                                  "bm-20240105-linux-vs-base.png"] ]}.
Proof.
  apply (write_comparisons_unforced_adds_once Samples.result_with_base_only
           (map snd (GenerateResults.bases Samples.result_with_base_only))
           {[ Samples.commit_dir := ["bm-20240105-linux.json"] ]}).
  vm_compute. reflexivity.
Defined.

Lemma report_writer_leaves_file_iff_contents_witness :
  match GenerateResults.run_writer GenerateResults.write_markdown_results
          (Samples.commit_dir, "bm-20240105-linux-vs-base.md")
          {| GenerateResults.c_filename := None; GenerateResults.contents := None;
                   GenerateResults.plot_diff_raises := None |}
          Samples.directory_after with
  | inr fs' =>
      GenerateResults.exists_ fs' (Samples.commit_dir, "bm-20240105-linux-vs-base.md") = false
  | inl _ => False
  end.
Proof.
  pose proof (report_writer_leaves_file_iff_contents GenerateResults.write_markdown_results
                (Samples.commit_dir, "bm-20240105-linux-vs-base.md")
                {| GenerateResults.c_filename := None; GenerateResults.contents := None;
                   GenerateResults.plot_diff_raises := None |}
                Samples.directory_after ltac:(discriminate)) as Hspec.
  destruct (GenerateResults.run_writer _ _ _ _) as [e|fs'].
  - destruct Hspec as (_ & Hcontents & _). apply Hcontents. reflexivity.
  - exact (proj1 Hspec).
Defined.

Lemma directory_structure_of_results_witness :
  exists top,
    DirectoryIndex.directory_structure
      (fun _ => MoreSamples.linux_runner) (fun _ => "python") (fun _ => "main")
      (fun _ => true) (fun _ => "1f7e6a4") GenerateResults.run_date
      (fun _ => None) (fun _ => None) (fun _ => "EPYC") (fun _ => "Linux")
      MoreSamples.no_names (fun _ => "1.02x faster") (fun _ => Samples.result_with_base_only)
      (fun s => s) (fun h _ => h) (fun text _ => text)
      (fun _ => Samples.result_with_base_only) (fun l => l)
      Samples.directory_after [Samples.result_with_base_only]
    = inr (GenerateResults.PyDict top)
    /\ GenerateResults.has_depth 3 (GenerateResults.PyDict top).
Proof.
  destruct (directory_structure_of_results
              (fun _ => MoreSamples.linux_runner) (fun _ => "python") (fun _ => "main")
              (fun _ => true) (fun _ => "1f7e6a4") GenerateResults.run_date
              (fun _ => None) (fun _ => None) (fun _ => "EPYC") (fun _ => "Linux")
              MoreSamples.no_names (fun _ => "1.02x faster")
              (fun _ => Samples.result_with_base_only)
              (fun s => s) (fun h _ => h) (fun text _ => text)
              (fun _ => Samples.result_with_base_only) (fun l => l)
              Samples.directory_after [Samples.result_with_base_only]
              (fun l => Permutation_refl l)) as [_ Hbuilt].
  destruct (DirectoryIndex.get_directory_indices_entries _ _ _ _ _ _ _ _ _ _ _ _ _ _ _ _ _ _
              Samples.directory_after [Samples.result_with_base_only])
    as [e|entries] eqn:Hentries; [vm_compute in Hentries; discriminate Hentries|].
  destruct (Hbuilt entries eq_refl) as [_ Hstructure].
  destruct (Hstructure ltac:(discriminate)) as (top & Htop & Hdepth & _).
  exists top. split; assumption.
Defined.

Lemma category_for_obj_sym_total_witness :
  exists category,
    ProfilingPlot.category_for_obj_sym "libc.so.6" "malloc" = inr category
    /\ category ∈ ["kernel"; "libc"; "library"; "unknown"].
Proof.
  destruct (proj1 category_for_obj_sym_total "libc.so.6" "malloc" ltac:(discriminate))
    as (category & Hcategory & Hin & _).
  exists category. split; assumption.
Defined.

Lemma category_of_PyEval_symbols_witness :
  ProfilingPlot.category_for_obj_sym "python" "_PyEval_SliceIndex [clone .cold]"
  = inr "interpreter".
Proof.
  apply (category_of_PyEval_symbols "_PyEval_SliceIndex [clone .cold]" "_SliceIndex").
  - reflexivity.
  - reflexivity.
Defined.

(** [str.split()] splits on white space outside ASCII as on a space: a name
    or a symbol ends its first word at a no-break space or an em space, and
    one that holds nothing else has no word. *)
Lemma first_word_outside_ascii :
  Str.first_word ("linux" +:+ MoreSamples.no_break_space +:+ "x86_64") = inr "linux"
  /\ Str.first_word ("windows" +:+ MoreSamples.em_space +:+ "amd64") = inr "windows"
  /\ Str.first_word (MoreSamples.no_break_space +:+ MoreSamples.em_space) = inl IndexError
  /\ Catalog.sort_runner_names
       [Some ("windows" +:+ MoreSamples.em_space +:+ "amd64");
        Some ("linux" +:+ MoreSamples.no_break_space +:+ "x86_64")]
     = inr [Some ("linux" +:+ MoreSamples.no_break_space +:+ "x86_64");
            Some ("windows" +:+ MoreSamples.em_space +:+ "amd64")]
  /\ ProfilingPlot.category_for_obj_sym "python"
       ("_PyEval" +:+ MoreSamples.no_break_space +:+ "x") = inr "unknown"
  /\ ProfilingPlot.category_for_obj_sym "python" MoreSamples.no_break_space
     = inl IndexError.
Proof. vm_compute. repeat split. Qed.
